(** * dashboard.py: the refresh engine of the global finance dashboard

    A shallow embedding of [src/dashboard.py].  The program keeps a
    process-wide previous-close cache, fetches one quote per ticker under a
    timeout, fetches a group of tickers batch by batch with
    [asyncio.gather], renders each group as a table and repeats the whole
    cycle after [asyncio.sleep(10)].

    Prices are IEEE-754 binary64 numbers (pandas hands out [numpy.float64]),
    embedded as Rocq's primitive floats.  Everything the program does to the
    outside (quote-source calls, [print], [placeholder.markdown], [sleep])
    is recorded as an event in the world's trace, and the time that the
    calls and the sleeps take is counted by the world's clock.

    The calls to the quote source are ordinary blocking calls: the
    coroutine that makes them has no [await] of its own.  The event loop is
    that of asyncio in Python 3.11. *)

From Stdlib Require Import Floats ZArith String Ascii List DecimalString DecimalN Uint63.
From stdpp Require Import gmap strings list.

Local Open Scope string_scope.
Local Open Scope Z_scope.

(** ** Python numbers *)

Module PyFloat.

(** [bool(x)] for a float: every value but zero is true (NaN included). *)
Definition truthy (x : float) : bool := negb (PrimFloat.eqb x 0%float).

(** [a / b] rounded to the nearest integer, ties to even ([0 <= a], [0 < b]). *)
Definition div_half_even (a b : Z) : Z :=
  let q := a / b in
  match 2 * (a mod b) ?= b with
  | Lt => q
  | Gt => q + 1
  | Eq => if Z.even q then q else q + 1
  end.

(** [float(n)] for an integer [0 <= n < 2^63]; exact up to [2^53]. *)
Definition of_Z (n : Z) : float := PrimFloat.of_uint63 (Uint63.of_Z n).

(** [rint]: round to the nearest integer, ties to even, the sign kept
    (also that of a zero).  A finite value is [m * 2^e] with [m < 2^53]:
    with [0 <= e] it is an integer already, otherwise it is the fraction
    [m / 2^(-e)], whose rounding is below [2^53]. *)
Definition rint (x : float) : float :=
  match Prim2SF x with
  | S754_finite s m e =>
      if 0 <=? e then x
      else
        let r := of_Z (div_half_even (Z.pos m) (2 ^ (- e))) in
        if s then PrimFloat.opp r else r
  | _ => x
  end.

Definition pow10 (n : nat) : float :=
  Nat.iter n (fun y => PrimFloat.mul y 10%float) 1%float.

(** [round(x, ndigits)] on a [numpy.float64]: scale, [rint], scale back. *)
Definition round (x : float) (ndigits : nat) : float :=
  PrimFloat.div (rint (PrimFloat.mul x (pow10 ndigits))) (pow10 ndigits).

(** *** [format(x, '.Nf')] *)

(** [m * 2^e * 10^n], rounded to an integer. *)
Definition scaled (m : positive) (e : Z) (n : nat) : Z :=
  if 0 <=? e then Z.pos m * 2 ^ e * 10 ^ Z.of_nat n
  else div_half_even (Z.pos m * 10 ^ Z.of_nat n) (2 ^ (- e)).

Definition decimal (z : Z) : string :=
  NilZero.string_of_uint (N.to_uint (Z.to_N z)).

Fixpoint zeros (n : nat) : string :=
  match n with O => "" | S n' => String "0" (zeros n') end.

(** Put the decimal point [n] digits from the right end of [z]. *)
Definition fixed_point (z : Z) (n : nat) : string :=
  let s := decimal z in
  let s := zeros (S n - String.length s) +:+ s in
  let k := (String.length s - n)%nat in
  match n with
  | O => s
  | _ => substring 0 k s +:+ "." +:+ substring k n s
  end.

Definition format_f (n : nat) (x : float) : string :=
  match Prim2SF x with
  | S754_nan => "nan"
  | S754_infinity s => if s then "-inf" else "inf"
  | S754_zero s => (if s then "-" else "") +:+ fixed_point 0 n
  | S754_finite s m e => (if s then "-" else "") +:+ fixed_point (scaled m e n) n
  end.

End PyFloat.

(** ** Exceptions, outcomes and the world *)

(** The exceptions that occur in the program.  All of them derive from
    Python's [Exception]; [OtherError] stands for whatever else the quote
    source raises (network, parsing, unknown symbol). *)
Inductive exn : Type :=
| TimeoutError
| ValueError (msg : string)
| TypeError (msg : string)
| KeyError (key : string)
| IndexError (msg : string)
| OtherError (msg : string).

(** [str(e)] *)
Definition str_exn (e : exn) : string :=
  match e with
  | TimeoutError => ""
  | ValueError msg | TypeError msg | IndexError msg | OtherError msg => msg
  | KeyError key => "'" +:+ key +:+ "'"
  end.

(** What running a piece of code yields: a value or a raised exception. *)
Inductive outcome (A : Type) : Type :=
| Ok (a : A)
| Raise (e : exn).
Arguments Ok {A} a.
Arguments Raise {A} e.

(** A quote: [(price, change_percent)], each possibly [None]. *)
Definition Quote : Type := option float * option float.

(** A rendered table: the rows of [formatted_data], each with the cells of
    the three columns, as [DataFrame.to_html] lays them out. *)
Record Row : Type := mkRow {
  row_asset : string;
  row_price : string;
  row_change : string
}.

Inductive content : Type :=
| Table (classes : string) (rows : list Row)
| Text (s : string).

Inductive event : Type :=
| EvHistory (ticker : string)
| EvInfo (ticker : string)
| EvPrint (msg : string)
| EvMarkdown (placeholder : string) (c : content)
| EvSleep (secs : Z).

(** The program state and its surroundings: the global [prev_close_cache],
    the events so far, and the seconds gone by on the clock of the event
    loop. *)
Record World : Type := mkWorld {
  prev_close_cache : gmap string (option float);
  trace : list event;
  clock : Z
}.

Definition set_cache (c : gmap string (option float)) (w : World) : World :=
  mkWorld c (trace w) (clock w).

Definition log (e : event) (w : World) : World :=
  mkWorld (prev_close_cache w) (trace w ++ [e])%list (clock w).

(** [secs] seconds go by. *)
Definition elapse (secs : Z) (w : World) : World :=
  mkWorld (prev_close_cache w) (trace w) (clock w + secs).

Definition M (A : Type) : Type := World -> outcome A * World.

Definition ret {A} (a : A) : M A := fun w => (Ok a, w).

Definition bind {A B} (c : M A) (k : A -> M B) : M B :=
  fun w =>
    match c w with
    | (Ok a, w') => k a w'
    | (Raise e, w') => (Raise e, w')
    end.

Definition lift {A} (r : outcome A) : M A := fun w => (r, w).

Notation "x <- c ;; k" := (bind c (fun x => k))
  (at level 100, c at next level, right associativity, only parsing).
Notation "c ;;; k" := (bind c (fun _ => k))
  (at level 100, right associativity, only parsing).

(** [try: body except TimeoutError: h1 except Exception as e: h2 e] *)
Definition try_except {A} (body : M A) (on_timeout : M A) (on_exception : exn -> M A) : M A :=
  fun w =>
    match body w with
    | (Ok a, w') => (Ok a, w')
    | (Raise TimeoutError, w') => on_timeout w'
    | (Raise e, w') => on_exception e w'
    end.

(** [asyncio.wait_for(c, timeout)] for a coroutine [c] that has no [await]
    of its own, as [fetch_data] is: what the task made of [c] runs.  With a
    [timeout] of zero or less the task is cancelled before its first step:
    nothing of [c] runs and [TimeoutError] is raised.  Otherwise the task
    runs [c] to its end in one step of the event loop; the loop gets to the
    timer only afterwards and finds the task done, so the outcome of [c] is
    the outcome, however long [c] took. *)
Definition wait_for {A} (c : M A) (timeout : Z) : M A :=
  if timeout <=? 0 then (fun w => (Raise TimeoutError, w)) else c.

Definition print (msg : string) : M unit := fun w => (Ok tt, log (EvPrint msg) w).

(** ** The quote source *)

(** What a call to the quote source does in the end: return or raise. *)
Inductive response (A : Type) : Type :=
| Returns (a : A)
| Fails (e : exn).
Arguments Returns {A} a.
Arguments Fails {A} e.

(** [yf.Ticker(ticker)]: the [Close] column of [history(period="1d")],
    oldest first, and [info.get("previousClose", None)]; and the seconds
    that each of the two calls takes before it returns or raises.  The
    calls block: while one is under way nothing else runs, so that a call
    that never came back would stop the program for good; the calls here
    all come back, each after its seconds. *)
Record QuoteSource : Type := mkSource {
  history : string -> response (list float);
  previousClose : string -> response (option float);
  history_seconds : string -> N;
  info_seconds : string -> N
}.

Definition respond {A} (r : response A) : M A :=
  fun w =>
    match r with
    | Returns a => (Ok a, w)
    | Fails e => (Raise e, w)
    end.

Definition call_history (src : QuoteSource) (ticker : string) : M (list float) :=
  fun w =>
    respond (history src ticker)
      (elapse (Z.of_N (history_seconds src ticker)) (log (EvHistory ticker) w)).

Definition call_info (src : QuoteSource) (ticker : string) : M (option float) :=
  fun w =>
    respond (previousClose src ticker)
      (elapse (Z.of_N (info_seconds src ticker)) (log (EvInfo ticker) w)).

(** ** fetch_single_price *)

Definition default_timeout : Z := 10.

(** [ticker in prev_close_cache] *)
Definition cache_contains (ticker : string) : M bool :=
  fun w => (Ok (bool_decide (is_Some (prev_close_cache w !! ticker))), w).

(** [prev_close_cache[ticker] = v] *)
Definition cache_store (ticker : string) (v : option float) : M unit :=
  fun w => (Ok tt, set_cache (<[ticker := v]> (prev_close_cache w)) w).

(** [prev_close_cache[ticker]] *)
Definition cache_read (ticker : string) : M (option float) :=
  fun w =>
    match prev_close_cache w !! ticker with
    | Some v => (Ok v, w)
    | None => (Raise (KeyError ticker), w)
    end.

(** Lines 88-89: the previous close is looked up only for a ticker the
    cache does not hold yet. *)
Definition fill_prev_close (src : QuoteSource) (ticker : string) : M unit :=
  known <- cache_contains ticker ;;
  if negb known
  then (v <- call_info src ticker ;; cache_store ticker v)
  else ret tt.

(** [history["Close"].iloc[-1]] *)
Definition iloc_last (closes : list float) : outcome float :=
  match last closes with
  | Some x => Ok x
  | None => Raise (IndexError "single positional indexer is out-of-bounds")
  end.

(** Lines 93-97: the change in percent, when [prev_close] is truthy. *)
Definition change_percent (current_price : float) (prev_close : option float) : option float :=
  match prev_close with
  | Some pc =>
      if PyFloat.truthy pc
      then Some (PyFloat.round
                   (PrimFloat.mul (PrimFloat.div (PrimFloat.sub current_price pc) pc) 100%float) 2)
      else None
  | None => None
  end.

(** Lines 91-100: the quote, once the history and the previous close are
    at hand. *)
Definition price_and_change (closes : list float) (prev_close : option float) : M Quote :=
  match closes with
  | [] => ret (None, None)
  | _ =>
      current_price <- lift (iloc_last closes) ;;
      ret (Some current_price, change_percent current_price prev_close)
  end.

Definition fetch_data (src : QuoteSource) (ticker : string) : M Quote :=
  closes <- call_history src ticker ;;
  fill_prev_close src ticker ;;;
  prev_close <- cache_read ticker ;;
  price_and_change closes prev_close.

(** A coroutine that awaits one task: what the task runs, and how the
    coroutine goes on with the outcome of the task. *)
Record coroutine (A : Type) : Type := mkCoroutine {
  task : M A;
  resume : outcome A -> M A
}.
Arguments mkCoroutine {A} task resume.
Arguments task {A} c.
Arguments resume {A} c r.

(** [await co] in a caller that has nothing else going on: the task runs,
    then the coroutine goes on. *)
Definition await {A} (co : coroutine A) : M A :=
  fun w => let '(r, w') := task co w in resume co r w'.

(** Lines 84 and 103-108: the [try] block around the awaited call, with
    the outcome of the call at hand. *)
Definition fetch_single_price_resume (ticker : string) (r : outcome Quote) : M Quote :=
  try_except
    (lift r)
    (print ("Timeout fetching data for " +:+ ticker) ;;; ret (None, None))
    (fun e => print ("Error fetching data for " +:+ ticker +:+ ": " +:+ str_exn e) ;;;
              ret (None, None)).

(** [fetch_single_price(ticker, timeout)], the coroutine: it hands
    [fetch_data()] to [asyncio.wait_for] and awaits the result. *)
Definition fetch_single_price_coroutine (src : QuoteSource) (ticker : string) (timeout : Z)
    : coroutine Quote :=
  mkCoroutine (wait_for (fetch_data src ticker) timeout) (fetch_single_price_resume ticker).

(** [await fetch_single_price(ticker, timeout)] *)
Definition fetch_single_price (src : QuoteSource) (ticker : string) (timeout : Z) : M Quote :=
  await (fetch_single_price_coroutine src ticker timeout).

(** ** Python sequences *)

(** [range(start, stop, step)] *)
Definition py_range (start stop step : Z) : outcome (list Z) :=
  if step =? 0 then Raise (ValueError "range() arg 3 must not be zero")
  else
    let count :=
      if (0 <? step) && (start <? stop) then (stop - start + step - 1) / step
      else if (step <? 0) && (stop <? start) then (start - stop - step - 1) / (- step)
      else 0 in
    Ok ((fun k : nat => start + Z.of_nat k * step) <$> seq 0 (Z.to_nat count)).

(** A slice bound, clipped the way Python clips it. *)
Definition clip_index (len : nat) (i : Z) : nat :=
  if i <? 0 then Z.to_nat (Z.max (i + Z.of_nat len) 0)
  else Z.to_nat (Z.min i (Z.of_nat len)).

(** [l[lo:hi]] *)
Definition py_slice {A} (l : list A) (lo hi : Z) : list A :=
  let a := clip_index (length l) lo in
  let b := clip_index (length l) hi in
  take (b - a) (drop a l).

(** [list(assets.values())] and [assets.keys()]: a dict keeps insertion
    order, so a group is an association list. *)
Definition values (assets : list (string * string)) : list string := snd <$> assets.
Definition keys (assets : list (string * string)) : list string := fst <$> assets.

(** ** asyncio.gather *)

(** A task keeps the outcome of what it ran, value or exception. *)
Definition settle {A} (c : M A) : M (outcome A) :=
  fun w => let '(r, w') := c w in (Ok r, w').

(** Run one after the other, each to its end. *)
Fixpoint run_all {A} (cs : list (M A)) : M (list (outcome A)) :=
  match cs with
  | [] => ret []
  | c :: cs' =>
      r <- settle c ;;
      rs <- run_all cs' ;;
      ret (r :: rs)
  end.

(** The values, or else the first exception. *)
Fixpoint results_of {A} (rs : list (outcome A)) : outcome (list A) :=
  match rs with
  | [] => Ok []
  | Ok a :: rs' =>
      match results_of rs' with
      | Ok l => Ok (a :: l)
      | Raise e => Raise e
      end
  | Raise e :: _ => Raise e
  end.

(** [await asyncio.gather] on the unpacked coroutines.  Each coroutine
    becomes a task, in the order of the arguments, and the event loop runs
    what is ready first in, first out: every coroutine runs up to its
    [await], which leaves the awaited tasks ready in the same order; these
    run one after the other, each to its end; then the coroutines go on,
    again in this order.  The caller resumes when all are done, with the
    results in the order of the arguments, or with the first exception. *)
Definition gather {A} (cos : list (coroutine A)) : M (list A) :=
  settled <- run_all (task <$> cos) ;;
  finished <- run_all (zip_with resume cos settled) ;;
  lift (results_of finished).

(** ** fetch_all_prices *)

Definition default_batch_size : Z := 5.

(** The body of a [for] loop that threads the local [results]. *)
Fixpoint for_each {A S} (l : list A) (body : S -> A -> M S) (s : S) : M S :=
  match l with
  | [] => ret s
  | x :: l' => s' <- body s x ;; for_each l' body s'
  end.

(** Lines 116-118, the body of the loop: one batch is cut out, fetched
    with [gather], and its quotes are appended to [results]. *)
Definition fetch_batch (src : QuoteSource) (tickers : list string) (batch_size : Z)
    (results : list Quote) (i : Z) : M (list Quote) :=
  let batch := py_slice tickers i (i + batch_size) in
  let tasks := (fun ticker => fetch_single_price_coroutine src ticker default_timeout) <$> batch in
  fetched <- gather tasks ;;
  ret (results ++ fetched)%list.

Definition fetch_all_prices (src : QuoteSource) (assets : list (string * string))
    (batch_size : Z) : M (list Quote) :=
  let tickers := values assets in
  starts <- lift (py_range 0 (Z.of_nat (length tickers)) batch_size) ;;
  for_each starts (fetch_batch src tickers batch_size) [].

(** ** The catalog *)

Definition commodities : list (string * string) :=
  [("금", "GC=F"); ("원유", "CL=F"); ("천연가스", "NG=F"); ("은", "SI=F");
   ("구리", "HG=F"); ("백금", "PL=F"); ("옥수수", "ZC=F"); ("대두", "ZS=F");
   ("밀", "ZW=F")].

Definition indices_spot : list (string * string) :=
  [("나스닥 (현물)", "^IXIC"); ("다우존스 (현물)", "^DJI"); ("S&P 500 (현물)", "^GSPC");
   ("니케이 225 (현물)", "^N225"); ("FTSE 100 (영국)", "^FTSE"); ("DAX (독일)", "^GDAXI");
   ("상해 종합 (중국)", "000001.SS"); ("코스피 (한국)", "^KS11"); ("코스닥 (한국)", "^KQ11")].

Definition indices_futures : list (string * string) :=
  [("나스닥 (선물)", "NQ=F"); ("다우존스 (선물)", "YM=F"); ("S&P 500 (선물)", "ES=F")].

Definition forex_pairs : list (string * string) :=
  [("달러/유로", "EURUSD=X"); ("달러/엔", "JPY=X"); ("달러/파운드", "GBPUSD=X");
   ("달러/위안", "CNY=X"); ("달러/원", "KRW=X")].

Definition us_bonds : list (string * string) :=
  [("미국 단기 국채 (1년물)", "^IRX"); ("미국 중기 국채 (5년물)", "^FVX");
   ("미국 장기 국채 (10년물)", "^TNX"); ("미국 초장기 국채 (30년물)", "^TYX")].

Definition crypto : list (string * string) :=
  [("비트코인", "BTC-USD"); ("이더리움", "ETH-USD"); ("리플", "XRP-USD");
   ("솔라나", "SOL-USD"); ("바이낸스코인", "BNB-USD"); ("도지코인", "DOGE-USD");
   ("에이다", "ADA-USD"); ("트론", "TRX-USD"); ("아발란체", "AVAX-USD")].

(** ** create_dataframe *)

Definition no_data : string := "데이터 없음".

Definition span_red : string :=
  "<span style='color:red; text-align:right; padding-right:10px;'>".
Definition span_blue : string :=
  "<span style='color:#4682B4; text-align:right; padding-right:10px;'>".
Definition span_plain : string :=
  "<span style='text-align:right; padding-right:10px;'>".
Definition span_end : string := "</span>".

(** [change and change > 0] *)
Definition is_rise (change : option float) : bool :=
  match change with
  | Some c => PyFloat.truthy c && PrimFloat.ltb 0%float c
  | None => false
  end.

(** [change and change < 0] *)
Definition is_fall (change : option float) : bool :=
  match change with
  | Some c => PyFloat.truthy c && PrimFloat.ltb c 0%float
  | None => false
  end.

(** [f"{v:.Nf}"]: formatting [None] with a float format raises. *)
Definition format_value (v : option float) (digits : nat) : outcome string :=
  match v with
  | Some x => Ok (PyFloat.format_f digits x)
  | None => Raise (TypeError "unsupported format string passed to NoneType.__format__")
  end.

Definition outcome_map {A B} (f : A -> B) (r : outcome A) : outcome B :=
  match r with
  | Ok a => Ok (f a)
  | Raise e => Raise e
  end.

Definition outcome_bind {A B} (r : outcome A) (k : A -> outcome B) : outcome B :=
  match r with
  | Ok a => k a
  | Raise e => Raise e
  end.

(** The cell of the price column. *)
Definition price_cell (digits : nat) (price change : option float) : outcome string :=
  if is_rise change
  then outcome_map (fun s => span_red +:+ s +:+ span_end) (format_value price digits)
  else if is_fall change
  then outcome_map (fun s => span_blue +:+ s +:+ span_end) (format_value price digits)
  else match price with
       | Some _ => outcome_map (fun s => span_plain +:+ s +:+ span_end) (format_value price digits)
       | None => Ok no_data
       end.

(** The cell of the change column. *)
Definition change_cell (change : option float) : outcome string :=
  if is_rise change
  then outcome_map (fun s => span_red +:+ s +:+ "%" +:+ span_end) (format_value change 2)
  else if is_fall change
  then outcome_map (fun s => span_blue +:+ s +:+ "%" +:+ span_end) (format_value change 2)
  else Ok no_data.

Definition format_row (digits : nat) (entry : string * Quote) : outcome Row :=
  let '(name, (price, change)) := entry in
  outcome_bind (price_cell digits price change) (fun p =>
  outcome_bind (change_cell change) (fun c =>
  Ok (mkRow name p c))).

(** A list comprehension whose element expression may raise. *)
Fixpoint comprehension {A B} (f : A -> outcome B) (l : list A) : outcome (list B) :=
  match l with
  | [] => Ok []
  | x :: l' =>
      outcome_bind (f x) (fun y =>
      outcome_bind (comprehension f l') (fun ys => Ok (y :: ys)))
  end.

Definition formatted_data (digits : nat) (data : list Quote) (asset_names : list string)
    : outcome (list Row) :=
  comprehension (format_row digits) (zip asset_names data).

Definition create_dataframe (data : list Quote) (asset_names : list string) : outcome content :=
  outcome_map (Table "styled-table") (formatted_data 2 data asset_names).

Definition create_crypto_dataframe (data : list Quote) (asset_names : list string)
    : outcome content :=
  outcome_map (Table "styled-table") (formatted_data 4 data asset_names).

(** ** update_dashboard *)

Definition markdown (placeholder : string) (c : content) : M unit :=
  fun w => (Ok tt, log (EvMarkdown placeholder c) w).

(** [await asyncio.sleep(secs)]: the caller goes on [secs] seconds later
    (at once when [secs] is not positive). *)
Definition sleep (secs : Z) : M unit :=
  fun w => (Ok tt, elapse (Z.max 0 secs) (log (EvSleep secs) w)).

(** What the outside offers during one refresh cycle: the quote source and
    the wall clock, already formatted for Asia/Seoul. *)
Record Environment : Type := mkEnv {
  quotes : QuoteSource;
  current_time_kst : string
}.

(** One pass through the body of [while True]. *)
Definition update_dashboard_cycle (env : Environment) : M unit :=
  commodity_prices <- fetch_all_prices (quotes env) commodities default_batch_size ;;
  indices_spot_prices <- fetch_all_prices (quotes env) indices_spot default_batch_size ;;
  indices_futures_prices <- fetch_all_prices (quotes env) indices_futures default_batch_size ;;
  forex_rates <- fetch_all_prices (quotes env) forex_pairs default_batch_size ;;
  bond_prices <- fetch_all_prices (quotes env) us_bonds default_batch_size ;;
  crypto_prices <- fetch_all_prices (quotes env) crypto default_batch_size ;;
  t1 <- lift (create_dataframe commodity_prices (keys commodities)) ;;
  markdown "commodities_table" t1 ;;;
  t2 <- lift (create_dataframe indices_spot_prices (keys indices_spot)) ;;
  markdown "indices_spot_table" t2 ;;;
  t3 <- lift (create_dataframe indices_futures_prices (keys indices_futures)) ;;
  markdown "indices_futures_table" t3 ;;;
  t4 <- lift (create_dataframe forex_rates (keys forex_pairs)) ;;
  markdown "forex_table" t4 ;;;
  t5 <- lift (create_dataframe bond_prices (keys us_bonds)) ;;
  markdown "bonds_table" t5 ;;;
  t6 <- lift (create_crypto_dataframe crypto_prices (keys crypto)) ;;
  markdown "crypto_table" t6 ;;;
  markdown "update_time" (Text ("**데이터 갱신 시각:** " +:+ current_time_kst env)) ;;;
  sleep 10.

(** The first [n] passes of [while True]; [feed k] is the environment of
    pass [k].  The loop has no exit of its own: it ends only when a pass
    raises. *)
Fixpoint update_dashboard (feed : nat -> Environment) (k n : nat) : M unit :=
  match n with
  | O => ret tt
  | S n' => update_dashboard_cycle (feed k) ;;; update_dashboard feed (S k) n'
  end.

(** [main]: [asyncio.run(update_dashboard())], observed for [n] passes. *)
Definition main (feed : nat -> Environment) (n : nat) : M unit :=
  update_dashboard feed 0 n.

(** ** The page: placeholders, the initial tables and the entry point *)

(** An element of the page, numbered in the order of creation. *)
Inductive element : Type :=
| EmptyElement (id : nat)
| ContainerElement (id : nat).

(** The global [placeholders] dict and the number of elements created. *)
Record Page : Type := mkPage {
  placeholders : gmap string element;
  created : nat
}.

(** [st.empty()] *)
Definition st_empty (p : Page) : element * Page :=
  (EmptyElement (created p), mkPage (placeholders p) (S (created p))).

(** [st.container()] *)
Definition st_container (p : Page) : element * Page :=
  (ContainerElement (created p), mkPage (placeholders p) (S (created p))).

(** [placeholders[key] = el] *)
Definition set_placeholder (key : string) (el : element) (p : Page) : Page :=
  mkPage (<[key := el]> (placeholders p)) (created p).

(** [placeholders[key] = st.empty()] *)
Definition new_empty (key : string) (p : Page) : Page :=
  let '(el, p') := st_empty p in set_placeholder key el p'.

(** [placeholders[key] = st.container()] *)
Definition new_container (key : string) (p : Page) : Page :=
  let '(el, p') := st_container p in set_placeholder key el p'.

(** Lines 167-175: the dict that the module starts with. *)
Definition module_placeholders : Page :=
  new_empty "update_time"
    (new_empty "crypto"
       (new_empty "bonds"
          (new_empty "forex"
             (new_empty "indices_futures"
                (new_empty "indices_spot"
                   (new_empty "commodities" (mkPage ∅ 0))))))).

(** [placeholders[key].markdown(c, ...)]: the subscript is evaluated first
    and raises [KeyError] for a key the dict does not have; then the
    argument is evaluated, then the element is written. *)
Definition placeholder_markdown (p : Page) (key : string) (c : outcome content) : M unit :=
  fun w =>
    match placeholders p !! key with
    | Some _ => (t <- lift c ;; markdown key t) w
    | None => (Raise (KeyError key), w)
    end.

(** [add_custom_css]: the style sheet goes to the page itself, which has
    the empty key. *)
Definition custom_css : string :=
  "
        <style>
        .styled-table th {
            text-align: center;
        }
        .styled-table td {
            text-align: right;
        }
        </style>
        ".

Definition add_custom_css : M unit := markdown "" (Text custom_css).

(** One stanza of [render_initial_tables] (lines 179-183 and the like): a
    container with the title, then an empty element that at once gets the
    table of the group with no quote known. *)
Definition render_initial_table (title_key title table_key : string)
    (render : list Quote -> list string -> outcome content)
    (assets : list (string * string)) (p : Page) : M Page :=
  let p1 := new_container title_key p in
  placeholder_markdown p1 title_key (Ok (Text title)) ;;;
  let p2 := new_empty table_key p1 in
  placeholder_markdown p2 table_key
    (render (replicate (length assets) (None, None)) (keys assets)) ;;;
  ret p2.

Definition render_initial_tables (p : Page) : M Page :=
  p <- render_initial_table "commodities_title" "## 💰 원자재" "commodities_table"
         create_dataframe commodities p ;;
  p <- render_initial_table "indices_spot_title" "## 📈 주요 지수 (현물)" "indices_spot_table"
         create_dataframe indices_spot p ;;
  p <- render_initial_table "indices_futures_title" "## 📉 주요 지수 (선물)"
         "indices_futures_table" create_dataframe indices_futures p ;;
  p <- render_initial_table "forex_title" "## 💱 주요 환율" "forex_table"
         create_dataframe forex_pairs p ;;
  p <- render_initial_table "bonds_title" "## 💵 미국 국채" "bonds_table"
         create_dataframe us_bonds p ;;
  p <- render_initial_table "crypto_title" "## 🪙 주요 코인" "crypto_table"
         create_crypto_dataframe crypto p ;;
  let p := new_empty "update_time" p in
  placeholder_markdown p "update_time" (Ok (Text "**데이터 갱신 시각:** 데이터 로딩 중...")) ;;;
  ret p.

(** The body of [while True] with the dict lookups of lines 238-259. *)
Definition update_dashboard_cycle_on (p : Page) (env : Environment) : M unit :=
  commodity_prices <- fetch_all_prices (quotes env) commodities default_batch_size ;;
  indices_spot_prices <- fetch_all_prices (quotes env) indices_spot default_batch_size ;;
  indices_futures_prices <- fetch_all_prices (quotes env) indices_futures default_batch_size ;;
  forex_rates <- fetch_all_prices (quotes env) forex_pairs default_batch_size ;;
  bond_prices <- fetch_all_prices (quotes env) us_bonds default_batch_size ;;
  crypto_prices <- fetch_all_prices (quotes env) crypto default_batch_size ;;
  placeholder_markdown p "commodities_table"
    (create_dataframe commodity_prices (keys commodities)) ;;;
  placeholder_markdown p "indices_spot_table"
    (create_dataframe indices_spot_prices (keys indices_spot)) ;;;
  placeholder_markdown p "indices_futures_table"
    (create_dataframe indices_futures_prices (keys indices_futures)) ;;;
  placeholder_markdown p "forex_table"
    (create_dataframe forex_rates (keys forex_pairs)) ;;;
  placeholder_markdown p "bonds_table"
    (create_dataframe bond_prices (keys us_bonds)) ;;;
  placeholder_markdown p "crypto_table"
    (create_crypto_dataframe crypto_prices (keys crypto)) ;;;
  placeholder_markdown p "update_time"
    (Ok (Text ("**데이터 갱신 시각:** " +:+ current_time_kst env))) ;;;
  sleep 10.

Fixpoint update_dashboard_on (p : Page) (feed : nat -> Environment) (k n : nat) : M unit :=
  match n with
  | O => ret tt
  | S n' => update_dashboard_cycle_on p (feed k) ;;; update_dashboard_on p feed (S k) n'
  end.

(** Lines 269-272, the script: style sheet, initial tables, then the loop
    (observed for [n] passes). *)
Definition script (feed : nat -> Environment) (n : nat) : M unit :=
  add_custom_css ;;;
  p <- render_initial_tables module_placeholders ;;
  update_dashboard_on p feed 0 n.

(** * Notions for the statements *)

(** The quote that the closes of the day and a previous close give. *)
Definition quote_from (closes : list float) (prev_close : option float) : Quote :=
  match last closes with
  | Some p => (Some p, change_percent p prev_close)
  | None => (None, None)
  end.

(** The message printed when a fetch is abandoned. *)
Definition failure_message (ticker : string) (e : exn) : string :=
  match e with
  | TimeoutError => "Timeout fetching data for " +:+ ticker
  | _ => "Error fetching data for " +:+ ticker +:+ ": " +:+ str_exn e
  end.

Definition abandoned (ticker : string) (e : exn) (w : World) : outcome Quote * World :=
  (Ok (None, None), log (EvPrint (failure_message ticker e)) w).

(** The world after the history call for [ticker], and after the
    previous-close lookup that follows it. *)
Definition after_history (src : QuoteSource) (ticker : string) (w : World) : World :=
  elapse (Z.of_N (history_seconds src ticker)) (log (EvHistory ticker) w).

Definition after_info (src : QuoteSource) (ticker : string) (w : World) : World :=
  elapse (Z.of_N (info_seconds src ticker)) (log (EvInfo ticker) (after_history src ticker w)).

(** [fetch_data], case by case. *)
Definition fetch_data_cases (src : QuoteSource) (ticker : string) (w : World)
    : outcome Quote * World :=
  match history src ticker with
  | Returns closes =>
      match prev_close_cache w !! ticker with
      | Some pc => (Ok (quote_from closes pc), after_history src ticker w)
      | None =>
          match previousClose src ticker with
          | Returns pc =>
              (Ok (quote_from closes pc),
               set_cache (<[ticker := pc]> (prev_close_cache w)) (after_info src ticker w))
          | Fails e => (Raise e, after_info src ticker w)
          end
      end
  | Fails e => (Raise e, after_history src ticker w)
  end.

(** [fetch_single_price] with a positive timeout, case by case. *)
Definition fetch_single_price_cases (src : QuoteSource) (ticker : string) (w : World)
    : outcome Quote * World :=
  match fetch_data_cases src ticker w with
  | (Ok q, w') => (Ok q, w')
  | (Raise e, w') => abandoned ticker e w'
  end.

(** Events of the quote source and of [print]: all a fetch may add. *)
Definition source_event (e : event) : Prop :=
  match e with
  | EvHistory _ | EvInfo _ | EvPrint _ => True
  | EvMarkdown _ _ | EvSleep _ => False
  end.

(** The tickers whose history was requested, in the order of the requests. *)
Definition fetches (evs : list event) : list string :=
  omap (fun e => match e with EvHistory t => Some t | _ => None end) evs.

(** The previous close a fetch of [t] works with when the cache is [c]. *)
Definition resolve_prev_close (src : QuoteSource) (c : gmap string (option float)) (t : string)
    : response (option float) :=
  match c !! t with
  | Some pc => Returns pc
  | None => previousClose src t
  end.

(** The quote a fetch of [t] returns when the cache is [c]. *)
Definition fetched_quote (src : QuoteSource) (c : gmap string (option float)) (t : string) : Quote :=
  match history src t, resolve_prev_close src c t with
  | Returns closes, Returns pc => quote_from closes pc
  | _, _ => (None, None)
  end.

(** [c'] holds what [c] holds, and beyond that only previous closes that
    the source reports. *)
Definition cache_ext (src : QuoteSource) (c c' : gmap string (option float)) : Prop :=
  forall t, c' !! t = c !! t \/
            (c !! t = None /\ exists v, previousClose src t = Returns v /\ c' !! t = Some v).

(** What [fetch_data] for [t] ends in when the cache is [c]. *)
Definition fetch_outcome (src : QuoteSource) (c : gmap string (option float)) (t : string)
    : outcome Quote :=
  match history src t with
  | Returns closes =>
      match resolve_prev_close src c t with
      | Returns pc => Ok (quote_from closes pc)
      | Fails e => Raise e
      end
  | Fails e => Raise e
  end.

(** The quote that [fetch_single_price] makes of the outcome of the
    awaited call, and what it prints on the way. *)
Definition settled_quote (r : outcome Quote) : Quote :=
  match r with
  | Ok q => q
  | Raise _ => (None, None)
  end.

Definition failure_prints (ticker : string) (r : outcome Quote) : list event :=
  match r with
  | Ok _ => []
  | Raise e => [EvPrint (failure_message ticker e)]
  end.

(** The calls that a fetch of [t] makes: the history request, and
    perhaps the previous-close lookup after it. *)
Definition call_block (t : string) (evs : list event) : Prop :=
  evs = [EvHistory t] \/ evs = [EvHistory t; EvInfo t].

Definition is_print (e : event) : Prop := exists msg, e = EvPrint msg.

(** The events of one batch: the calls for its tickers, ticker after
    ticker in the order of the batch, and after the last call the messages
    of the fetches that failed. *)
Definition batch_events (batch : list string) (evs : list event) : Prop :=
  exists calls prints,
    evs = (concat calls ++ prints)%list
    /\ Forall2 call_block batch calls
    /\ Forall is_print prints.

(** The seconds that the quote source [src] takes for the calls among
    [evs]. *)
Fixpoint call_seconds (src : QuoteSource) (evs : list event) : Z :=
  match evs with
  | [] => 0
  | EvHistory t :: evs' => Z.of_N (history_seconds src t) + call_seconds src evs'
  | EvInfo t :: evs' => Z.of_N (info_seconds src t) + call_seconds src evs'
  | _ :: evs' => call_seconds src evs'
  end.

(** From [w] to [w'] nothing happened but the fetches of the batches
    [batches], batch after batch: the cache grew as [cache_ext] allows, the
    new events are those of the batches, and the clock went on by the
    seconds of the calls, one call after the other. *)
Definition only_fetches (src : QuoteSource) (w w' : World) (batches : list (list string)) : Prop :=
  cache_ext src (prev_close_cache w) (prev_close_cache w') /\
  exists blocks,
    trace w' = (trace w ++ concat blocks)%list
    /\ Forall2 batch_events batches blocks
    /\ clock w' = clock w + call_seconds src (concat blocks).

(** From [w] to [w'] nothing happened but fetches: the cache grew as
    [cache_ext] allows, the new events are calls and messages, the
    histories of [ts] were requested in this order, and the clock went on
    by the seconds of the calls. *)
Definition fetched (src : QuoteSource) (w w' : World) (ts : list string) : Prop :=
  cache_ext src (prev_close_cache w) (prev_close_cache w') /\
  exists evs,
    trace w' = (trace w ++ evs)%list
    /\ Forall source_event evs
    /\ fetches evs = ts
    /\ clock w' = clock w + call_seconds src evs.

(** The batch with index [k] when the batch size is [bs]. *)
Definition batch_at {A} (l : list A) (bs k : nat) : list A := take bs (drop (k * bs) l).

(** A computation that leaves every recorded previous close as it is. *)
Definition keeps_cache {A} (c : M A) : Prop :=
  forall w s v, prev_close_cache w !! s = Some v ->
                prev_close_cache (c w).2 !! s = Some v.

(** The quotes a fetch can return: no change without a price. *)
Definition quote_wf (q : Quote) : Prop := q.1 = None -> q.2 = None.

(** The direction of a change: a rise when it is above zero, a fall when
    it is below zero, and flat when it is zero, absent or not a number. *)
Inductive direction : Type := Rise | Fall | Flat.

Definition direction_of (change : option float) : direction :=
  match change with
  | Some c =>
      match PrimFloat.compare c 0%float with
      | FGt => Rise
      | FLt => Fall
      | FEq | FNotComparable => Flat
      end
  | None => Flat
  end.

(** The opening tag that carries the colour of a direction: red for a
    rise, steel blue for a fall, no colour otherwise. *)
Definition direction_tag (d : direction) : string :=
  match d with
  | Rise => "<span style='color:red; text-align:right; padding-right:10px;'>"
  | Fall => "<span style='color:#4682B4; text-align:right; padding-right:10px;'>"
  | Flat => "<span style='text-align:right; padding-right:10px;'>"
  end.

(** A group of the cycle: the placeholder of its table, its assets, and
    the digits its price column shows. *)
Record group : Type := mkGroup {
  placeholder : string;
  assets_of : list (string * string);
  price_digits : nat
}.

(** The groups in the order in which [update_dashboard] goes through them. *)
Definition cycle_groups : list group :=
  [mkGroup "commodities_table" commodities 2;
   mkGroup "indices_spot_table" indices_spot 2;
   mkGroup "indices_futures_table" indices_futures 2;
   mkGroup "forex_table" forex_pairs 2;
   mkGroup "bonds_table" us_bonds 2;
   mkGroup "crypto_table" crypto 4].

(** The table of a group, from the quotes of its tickers under cache [c]. *)
Definition group_table (src : QuoteSource) (c : gmap string (option float)) (g : group)
    : outcome content :=
  outcome_map (Table "styled-table")
    (formatted_data (price_digits g) (fetched_quote src c <$> values (assets_of g))
       (keys (assets_of g))).

Definition table_events (tables : list content) : list event :=
  zip_with EvMarkdown (placeholder <$> cycle_groups) tables.

Definition update_time_event (env : Environment) : event :=
  EvMarkdown "update_time" (Text ("**데이터 갱신 시각:** " +:+ current_time_kst env)).

(** A small quote source to run the program on: ["AAA"] trades at 50 after
    closing at 40, gold at 110 after closing at 100, the history of crude
    oil (70, no previous close) takes a minute to arrive, natural gas has
    no history, and every other symbol is unknown.  Every other call takes
    a second. *)
Definition sample_source : QuoteSource :=
  mkSource
    (fun t =>
       if String.eqb t "AAA" then Returns [49%float; 50%float]
       else if String.eqb t "GC=F" then Returns [110%float]
       else if String.eqb t "CL=F" then Returns [70%float]
       else if String.eqb t "NG=F" then Returns []
       else Fails (OtherError "No data found, symbol may be delisted"))
    (fun t =>
       if String.eqb t "AAA" then Returns (Some 40%float)
       else if String.eqb t "GC=F" then Returns (Some 100%float)
       else Returns None)
    (fun t => if String.eqb t "CL=F" then 60%N else 1%N)
    (fun _ => 1%N).

Definition sample_group : list (string * string) := [("A", "AAA"); ("B", "BBB")].

Definition sample_env : Environment := mkEnv sample_source "2024-01-02 09:00:00".

(** The world at start-up: empty cache, nothing happened yet. *)
Definition initial_world : World := mkWorld ∅ [] 0.

(** A world with an empty cache in which something has happened. *)
Definition later_world : World := mkWorld ∅ [EvSleep 10] 10.

(** The world after a first fetch of natural gas: the source reports no
    previous close for it, and the cache records just that. *)
Definition world_after_gas : World :=
  (fetch_single_price sample_source "NG=F" 10 initial_world).2.

Definition is_sleep (e : event) : Prop :=
  match e with EvSleep _ => True | _ => False end.

(** The seconds spent sleeping in a run of events. *)
Fixpoint slept (evs : list event) : Z :=
  match evs with
  | [] => 0
  | EvSleep secs :: evs' => secs + slept evs'
  | _ :: evs' => slept evs'
  end.

(** Group-by-group forwarding: the table of a group is handed over before
    any history of the next group is requested. *)
Definition forwarded_before_next_group (tr : list event) : Prop :=
  forall (k : nat) (g g' : group) (i j : nat) (t : string) (c : content),
    cycle_groups !! k = Some g ->
    cycle_groups !! S k = Some g' ->
    t ∈ values (assets_of g') ->
    tr !! i = Some (EvHistory t) ->
    tr !! j = Some (EvMarkdown (placeholder g) c) ->
    (j < i)%nat.

(** A configuration that the engine should not run with. *)
Definition degenerate (assets : list (string * string)) (batch_size : Z) : Prop :=
  assets = [] \/ batch_size <= 0.

(** Events that are no call of the quote source. *)
Definition quiet_event (e : event) : Prop :=
  match e with
  | EvHistory _ | EvInfo _ => False
  | EvPrint _ | EvMarkdown _ _ | EvSleep _ => True
  end.

(** How often the previous close of [t] was looked up. *)
Fixpoint lookups_of (t : string) (evs : list event) : nat :=
  match evs with
  | [] => 0
  | EvInfo t' :: evs' => (if decide (t' = t) then 1 else 0) + lookups_of t evs'
  | _ :: evs' => lookups_of t evs'
  end.

(** How often the history of [t] was requested. *)
Fixpoint requests_of (t : string) (evs : list event) : nat :=
  match evs with
  | [] => 0
  | EvHistory t' :: evs' => (if decide (t' = t) then 1 else 0) + requests_of t evs'
  | _ :: evs' => requests_of t evs'
  end.

(** A computation whose every run takes the world along [R]. *)
Definition within {A} (R : World -> World -> Prop) (c : M A) : Prop :=
  forall w, R w (c w).2.

Definition cache_grows (w w' : World) : Prop :=
  forall s v, prev_close_cache w !! s = Some v -> prev_close_cache w' !! s = Some v.

(** The lookups of the previous close of [t] between [w] and [w']: none
    when [t] was in the cache at [w]; and, where the lookups are known to
    be answered, at most one, after which [t] is in the cache. *)
Definition lookup_policy (answered : Prop) (t : string) (w w' : World) : Prop :=
  cache_grows w w' /\
  exists evs,
    trace w' = (trace w ++ evs)%list
    /\ (is_Some (prev_close_cache w !! t) -> lookups_of t evs = 0%nat)
    /\ (answered ->
        (lookups_of t evs <= 1)%nat
        /\ (lookups_of t evs = 1%nat -> is_Some (prev_close_cache w' !! t))).

(** Between [w] and [w'] a request for the history of [t] leaves [t] in
    the cache. *)
Definition records (t : string) (w w' : World) : Prop :=
  cache_grows w w' /\
  exists evs,
    trace w' = (trace w ++ evs)%list
    /\ ((0 < requests_of t evs)%nat -> is_Some (prev_close_cache w' !! t)).

(** Between [w] and [w'] the symbol [t] gets into the cache only through
    a request for its history that the source [src] answers. *)
Definition enters (src : QuoteSource) (t : string) (w w' : World) : Prop :=
  cache_grows w w' /\
  exists evs,
    trace w' = (trace w ++ evs)%list
    /\ (prev_close_cache w !! t = None ->
        is_Some (prev_close_cache w' !! t) ->
        (0 < requests_of t evs)%nat /\ exists closes, history src t = Returns closes).

(** The cache entry of [t] after the tickers [tickers] were fetched from
    the cache [c]. *)
Definition entry_after (src : QuoteSource) (c : gmap string (option float))
    (tickers : list string) (t : string) : option (option float) :=
  match c !! t with
  | Some x => Some x
  | None =>
      if decide (t ∈ tickers)
      then match history src t, previousClose src t with
           | Returns _, Returns v => Some v
           | _, _ => None
           end
      else None
  end.

(** A source for which every symbol trades at 5 after closing at 0. *)
Definition flat_source : QuoteSource :=
  mkSource (fun _ => Returns [5%float]) (fun _ => Returns (Some 0%float))
    (fun _ => 1%N) (fun _ => 1%N).

(** A source for which every symbol trades at 100 after closing at 3. *)
Definition thirds_source : QuoteSource :=
  mkSource (fun _ => Returns [100%float]) (fun _ => Returns (Some 3%float))
    (fun _ => 1%N) (fun _ => 1%N).

(** The asset and the change cell of a row. *)
Definition asset_and_change (r : Row) : string * string := (row_asset r, row_change r).

(** The rows of a table. *)
Definition table_rows (c : content) : list Row :=
  match c with
  | Table _ rows => rows
  | Text _ => []
  end.

(** The exception of a float format applied to [None]. *)
Definition format_none_error : exn :=
  TypeError "unsupported format string passed to NoneType.__format__".

(** The row of an asset without data. *)
Definition no_data_row (name : string) : Row := mkRow name no_data no_data.

(** What the initial tables put on the page: texts, and tables all of
    whose cells show no data. *)
Definition initial_content (c : content) : Prop :=
  match c with
  | Text _ => True
  | Table _ rows => Forall (fun r => row_price r = no_data /\ row_change r = no_data) rows
  end.

Definition initial_event (e : event) : Prop :=
  match e with
  | EvMarkdown _ c => initial_content c
  | _ => False
  end.

(** The symbols of the catalog, in the order in which a cycle goes
    through the groups. *)
Definition catalog_tickers : list string :=
  concat ((fun g => values (assets_of g)) <$> cycle_groups).

(** How often [t] is listed in [l]. *)
Definition occurrences (t : string) (l : list string) : nat :=
  length (filter (fun x => x = t) l).

(** The dict after the initial rendering, started with the dict [p]. *)
Definition initial_page (p : Page) : Page :=
  new_empty "update_time"
    (new_empty "crypto_table" (new_container "crypto_title"
    (new_empty "bonds_table" (new_container "bonds_title"
    (new_empty "forex_table" (new_container "forex_title"
    (new_empty "indices_futures_table" (new_container "indices_futures_title"
    (new_empty "indices_spot_table" (new_container "indices_spot_title"
    (new_empty "commodities_table" (new_container "commodities_title" p)))))))))))).

(** What one stanza of the initial rendering writes. *)
Definition initial_table_events (title_key title table_key : string)
    (assets : list (string * string)) : list event :=
  [EvMarkdown title_key (Text title);
   EvMarkdown table_key (Table "styled-table" (no_data_row <$> keys assets))].

(** What the initial rendering writes. *)
Definition initial_events : list event :=
  initial_table_events "commodities_title" "## 💰 원자재" "commodities_table" commodities
  ++ initial_table_events "indices_spot_title" "## 📈 주요 지수 (현물)" "indices_spot_table"
       indices_spot
  ++ initial_table_events "indices_futures_title" "## 📉 주요 지수 (선물)"
       "indices_futures_table" indices_futures
  ++ initial_table_events "forex_title" "## 💱 주요 환율" "forex_table" forex_pairs
  ++ initial_table_events "bonds_title" "## 💵 미국 국채" "bonds_table" us_bonds
  ++ initial_table_events "crypto_title" "## 🪙 주요 코인" "crypto_table" crypto
  ++ [EvMarkdown "update_time" (Text "**데이터 갱신 시각:** 데이터 로딩 중...")].

(** The keys that a refresh cycle writes to. *)
Definition cycle_keys : list string := (placeholder <$> cycle_groups) ++ ["update_time"].

(** ** Passes of the loop *)

(** What one pass of the loop leaves in the trace: the calls and messages
    of its fetches and the tables it hands over. *)
Definition pass : Type := list event * list content.

(** The events of pass [k]: the fetches, the tables, the time of the
    update as the environment of the pass gives it, and the sleep. *)
Definition pass_events (feed : nat -> Environment) (k : nat) (p : pass) : list event :=
  (p.1 ++ table_events p.2 ++ [update_time_event (feed k); EvSleep 10])%list.

(** The events of consecutive passes, the first of which is pass [k]. *)
Fixpoint passes_events (feed : nat -> Environment) (k : nat) (passes : list pass) : list event :=
  match passes with
  | [] => []
  | p :: passes' => (pass_events feed k p ++ passes_events feed (S k) passes')%list
  end.

(** A pass that is one whole refresh cycle: the history of every ticker
    of the catalog is requested, in the order of the catalog, and every
    group gets its table. *)
Definition full_cycle (p : pass) : Prop :=
  Forall source_event p.1
  /\ fetches p.1 = catalog_tickers
  /\ length p.2 = length cycle_groups.

(** The seconds that the calls of consecutive passes take. *)
Fixpoint passes_call_seconds (feed : nat -> Environment) (k : nat) (passes : list pass) : Z :=
  match passes with
  | [] => 0
  | p :: passes' =>
      call_seconds (quotes (feed k)) p.1 + passes_call_seconds feed (S k) passes'
  end.

(** ** Chunks *)

(** The seconds that a fetch of [t] spends in the quote source when the
    cache is [c]. *)
Definition fetch_seconds (src : QuoteSource) (c : gmap string (option float)) (t : string) : Z :=
  Z.of_N (history_seconds src t)
  + match history src t, c !! t with
    | Returns _, None => Z.of_N (info_seconds src t)
    | _, _ => 0
    end.



(** ** Cues of a row *)

(** C8 as it is stated, on the marker: a row shows "no data" exactly when
    the price is absent. *)
Definition marker_iff_no_price (q : Quote) (r : Row) : Prop :=
  (row_price r = no_data \/ row_change r = no_data) <-> q.1 = None.

(** ** Writing to the page *)

(** The writes of a cycle to the dict [p], one after the other, and then
    [rest]. *)
Fixpoint write_then (p : Page) (steps : list (string * content)) (rest : M unit) : M unit :=
  match steps with
  | [] => rest
  | (key, c) :: steps' => placeholder_markdown p key (Ok c) ;;; write_then p steps' rest
  end.

(** What the cycle in [env] writes when the tables are [tables]. *)
Definition cycle_steps (env : Environment) (tables : list content) : list (string * content) :=
  (zip (placeholder <$> cycle_groups) tables
   ++ [("update_time", Text ("**데이터 갱신 시각:** " +:+ current_time_kst env))])%list.

Definition written (steps : list (string * content)) : list event :=
  (fun s => EvMarkdown s.1 s.2) <$> steps.

(** ** Seconds *)

(** The seconds that the history requests for [ts] take, one after the
    other. *)
Definition history_seconds_of (src : QuoteSource) (ts : list string) : Z :=
  foldr (fun t acc => Z.of_N (history_seconds src t) + acc) 0 ts.

(** ** Numbers and numerals *)

(** [n] is the integer nearest to the fraction [a / b] (for [0 < b]);
    when [a / b] lies half-way between two integers, [n] is the even one. *)
Definition nearest_even (n a b : Z) : Prop :=
  2 * Z.abs (a - n * b) <= b /\ (2 * Z.abs (a - n * b) = b -> Z.even n = true).

(** [k] is [y] rounded to the nearest integer, half-way cases to the even
    one.  A finite [y] is [m * 2^e], with the sign [s]: for [e < 0] it is
    the fraction [m / 2^(-e)], whose nearest integer [n] is below [2^53]
    and so is a float as it stands; otherwise [y] is an integer already.
    Zeros, infinities and NaN are left as they are. *)
Definition nearest_integer (y k : float) : Prop :=
  match Prim2SF y with
  | S754_finite s m e =>
      if 0 <=? e then k = y
      else exists n,
             nearest_even n (Z.pos m) (2 ^ (- e))
             /\ k = (if s then PrimFloat.opp (PrimFloat.of_uint63 (Uint63.of_Z n))
                      else PrimFloat.of_uint63 (Uint63.of_Z n))
  | _ => k = y
  end.

(** The value of a decimal digit. *)
Definition digit_of (c : ascii) : option Z :=
  let n := Z.of_nat (nat_of_ascii c) - 48 in
  if (0 <=? n) && (n <=? 9) then Some n else None.

(** The integer that a string of digits spells, after the digits [acc]. *)
Fixpoint read_digits (acc : Z) (s : string) : option Z :=
  match s with
  | EmptyString => Some acc
  | String c s' =>
      match digit_of c with
      | Some d => read_digits (10 * acc + d) s'
      | None => None
      end
  end.

(** Reading a numeral with a decimal point, after the digits [acc]: the
    integer that its digits spell when the point is left out, and the
    number of digits after the point. *)
Fixpoint read_fixed_from (acc : Z) (s : string) : option (Z * nat) :=
  match s with
  | EmptyString => Some (acc, 0%nat)
  | String c s' =>
      if Ascii.eqb c "." then
        match read_digits acc s' with
        | Some n => Some (n, String.length s')
        | None => None
        end
      else
        match digit_of c with
        | Some d => read_fixed_from (10 * acc + d) s'
        | None => None
        end
  end.

(** A numeral begins with a digit. *)
Definition read_fixed (s : string) : option (Z * nat) :=
  match s with
  | EmptyString => None
  | String c _ => if Ascii.eqb c "." then None else read_fixed_from 0 s
  end.

(** The text [t] shows the number [x] to [d] decimals: [t] is a numeral
    with [d] digits after the point, with a minus sign in front for a
    negative number, and what it spells is [x * 10^d] rounded to the
    nearest integer, half-way cases to the even one. *)
Definition shows (d : nat) (x : float) (t : string) : Prop :=
  match Prim2SF x with
  | S754_finite s m e =>
      exists n u,
        t = (if s then "-" else "") +:+ u
        /\ read_fixed u = Some (n, d)
        /\ if 0 <=? e then n = Z.pos m * 2 ^ e * 10 ^ Z.of_nat d
           else nearest_even n (Z.pos m * 10 ^ Z.of_nat d) (2 ^ (- e))
  | S754_zero s =>
      exists u, t = (if s then "-" else "") +:+ u /\ read_fixed u = Some (0, d)
  | S754_infinity s => t = if s then "-inf" else "inf"
  | S754_nan => t = "nan"
  end.

(** * Properties *)

(** ** Python numbers, on examples *)

Example format_f_50 : PyFloat.format_f 2 50%float = "50.00".
Proof. vm_compute. reflexivity. Qed.

Example format_f_half_even : PyFloat.format_f 2 0.125%float = "0.12".
Proof. vm_compute. reflexivity. Qed.

Example format_f_negative : PyFloat.format_f 4 (-1234.5625)%float = "-1234.5625".
Proof. vm_compute. reflexivity. Qed.

Example format_f_small : PyFloat.format_f 2 (-0.001953125)%float = "-0.00".
Proof. vm_compute. reflexivity. Qed.

Example round_half_even : PyFloat.round 2.5%float 0 = 2%float.
Proof. vm_compute. reflexivity. Qed.

Example round_two_digits :
  PyFloat.round 3.1328125%float 2 = PrimFloat.div 313%float 100%float.
Proof. vm_compute. reflexivity. Qed.

Example rint_keeps_sign_of_zero :
  Prim2SF (PyFloat.rint (-0)%float) = S754_zero true
  /\ Prim2SF (PyFloat.rint (-0.25)%float) = S754_zero true
  /\ Prim2SF (PyFloat.rint 0.25%float) = S754_zero false.
Proof. vm_compute. auto. Qed.

(** ** The monad *)

Lemma bind_Ok {A B} (c : M A) (k : A -> M B) (w w' : World) (a : A) :
  c w = (Ok a, w') -> bind c k w = k a w'.
Proof. intros H. unfold bind. rewrite H. reflexivity. Qed.

Lemma bind_lift_Ok {A B} (r : outcome A) (k : A -> M B) (w : World) (a : A) :
  r = Ok a -> bind (lift r) k w = k a w.
Proof. intros ->. reflexivity. Qed.

Lemma bind_settle {A B} (c : M A) (k : outcome A -> M B) (w w' : World) (r : outcome A) :
  c w = (r, w') -> bind (settle c) k w = k r w'.
Proof. intros H. unfold bind, settle. rewrite H. reflexivity. Qed.

Lemma world_eq (w1 w2 : World) :
  prev_close_cache w1 = prev_close_cache w2 ->
  trace w1 = trace w2 ->
  clock w1 = clock w2 ->
  w1 = w2.
Proof. destruct w1, w2. cbn. intros -> -> ->. reflexivity. Qed.

Lemma results_of_Ok {A} (l : list A) : results_of (Ok <$> l) = Ok l.
Proof. induction l as [|a l IH]; cbn; [reflexivity|]. rewrite IH. reflexivity. Qed.

(** ** One fetch *)

Lemma price_and_change_eq (closes : list float) (pc : option float) (w : World) :
  price_and_change closes pc w = (Ok (quote_from closes pc), w).
Proof.
  destruct closes as [|x l]; [reflexivity|].
  unfold price_and_change, quote_from, iloc_last, bind, lift, ret.
  destruct (last (x :: l)) as [p|] eqn:E; [reflexivity|].
  apply last_None in E. discriminate.
Qed.

Lemma fetch_data_eq (src : QuoteSource) (ticker : string) (w : World) :
  fetch_data src ticker w = fetch_data_cases src ticker w.
Proof.
  unfold fetch_data, fetch_data_cases, after_info, after_history.
  unfold bind at 1. unfold call_history at 1. unfold respond at 1.
  destruct (history src ticker) as [closes|e]; cbn beta iota; [|reflexivity].
  unfold fill_prev_close, bind, cache_contains, cache_read, call_info, respond.
  cbn beta iota.
  destruct (prev_close_cache w !! ticker) as [pc|] eqn:Hc.
  - rewrite bool_decide_eq_true_2 by (cbn; rewrite Hc; eauto).
    cbn. rewrite Hc, price_and_change_eq. reflexivity.
  - rewrite bool_decide_eq_false_2 by (cbn; rewrite Hc; intros [? ?]; discriminate).
    cbn.
    destruct (previousClose src ticker) as [pc|e]; [|reflexivity].
    cbn. rewrite lookup_insert_eq, price_and_change_eq. reflexivity.
Qed.

Lemma wait_for_positive {A} (c : M A) (timeout : Z) : 0 < timeout -> wait_for c timeout = c.
Proof. intros H. unfold wait_for. rewrite (proj2 (Z.leb_gt timeout 0)) by lia. reflexivity. Qed.

Lemma wait_for_cancelled {A} (c : M A) (timeout : Z) (w : World) :
  timeout <= 0 -> wait_for c timeout w = (Raise TimeoutError, w).
Proof. intros H. unfold wait_for. rewrite (proj2 (Z.leb_le timeout 0)) by lia. reflexivity. Qed.

Lemma fetch_single_price_resume_eq (ticker : string) (r : outcome Quote) (w : World) :
  fetch_single_price_resume ticker r w
  = (Ok (settled_quote r),
     mkWorld (prev_close_cache w) (trace w ++ failure_prints ticker r) (clock w)).
Proof.
  destruct r as [q|e].
  - cbn. rewrite app_nil_r. destruct w; reflexivity.
  - destruct e; reflexivity.
Qed.

Lemma fetch_single_price_resume_Raise (ticker : string) (e : exn) (w : World) :
  fetch_single_price_resume ticker (Raise e) w = abandoned ticker e w.
Proof. destruct e; reflexivity. Qed.

Lemma fetch_single_price_eq (src : QuoteSource) (ticker : string) (timeout : Z) (w : World) :
  0 < timeout ->
  fetch_single_price src ticker timeout w = fetch_single_price_cases src ticker w.
Proof.
  intros Ht. unfold fetch_single_price, await, fetch_single_price_coroutine, task, resume.
  rewrite wait_for_positive by exact Ht. rewrite fetch_data_eq.
  unfold fetch_single_price_cases.
  destruct (fetch_data_cases src ticker w) as [[q|e] w']; [reflexivity|].
  apply fetch_single_price_resume_Raise.
Qed.

Lemma fetch_single_price_cancelled (src : QuoteSource) (ticker : string) (timeout : Z)
    (w : World) :
  timeout <= 0 ->
  fetch_single_price src ticker timeout w = abandoned ticker TimeoutError w.
Proof.
  intros Ht. unfold fetch_single_price, await, fetch_single_price_coroutine, task, resume.
  rewrite wait_for_cancelled by exact Ht. reflexivity.
Qed.

Lemma fetches_app (evs1 evs2 : list event) :
  fetches (evs1 ++ evs2) = (fetches evs1 ++ fetches evs2)%list.
Proof. apply omap_app. Qed.

Lemma call_seconds_app (src : QuoteSource) (evs1 evs2 : list event) :
  call_seconds src (evs1 ++ evs2) = call_seconds src evs1 + call_seconds src evs2.
Proof.
  induction evs1 as [|e evs1 IH]; cbn; [reflexivity|].
  destruct e; rewrite IH; lia.
Qed.

Lemma prints_events (src : QuoteSource) (prints : list event) :
  Forall is_print prints ->
  Forall source_event prints /\ fetches prints = [] /\ call_seconds src prints = 0.
Proof.
  induction 1 as [|e prints [msg ->] _ (IHs & IHf & IHc)]; cbn.
  - repeat split. constructor.
  - repeat split; [constructor; [exact I|exact IHs]|exact IHf|exact IHc].
Qed.

Lemma call_block_events (t : string) (evs : list event) :
  call_block t evs -> Forall source_event evs /\ fetches evs = [t].
Proof. intros [->| ->]; split; repeat constructor. Qed.

Lemma call_blocks_events (ts : list string) (calls : list (list event)) :
  Forall2 call_block ts calls ->
  Forall source_event (concat calls) /\ fetches (concat calls) = ts.
Proof.
  induction 1 as [|t evs ts calls Hb _ [IHs IHf]]; cbn [concat].
  - split; [constructor|reflexivity].
  - destruct (call_block_events t evs Hb) as [Hs Hf]. split.
    + apply Forall_app. split; assumption.
    + rewrite fetches_app, Hf, IHf. reflexivity.
Qed.

Lemma batch_events_events (src : QuoteSource) (batch : list string) (evs : list event) :
  batch_events batch evs ->
  Forall source_event evs /\ fetches evs = batch
  /\ exists calls, Forall2 call_block batch calls
                   /\ call_seconds src evs = call_seconds src (concat calls).
Proof.
  intros (calls & prints & -> & Hc & Hp).
  destruct (call_blocks_events batch calls Hc) as [Hs Hf].
  destruct (prints_events src prints Hp) as (Hs' & Hf' & Hc').
  split; [apply Forall_app; split; assumption|].
  split; [rewrite fetches_app, Hf, Hf', app_nil_r; reflexivity|].
  exists calls. split; [exact Hc|]. rewrite call_seconds_app, Hc'. lia.
Qed.

Lemma batches_events (src : QuoteSource) (batches : list (list string))
    (blocks : list (list event)) :
  Forall2 batch_events batches blocks ->
  Forall source_event (concat blocks) /\ fetches (concat blocks) = concat batches.
Proof.
  induction 1 as [|b evs batches blocks Hb _ [IHs IHf]]; cbn [concat].
  - split; [constructor|reflexivity].
  - destruct (batch_events_events src b evs Hb) as (Hs & Hf & _). split.
    + apply Forall_app. split; assumption.
    + rewrite fetches_app, Hf, IHf. reflexivity.
Qed.

Section Fetching.

Variable src : QuoteSource.

Lemma cache_ext_refl (c : gmap string (option float)) : cache_ext src c c.
Proof. intros t. left. reflexivity. Qed.

Lemma cache_ext_trans (c1 c2 c3 : gmap string (option float)) :
  cache_ext src c1 c2 -> cache_ext src c2 c3 -> cache_ext src c1 c3.
Proof.
  intros H12 H23 t.
  destruct (H12 t) as [E12|(N1 & v & Hv & E2)], (H23 t) as [E23|(N2 & v' & Hv' & E3)].
  - left. congruence.
  - right. split; [congruence|]. eauto.
  - right. split; [assumption|]. exists v. split; [assumption|congruence].
  - congruence.
Qed.

Lemma cache_ext_keeps (c c' : gmap string (option float)) (t : string) (v : option float) :
  cache_ext src c c' -> c !! t = Some v -> c' !! t = Some v.
Proof. intros H Hc. destruct (H t) as [E|(N & _)]; congruence. Qed.

Lemma cache_ext_insert (c : gmap string (option float)) (t : string) (v : option float) :
  c !! t = None -> previousClose src t = Returns v -> cache_ext src c (<[t := v]> c).
Proof.
  intros Hc Hv t'. destruct (decide (t = t')) as [<-|Hne].
  - right. split; [assumption|]. exists v. split; [assumption|apply lookup_insert_eq].
  - left. apply lookup_insert_ne. assumption.
Qed.

Lemma fetch_outcome_ext (c c' : gmap string (option float)) (t : string) :
  cache_ext src c c' -> fetch_outcome src c' t = fetch_outcome src c t.
Proof.
  intros H. unfold fetch_outcome, resolve_prev_close.
  destruct (H t) as [E|(N & v & Hv & E)]; rewrite E; [reflexivity|].
  rewrite N, Hv. reflexivity.
Qed.

Lemma fetched_quote_outcome (c : gmap string (option float)) (t : string) :
  settled_quote (fetch_outcome src c t) = fetched_quote src c t.
Proof.
  unfold fetch_outcome, fetched_quote.
  destruct (history src t); [|reflexivity].
  destruct (resolve_prev_close src c t); reflexivity.
Qed.

Lemma fetched_quote_ext (c c' : gmap string (option float)) (t : string) :
  cache_ext src c c' -> fetched_quote src c' t = fetched_quote src c t.
Proof.
  intros H. rewrite <- !fetched_quote_outcome, (fetch_outcome_ext c c' t H). reflexivity.
Qed.

(** What [fetch_data] does: the outcome that the cache and the source
    determine, the calls for the ticker in the trace and on the clock, and
    at most the previous close of the source added to the cache. *)
Lemma fetch_data_run (t : string) (w : World) :
  exists w' calls,
    fetch_data src t w = (fetch_outcome src (prev_close_cache w) t, w')
    /\ cache_ext src (prev_close_cache w) (prev_close_cache w')
    /\ trace w' = (trace w ++ calls)%list
    /\ call_block t calls
    /\ clock w' = clock w + call_seconds src calls.
Proof.
  rewrite fetch_data_eq.
  unfold fetch_data_cases, fetch_outcome, resolve_prev_close, after_info, after_history.
  destruct (history src t) as [closes|e].
  - destruct (prev_close_cache w !! t) as [pc|] eqn:Hc.
    + eexists _, [EvHistory t]. split; [reflexivity|].
      split; [apply cache_ext_refl|]. split; [reflexivity|]. split; [left; reflexivity|].
      cbn. lia.
    + destruct (previousClose src t) as [pc|e] eqn:Hp.
      * eexists _, [EvHistory t; EvInfo t]. split; [reflexivity|].
        split; [cbn; apply cache_ext_insert; assumption|].
        split; [cbn; rewrite <- app_assoc; reflexivity|]. split; [right; reflexivity|].
        cbn. lia.
      * eexists _, [EvHistory t; EvInfo t]. split; [reflexivity|].
        split; [apply cache_ext_refl|].
        split; [cbn; rewrite <- app_assoc; reflexivity|]. split; [right; reflexivity|].
        cbn. lia.
  - eexists _, [EvHistory t]. split; [reflexivity|].
    split; [apply cache_ext_refl|]. split; [reflexivity|]. split; [left; reflexivity|].
    cbn. lia.
Qed.

(** One awaited fetch with a positive timeout. *)
Lemma fetch_single_price_run (t : string) (timeout : Z) (w : World) :
  0 < timeout ->
  exists w' calls,
    fetch_single_price src t timeout w = (Ok (fetched_quote src (prev_close_cache w) t), w')
    /\ cache_ext src (prev_close_cache w) (prev_close_cache w')
    /\ trace w'
       = (trace w ++ calls ++ failure_prints t (fetch_outcome src (prev_close_cache w) t))%list
    /\ call_block t calls
    /\ clock w' = clock w + call_seconds src calls.
Proof.
  intros Ht.
  destruct (fetch_data_run t w) as (w1 & calls & Hrun & Hext & Htr & Hcb & Hclk).
  unfold fetch_single_price, await, fetch_single_price_coroutine, task, resume.
  rewrite wait_for_positive by exact Ht. rewrite Hrun, fetch_single_price_resume_eq.
  rewrite fetched_quote_outcome.
  eexists _, calls. split; [reflexivity|]. cbn [prev_close_cache trace clock].
  split; [exact Hext|]. split; [rewrite Htr, <- app_assoc; reflexivity|].
  split; assumption.
Qed.

(** The quote of an awaited fetch, whatever the timeout. *)
Lemma fetch_single_price_Ok (t : string) (timeout : Z) (w : World) :
  exists q w', fetch_single_price src t timeout w = (Ok q, w').
Proof.
  destruct (Z.lt_ge_cases 0 timeout) as [Hpos|Hneg].
  - destruct (fetch_single_price_run t timeout w Hpos) as (w' & calls & Hrun & _). eauto.
  - rewrite fetch_single_price_cancelled by lia. unfold abandoned. eauto.
Qed.

End Fetching.

(** ** One batch *)

Section Batches.

Variable src : QuoteSource.

(** The awaited tasks of a batch, one after the other. *)
Lemma run_all_fetch_data (c0 : gmap string (option float)) (batch : list string) (w : World) :
  cache_ext src c0 (prev_close_cache w) ->
  exists w' calls,
    run_all (fetch_data src <$> batch) w = (Ok (fetch_outcome src c0 <$> batch), w')
    /\ cache_ext src (prev_close_cache w) (prev_close_cache w')
    /\ trace w' = (trace w ++ concat calls)%list
    /\ Forall2 call_block batch calls
    /\ clock w' = clock w + call_seconds src (concat calls).
Proof.
  revert w. induction batch as [|t batch IH]; intros w Hc.
  - exists w, []. cbn. rewrite app_nil_r.
    split; [reflexivity|]. split; [apply cache_ext_refl|]. split; [reflexivity|].
    split; [constructor|lia].
  - destruct (fetch_data_run src t w) as (w1 & calls1 & Hrun & Hext & Htr & Hcb & Hclk).
    destruct (IH w1) as (w' & calls & Hrest & Hext' & Htr' & Hcbs & Hclk').
    { eapply cache_ext_trans; eassumption. }
    exists w', (calls1 :: calls). split.
    { cbn [fmap list_fmap run_all]. rewrite (bind_settle _ _ _ _ _ Hrun).
      rewrite (bind_Ok _ _ _ _ _ Hrest). unfold ret. cbn [fmap list_fmap].
      rewrite (fetch_outcome_ext src c0 (prev_close_cache w) t Hc). reflexivity. }
    split; [eapply cache_ext_trans; eassumption|].
    split; [rewrite Htr', Htr; cbn [concat]; rewrite app_assoc; reflexivity|].
    split; [constructor; assumption|].
    cbn [concat]. rewrite call_seconds_app. lia.
Qed.

(** The coroutines of a batch, resumed one after the other. *)
Lemma run_all_resume (batch : list string) (rs : list (outcome Quote)) (w : World) :
  length rs = length batch ->
  exists prints,
    run_all (zip_with resume
               ((fun t => fetch_single_price_coroutine src t default_timeout) <$> batch) rs) w
    = (Ok (Ok <$> (settled_quote <$> rs)),
       mkWorld (prev_close_cache w) (trace w ++ prints) (clock w))
    /\ Forall is_print prints.
Proof.
  revert rs w. induction batch as [|t batch IH]; intros [|r rs] w Hlen; try discriminate.
  - exists []. cbn. rewrite app_nil_r. destruct w. split; [reflexivity|constructor].
  - cbn in Hlen.
    destruct (IH rs (mkWorld (prev_close_cache w) (trace w ++ failure_prints t r) (clock w)))
      as (prints & Hrest & Hp); [lia|].
    exists (failure_prints t r ++ prints)%list. split.
    + cbn [fmap list_fmap zip_with run_all resume fetch_single_price_coroutine].
      rewrite (bind_settle _ _ _ _ _ (fetch_single_price_resume_eq t r w)).
      rewrite (bind_Ok _ _ _ _ _ Hrest). unfold ret. cbn [prev_close_cache trace clock].
      rewrite app_assoc. reflexivity.
    + apply Forall_app. split; [|exact Hp].
      destruct r as [q|e]; cbn; repeat constructor. eexists. reflexivity.
Qed.

(** A batch handed to [gather]: the calls are made ticker after ticker in
    the order of the batch, the messages of the failed fetches follow, and
    the quotes come back in the order of the batch, each the quote that
    its ticker has under the cache [c0]. *)
Lemma gather_fetch (c0 : gmap string (option float)) (batch : list string) (w : World) :
  cache_ext src c0 (prev_close_cache w) ->
  exists w' evs,
    gather ((fun t => fetch_single_price_coroutine src t default_timeout) <$> batch) w
    = (Ok (fetched_quote src c0 <$> batch), w')
    /\ cache_ext src (prev_close_cache w) (prev_close_cache w')
    /\ trace w' = (trace w ++ evs)%list
    /\ batch_events batch evs
    /\ clock w' = clock w + call_seconds src evs.
Proof.
  intros Hc.
  destruct (run_all_fetch_data c0 batch w Hc) as (w1 & calls & Hrun & Hext & Htr & Hcb & Hclk).
  destruct (run_all_resume batch (fetch_outcome src c0 <$> batch) w1) as (prints & Hres & Hp).
  { rewrite length_fmap. reflexivity. }
  eexists _, (concat calls ++ prints)%list. split.
  { unfold gather. rewrite <- list_fmap_compose.
    change (task ∘ (fun t => fetch_single_price_coroutine src t default_timeout))
      with (fetch_data src).
    rewrite (bind_Ok _ _ _ _ _ Hrun), (bind_Ok _ _ _ _ _ Hres).
    unfold lift. rewrite results_of_Ok. rewrite <- list_fmap_compose.
    f_equal. f_equal. apply list_fmap_ext. intros i t _. cbn.
    apply fetched_quote_outcome. }
  cbn [prev_close_cache trace clock].
  split; [exact Hext|]. split; [rewrite Htr, app_assoc; reflexivity|].
  split; [exists calls, prints; auto|].
  rewrite call_seconds_app. destruct (prints_events src prints Hp) as (_ & _ & ->). lia.
Qed.

Lemma only_fetches_same (w w' : World) :
  prev_close_cache w' = prev_close_cache w -> trace w' = trace w -> clock w' = clock w ->
  only_fetches src w w' [].
Proof.
  intros Hc Ht Hk. split; [rewrite Hc; apply cache_ext_refl|].
  exists []. rewrite Ht, Hk. cbn. rewrite app_nil_r. split; [reflexivity|].
  split; [constructor|lia].
Qed.

Lemma only_fetches_trans (w1 w2 w3 : World) (bs bs' : list (list string)) :
  only_fetches src w1 w2 bs -> only_fetches src w2 w3 bs' ->
  only_fetches src w1 w3 (bs ++ bs')%list.
Proof.
  intros (Hc & blocks & Ht & Hb & Hk) (Hc' & blocks' & Ht' & Hb' & Hk').
  split; [eapply cache_ext_trans; eassumption|].
  exists (blocks ++ blocks')%list. split.
  - rewrite Ht', Ht, concat_app, app_assoc. reflexivity.
  - split; [apply Forall2_app; assumption|].
    rewrite concat_app, call_seconds_app. lia.
Qed.

Lemma only_fetches_events (w w' : World) (batches : list (list string)) :
  only_fetches src w w' batches ->
  exists evs,
    trace w' = (trace w ++ evs)%list
    /\ Forall source_event evs
    /\ fetches evs = concat batches
    /\ clock w' = clock w + call_seconds src evs.
Proof.
  intros (_ & blocks & Htr & Hb & Hk). exists (concat blocks).
  destruct (batches_events src batches blocks Hb). auto.
Qed.

End Batches.

(** ** Ranges and slices of the batch loop *)

(** With a positive step, [range(0, n, step)] is [0, step, 2*step, ...],
    as many as it takes to pass [n]. *)
Lemma py_range_batches (n : nat) (bs : Z) :
  0 < bs ->
  exists m : nat,
    py_range 0 (Z.of_nat n) bs = Ok ((fun k : nat => Z.of_nat k * bs) <$> seq 0 m)
    /\ (n <= m * Z.to_nat bs)%nat
    /\ (forall k, (k < m)%nat -> (k * Z.to_nat bs < n)%nat).
Proof.
  intros Hbs. unfold py_range.
  rewrite (proj2 (Z.eqb_neq bs 0)) by lia.
  rewrite (proj2 (Z.ltb_lt 0 bs)) by lia. cbn [andb].
  destruct (Z.ltb_spec 0 (Z.of_nat n)) as [Hn|Hn].
  - set (c := (Z.of_nat n - 0 + bs - 1) / bs).
    assert (bs * c <= Z.of_nat n - 0 + bs - 1 < bs * c + bs) as Hc.
    { unfold c. pose proof (Z.mul_div_le (Z.of_nat n - 0 + bs - 1) bs Hbs).
      pose proof (Z.mul_succ_div_gt (Z.of_nat n - 0 + bs - 1) bs Hbs). lia. }
    assert (0 <= c) as Hc0 by (apply Z.div_pos; lia).
    exists (Z.to_nat c). split; [reflexivity|]. split; [nia|]. intros k Hk. nia.
  - exists 0%nat. split.
    + replace (bs <? 0) with false by (symmetry; apply Z.ltb_ge; lia). reflexivity.
    + split; [lia|]. intros k Hk. lia.
Qed.

Lemma py_slice_batch {A} (l : list A) (k : nat) (bs : Z) :
  0 < bs ->
  py_slice l (Z.of_nat k * bs) (Z.of_nat k * bs + bs) = batch_at l (Z.to_nat bs) k.
Proof.
  intros Hbs. unfold py_slice, clip_index, batch_at.
  rewrite (proj2 (Z.ltb_ge (Z.of_nat k * bs) 0)) by nia.
  rewrite (proj2 (Z.ltb_ge (Z.of_nat k * bs + bs) 0)) by nia.
  destruct (decide (length l <= k * Z.to_nat bs)%nat) as [Hge|Hlt].
  - rewrite (drop_ge l (k * Z.to_nat bs)) by assumption.
    rewrite drop_ge by lia. rewrite !take_nil. reflexivity.
  - replace (Z.to_nat (Z.min (Z.of_nat k * bs) (Z.of_nat (length l))))
      with (k * Z.to_nat bs)%nat by lia.
    destruct (decide (Z.to_nat bs <= length l - k * Z.to_nat bs)%nat) as [Hfull|Hshort].
    + f_equal. lia.
    + rewrite !take_ge; [reflexivity| |]; rewrite length_drop; lia.
Qed.


Lemma batch_at_nonempty {A} (l : list A) (bs k : nat) :
  (0 < bs)%nat -> (k * bs < length l)%nat -> batch_at l bs k <> [].
Proof.
  intros Hbs Hk E. apply (f_equal length) in E. unfold batch_at in E.
  rewrite length_take, length_drop in E. cbn in E. lia.
Qed.

(** The batches, one after the other, are the list. *)
Lemma concat_batches {A} (l : list A) (bs k0 m : nat) :
  concat (batch_at l bs <$> seq k0 m) = take (m * bs) (drop (k0 * bs) l).
Proof.
  revert k0. induction m as [|m IH]; intros k0; cbn [seq fmap list_fmap concat].
  - reflexivity.
  - rewrite IH. unfold batch_at.
    replace (S k0 * bs)%nat with (k0 * bs + bs)%nat by lia.
    rewrite <- drop_drop, take_take_drop. f_equal.
Qed.


(** ** A whole group *)

Section Groups.

Variable src : QuoteSource.

Lemma for_each_batches (c0 : gmap string (option float)) (tickers : list string) (bs : Z)
    (m k0 : nat) (acc : list Quote) (w : World) :
  0 < bs ->
  cache_ext src c0 (prev_close_cache w) ->
  exists w',
    for_each ((fun k : nat => Z.of_nat k * bs) <$> seq k0 m) (fetch_batch src tickers bs) acc w
    = (Ok (acc ++ (fetched_quote src c0 <$> concat (batch_at tickers (Z.to_nat bs) <$> seq k0 m)))%list,
       w')
    /\ only_fetches src w w' (batch_at tickers (Z.to_nat bs) <$> seq k0 m).
Proof.
  intros Hbs. revert k0 acc w.
  induction m as [|m IH]; intros k0 acc w Hc.
  - exists w. cbn. rewrite app_nil_r.
    split; [reflexivity|]. apply only_fetches_same; reflexivity.
  - destruct (gather_fetch src c0 (batch_at tickers (Z.to_nat bs) k0) w Hc)
      as (w1 & evs & Hg & Hext & Htr & Hbe & Hclk).
    destruct (IH (S k0) (acc ++ (fetched_quote src c0 <$> batch_at tickers (Z.to_nat bs) k0))%list w1)
      as (w' & Hrest & Hof').
    { eapply cache_ext_trans; eassumption. }
    exists w'. split.
    { cbn [seq fmap list_fmap for_each]. unfold bind at 1. unfold fetch_batch at 1. cbv zeta.
      unfold bind at 1. rewrite py_slice_batch by assumption.
      rewrite Hg. unfold ret at 1. rewrite Hrest.
      cbn [concat]. rewrite fmap_app, app_assoc. reflexivity. }
    cbn [seq fmap list_fmap].
    apply (only_fetches_trans src w w1 w' [batch_at tickers (Z.to_nat bs) k0]); [|exact Hof'].
    split; [exact Hext|]. exists [evs]. cbn [concat]. rewrite app_nil_r.
    split; [exact Htr|]. split; [repeat constructor; exact Hbe|exact Hclk].
Qed.

(** [fetch_all_prices] with a batch size of at least one: the quotes of
    the tickers in the order of the group; the fetches happen batch by
    batch. *)
Lemma fetch_all_prices_run (assets : list (string * string)) (bs : Z) (w : World) :
  1 <= bs ->
  exists (m : nat) w',
    fetch_all_prices src assets bs w
    = (Ok (fetched_quote src (prev_close_cache w) <$> values assets), w')
    /\ py_range 0 (Z.of_nat (length (values assets))) bs
       = Ok ((fun k : nat => Z.of_nat k * bs) <$> seq 0 m)
    /\ concat (batch_at (values assets) (Z.to_nat bs) <$> seq 0 m) = values assets
    /\ (forall k, (k < m)%nat -> batch_at (values assets) (Z.to_nat bs) k <> [])
    /\ only_fetches src w w' (batch_at (values assets) (Z.to_nat bs) <$> seq 0 m).
Proof.
  intros Hbs.
  destruct (py_range_batches (length (values assets)) bs) as (m & Hrange & Hcover & Hne);
    [lia|].
  destruct (for_each_batches (prev_close_cache w) (values assets) bs m 0 [] w)
    as (w' & Hrun & Hof); [lia|apply cache_ext_refl|].
  assert (concat (batch_at (values assets) (Z.to_nat bs) <$> seq 0 m) = values assets) as Hcat.
  { rewrite concat_batches. cbn. apply take_ge. assumption. }
  exists m, w'. split.
  { unfold fetch_all_prices. unfold bind at 1. unfold lift. rewrite Hrange.
    rewrite Hrun, Hcat. reflexivity. }
  split; [assumption|]. split; [assumption|].
  split; [intros k Hk; apply batch_at_nonempty; [lia|auto]|].
  assumption.
Qed.

End Groups.

Lemma fetch_all_prices_negative (src : QuoteSource) (assets : list (string * string))
    (bs : Z) (w : World) :
  bs < 0 -> fetch_all_prices src assets bs w = (Ok [], w).
Proof.
  intros Hbs. unfold fetch_all_prices, bind, lift, py_range.
  rewrite (proj2 (Z.eqb_neq bs 0)) by lia.
  rewrite (proj2 (Z.ltb_ge 0 bs)) by lia. cbn [andb].
  rewrite (proj2 (Z.ltb_ge (Z.of_nat (length (values assets))) 0)) by lia.
  rewrite andb_false_r. reflexivity.
Qed.

Lemma fetch_all_prices_zero (src : QuoteSource) (assets : list (string * string)) (w : World) :
  fetch_all_prices src assets 0 w = (Raise (ValueError "range() arg 3 must not be zero"), w).
Proof. reflexivity. Qed.

Lemma fetch_all_prices_empty (src : QuoteSource) (bs : Z) (w : World) :
  bs <> 0 -> fetch_all_prices src [] bs w = (Ok [], w).
Proof.
  intros Hbs. destruct bs as [|p|p]; [congruence|reflexivity|reflexivity].
Qed.

(** ** The cache only grows *)

Lemma keeps_ret {A} (a : A) : keeps_cache (ret a).
Proof. intros w s v H. exact H. Qed.

Lemma keeps_lift {A} (r : outcome A) : keeps_cache (lift r).
Proof. intros w s v H. exact H. Qed.

Lemma keeps_bind {A B} (c : M A) (k : A -> M B) :
  keeps_cache c -> (forall a, keeps_cache (k a)) -> keeps_cache (bind c k).
Proof.
  intros Hc Hk w s v H. unfold bind. specialize (Hc w s v H).
  destruct (c w) as [[a|e] w1]; cbn in *; [apply Hk|]; assumption.
Qed.

Lemma keeps_markdown (placeholder : string) (c : content) : keeps_cache (markdown placeholder c).
Proof. intros w s v H. exact H. Qed.

Lemma keeps_sleep (secs : Z) : keeps_cache (sleep secs).
Proof. intros w s v H. exact H. Qed.

Lemma keeps_settle {A} (c : M A) : keeps_cache c -> keeps_cache (settle c).
Proof.
  intros Hc w s v H. specialize (Hc w s v H). unfold settle.
  destruct (c w) as [r w1]. exact Hc.
Qed.

Lemma keeps_run_all {A} (cs : list (M A)) : Forall keeps_cache cs -> keeps_cache (run_all cs).
Proof.
  induction 1 as [|c cs Hc _ IH]; cbn.
  - apply keeps_ret.
  - apply keeps_bind; [apply keeps_settle, Hc|]. intros r.
    apply keeps_bind; [exact IH|]. intros rs. apply keeps_ret.
Qed.

Lemma keeps_gather {A} (cos : list (coroutine A)) :
  Forall (fun co => keeps_cache (task co) /\ forall r, keeps_cache (resume co r)) cos ->
  keeps_cache (gather cos).
Proof.
  intros H. unfold gather.
  apply keeps_bind.
  { apply keeps_run_all, Forall_fmap. eapply Forall_impl; [exact H|]. intros co [Ht _]. exact Ht. }
  intros settled. apply keeps_bind; [|intros finished; apply keeps_lift].
  apply keeps_run_all. clear -H. revert settled.
  induction H as [|co cos [_ Hr] _ IH]; intros [|r rs]; cbn; constructor; auto.
Qed.

Lemma keeps_fetch_data (src : QuoteSource) (t : string) : keeps_cache (fetch_data src t).
Proof.
  intros w s v H. destruct (fetch_data_run src t w) as (w' & calls & -> & Hext & _).
  cbn. eapply cache_ext_keeps; eassumption.
Qed.

Lemma keeps_wait_for {A} (c : M A) (timeout : Z) : keeps_cache c -> keeps_cache (wait_for c timeout).
Proof.
  intros Hc. unfold wait_for. destruct (timeout <=? 0); [|exact Hc].
  intros w s v H. exact H.
Qed.

Lemma keeps_fetch_single_price_resume (t : string) (r : outcome Quote) :
  keeps_cache (fetch_single_price_resume t r).
Proof. intros w s v H. rewrite fetch_single_price_resume_eq. exact H. Qed.

Lemma keeps_fetch_single_price (src : QuoteSource) (t : string) (timeout : Z) :
  keeps_cache (fetch_single_price src t timeout).
Proof.
  intros w s v H. unfold fetch_single_price, await, fetch_single_price_coroutine, task, resume.
  pose proof (keeps_wait_for _ timeout (keeps_fetch_data src t) w s v H) as H1.
  destruct (wait_for (fetch_data src t) timeout w) as [r w1]. cbn in H1.
  apply keeps_fetch_single_price_resume. exact H1.
Qed.

Lemma keeps_for_each {A S} (l : list A) (body : S -> A -> M S) (s : S) :
  (forall s x, keeps_cache (body s x)) -> keeps_cache (for_each l body s).
Proof.
  intros H. revert s. induction l as [|x l IH]; intros s; cbn.
  - apply keeps_ret.
  - apply keeps_bind; [apply H|]. intros s'. apply IH.
Qed.

Lemma keeps_fetch_all_prices (src : QuoteSource) (assets : list (string * string)) (bs : Z) :
  keeps_cache (fetch_all_prices src assets bs).
Proof.
  unfold fetch_all_prices. apply keeps_bind; [apply keeps_lift|]. intros starts.
  apply keeps_for_each. intros results i.
  apply keeps_bind; [|intros fetched; apply keeps_ret].
  apply keeps_gather. apply Forall_fmap, Forall_forall. intros t _. split.
  - apply (keeps_wait_for (fetch_data src t) default_timeout), keeps_fetch_data.
  - apply keeps_fetch_single_price_resume.
Qed.

Lemma keeps_update_dashboard_cycle (env : Environment) : keeps_cache (update_dashboard_cycle env).
Proof.
  unfold update_dashboard_cycle.
  repeat first
    [ apply keeps_sleep
    | apply keeps_markdown
    | apply keeps_lift
    | apply keeps_fetch_all_prices
    | apply keeps_bind; [|intros ?] ].
Qed.

Lemma keeps_update_dashboard (feed : nat -> Environment) (k n : nat) :
  keeps_cache (update_dashboard feed k n).
Proof.
  revert k. induction n as [|n IH]; intros k; cbn.
  - apply keeps_ret.
  - apply keeps_bind; [apply keeps_update_dashboard_cycle|]. intros _. apply IH.
Qed.

(** ** Rounding and numerals *)

Lemma div_half_even_nearest (a b : Z) :
  0 <= a -> 0 < b -> nearest_even (PyFloat.div_half_even a b) a b.
Proof.
  intros Ha Hb. unfold nearest_even, PyFloat.div_half_even.
  pose proof (Z.div_mod a b ltac:(lia)) as Hdm.
  pose proof (Z.mod_pos_bound a b Hb) as Hm.
  destruct (Z.compare_spec (2 * (a mod b)) b) as [E|L|G].
  - destruct (Z.even (a / b)) eqn:Hev.
    + split; [lia|]. intros _. exact Hev.
    + split; [lia|]. intros _. rewrite Z.even_add, Hev. reflexivity.
  - split; lia.
  - split; lia.
Qed.

(** The nearest integer, with ties to even, is determined. *)
Lemma nearest_even_unique (n n' a b : Z) :
  0 < b -> nearest_even n a b -> nearest_even n' a b -> n = n'.
Proof.
  intros Hb [H1 E1] [H2 E2].
  destruct (Z.lt_trichotomy n n') as [L|[E|G]]; [exfalso|exact E|exfalso].
  - assert (n' = n + 1) as -> by nia.
    assert (2 * Z.abs (a - n * b) = b) as T1 by nia.
    assert (2 * Z.abs (a - (n + 1) * b) = b) as T2 by nia.
    specialize (E1 T1). specialize (E2 T2). rewrite Z.even_add, E1 in E2. discriminate.
  - assert (n = n' + 1) as -> by nia.
    assert (2 * Z.abs (a - n' * b) = b) as T1 by nia.
    assert (2 * Z.abs (a - (n' + 1) * b) = b) as T2 by nia.
    specialize (E1 T2). specialize (E2 T1). rewrite Z.even_add, E2 in E1. discriminate.
Qed.

Lemma rint_nearest (y : float) : nearest_integer y (PyFloat.rint y).
Proof.
  unfold nearest_integer, PyFloat.rint.
  destruct (Prim2SF y) as [s|s| |s m e]; try reflexivity.
  destruct (0 <=? e) eqn:He; [reflexivity|].
  exists (PyFloat.div_half_even (Z.pos m) (2 ^ (- e))). split; [|reflexivity].
  apply div_half_even_nearest; [lia|]. apply Z.pow_pos_nonneg; lia.
Qed.

Lemma scaled_nearest (m : positive) (e : Z) (d : nat) :
  if 0 <=? e then PyFloat.scaled m e d = Z.pos m * 2 ^ e * 10 ^ Z.of_nat d
  else nearest_even (PyFloat.scaled m e d) (Z.pos m * 10 ^ Z.of_nat d) (2 ^ (- e)).
Proof.
  unfold PyFloat.scaled. destruct (0 <=? e) eqn:He; [reflexivity|].
  apply div_half_even_nearest; [|apply Z.pow_pos_nonneg; lia].
  apply Z.mul_nonneg_nonneg; [lia|]. apply Z.pow_nonneg. lia.
Qed.

Lemma scaled_nonneg (m : positive) (e : Z) (d : nat) : 0 <= PyFloat.scaled m e d.
Proof.
  unfold PyFloat.scaled, PyFloat.div_half_even. destruct (0 <=? e) eqn:He.
  - apply Z.mul_nonneg_nonneg; [apply Z.mul_nonneg_nonneg; [lia|]|]; apply Z.pow_nonneg; lia.
  - assert (0 <= Z.pos m * 10 ^ Z.of_nat d) as Ha.
    { apply Z.mul_nonneg_nonneg; [lia|]. apply Z.pow_nonneg. lia. }
    assert (0 < 2 ^ (- e)) as Hb by (apply Z.pow_pos_nonneg; lia).
    pose proof (Z.div_pos _ _ Ha Hb).
    destruct (2 * ((Z.pos m * 10 ^ Z.of_nat d) mod 2 ^ (- e)) ?= 2 ^ (- e));
      [destruct (Z.even _)|..]; lia.
Qed.

(** *** Reading a numeral back *)

Lemma read_digits_uint_acc (d : Decimal.uint) (acc : positive) :
  read_digits (Z.pos acc) (NilEmpty.string_of_uint d) = Some (Z.pos (Pos.of_uint_acc d acc)).
Proof.
  revert acc. induction d as [|d IH|d IH|d IH|d IH|d IH|d IH|d IH|d IH|d IH|d IH]; intros acc;
    [reflexivity|..];
    cbn [NilEmpty.string_of_uint read_digits Pos.of_uint_acc];
    match goal with
    | |- context [digit_of ?c] =>
        let v := eval vm_compute in (digit_of c) in change (digit_of c) with v
    end; cbv iota; rewrite <- IH; f_equal; lia.
Qed.

Lemma read_digits_uint_empty (d : Decimal.uint) :
  read_digits 0 (NilEmpty.string_of_uint d) = Some (Z.of_N (Pos.of_uint d)).
Proof.
  induction d as [|d IH|d IH|d IH|d IH|d IH|d IH|d IH|d IH|d IH|d IH];
    [reflexivity|exact IH|..];
    cbn [NilEmpty.string_of_uint read_digits Pos.of_uint];
    match goal with
    | |- context [digit_of ?c] =>
        let v := eval vm_compute in (digit_of c) in change (digit_of c) with v
    end; apply (read_digits_uint_acc d).
Qed.

Lemma read_digits_uint (d : Decimal.uint) :
  read_digits 0 (NilZero.string_of_uint d) = Some (Z.of_N (Pos.of_uint d)).
Proof. destruct d; [reflexivity|apply read_digits_uint_empty..]. Qed.

Lemma read_digits_decimal (z : Z) : 0 <= z -> read_digits 0 (PyFloat.decimal z) = Some z.
Proof.
  intros Hz. unfold PyFloat.decimal. rewrite read_digits_uint.
  change (Pos.of_uint (N.to_uint (Z.to_N z))) with (N.of_uint (N.to_uint (Z.to_N z))).
  rewrite DecimalN.Unsigned.of_to. f_equal. lia.
Qed.

Lemma read_digits_zeros (p : nat) (s : string) :
  read_digits 0 (PyFloat.zeros p +:+ s) = read_digits 0 s.
Proof. induction p as [|p IH]; [reflexivity|exact IH]. Qed.

Lemma read_fixed_from_digits (acc v : Z) (s : string) :
  read_digits acc s = Some v -> read_fixed_from acc s = Some (v, 0%nat).
Proof.
  revert acc. induction s as [|c s IH]; intros acc H; cbn in *; [congruence|].
  destruct (Ascii.eqb_spec c ".") as [->|_]; [discriminate|].
  destruct (digit_of c) as [d|]; [apply IH; exact H|discriminate].
Qed.

Lemma read_fixed_from_point (acc v : Z) (s1 s2 : string) :
  read_digits acc (s1 +:+ s2) = Some v ->
  read_fixed_from acc (s1 +:+ "." +:+ s2) = Some (v, String.length s2).
Proof.
  revert acc. induction s1 as [|c s1 IH]; intros acc H.
  - change (read_digits acc s2 = Some v) in H.
    change (match read_digits acc s2 with
            | Some n => Some (n, String.length s2)
            | None => None
            end = Some (v, String.length s2)).
    rewrite H. reflexivity.
  - change (String c s1 +:+ s2) with (String c (s1 +:+ s2)) in H.
    change (String c s1 +:+ "." +:+ s2) with (String c (s1 +:+ "." +:+ s2)).
    cbn [read_digits read_fixed_from] in *.
    destruct (Ascii.eqb_spec c ".") as [->|_]; [discriminate|].
    destruct (digit_of c) as [d|]; [apply IH; exact H|discriminate].
Qed.

Lemma length_append (s1 s2 : string) :
  String.length (s1 +:+ s2) = (String.length s1 + String.length s2)%nat.
Proof.
  induction s1 as [|c s1 IH]; [reflexivity|].
  change (String c s1 +:+ s2) with (String c (s1 +:+ s2)).
  cbn [String.length]. rewrite IH. reflexivity.
Qed.

Lemma length_zeros (p : nat) : String.length (PyFloat.zeros p) = p.
Proof. induction p as [|p IH]; cbn; [reflexivity|]. rewrite IH. reflexivity. Qed.

Lemma substring_split (s : string) (k n : nat) :
  String.length s = (k + n)%nat ->
  substring 0 k s +:+ substring k n s = s /\ String.length (substring k n s) = n.
Proof.
  revert s. induction k as [|k IH]; intros s H.
  - cbn [Nat.add] in H.
    assert (substring 0 0 s = "") as -> by (destruct s; reflexivity).
    change ("" +:+ substring 0 n s) with (substring 0 n s).
    cut (substring 0 n s = s); [intros ->; auto|].
    revert n H. induction s as [|c s IHs]; intros [|n] H; try discriminate.
    + reflexivity.
    + cbn in H. injection H as H. cbn [substring]. rewrite (IHs n H). reflexivity.
  - destruct s as [|c s]; [discriminate|]. cbn in H. injection H as H.
    destruct (IH s H) as [E L]. cbn [substring].
    change (String c (substring 0 k s) +:+ substring k n s)
      with (String c (substring 0 k s +:+ substring k n s)).
    rewrite E. split; [reflexivity|exact L].
Qed.

Lemma read_digits_head (acc v : Z) (s : string) :
  read_digits acc s = Some v ->
  match s with
  | EmptyString => True
  | String c _ => Ascii.eqb c "." = false
  end.
Proof.
  destruct s as [|c s]; [trivial|]. cbn [read_digits].
  destruct (Ascii.eqb_spec c ".") as [->|_]; [discriminate|reflexivity].
Qed.

Lemma read_fixed_from_head (s : string) (r : Z * nat) :
  (0 < String.length s)%nat ->
  match s with
  | EmptyString => True
  | String c _ => Ascii.eqb c "." = false
  end ->
  read_fixed_from 0 s = Some r ->
  read_fixed s = Some r.
Proof.
  destruct s as [|c s]; cbn [String.length]; [lia|].
  intros _ Hc H. unfold read_fixed. rewrite Hc. exact H.
Qed.

Lemma read_fixed_point (z : Z) (d : nat) :
  0 <= z -> read_fixed (PyFloat.fixed_point z d) = Some (z, d).
Proof.
  intros Hz. unfold PyFloat.fixed_point.
  set (s := PyFloat.zeros (S d - String.length (PyFloat.decimal z)) +:+ PyFloat.decimal z).
  assert (read_digits 0 s = Some z) as Hs.
  { unfold s. rewrite read_digits_zeros. apply read_digits_decimal. exact Hz. }
  assert (S d <= String.length s)%nat as Hlong.
  { unfold s. rewrite length_append, length_zeros. lia. }
  destruct d as [|d].
  { apply read_fixed_from_head; [lia|exact (read_digits_head _ _ _ Hs)|].
    apply read_fixed_from_digits. exact Hs. }
  assert (String.length s = (String.length s - S d + S d)%nat) as Hlen by lia.
  destruct (substring_split s _ _ Hlen) as [E L].
  pose proof (read_digits_head _ _ _ Hs) as Hhead.
  rewrite <- E in Hs.
  pose proof (read_fixed_from_point _ _ _ _ Hs) as Hread. rewrite L in Hread.
  apply read_fixed_from_head; [| |exact Hread].
  - rewrite !length_append. cbn [String.length]. lia.
  - destruct s as [|c s']; [cbn in Hlong; lia|].
    assert (String.length (String c s') - S d = S (String.length s' - S d))%nat as ->
      by (cbn [String.length] in *; lia).
    exact Hhead.
Qed.

(** [format(x, '.Nf')] shows [x] to [N] decimals. *)
Lemma format_f_shows (d : nat) (x : float) : shows d x (PyFloat.format_f d x).
Proof.
  unfold shows, PyFloat.format_f.
  destruct (Prim2SF x) as [s|s| |s m e]; try reflexivity.
  - eexists. split; [reflexivity|]. apply read_fixed_point. lia.
  - eexists _, _. split; [reflexivity|].
    split; [apply read_fixed_point, scaled_nonneg|apply scaled_nearest].
Qed.

(** ** Rendering *)

Lemma quote_from_wf (closes : list float) (pc : option float) : quote_wf (quote_from closes pc).
Proof. unfold quote_from, quote_wf. destruct (last closes); cbn; congruence. Qed.

Lemma fetched_quote_wf (src : QuoteSource) (c : gmap string (option float)) (t : string) :
  quote_wf (fetched_quote src c t).
Proof.
  unfold fetched_quote.
  destruct (history src t); [|intros _; reflexivity].
  destruct (resolve_prev_close src c t); [apply quote_from_wf|intros _; reflexivity].
Qed.

(** The tests of the cells against the direction of the change: [change
    and change > 0] holds for a rise and [change and change < 0] for a
    fall, and for nothing else. *)
Lemma is_rise_direction (change : option float) :
  is_rise change = match direction_of change with Rise => true | _ => false end.
Proof.
  destruct change as [c|]; [|reflexivity].
  unfold is_rise, direction_of, PyFloat.truthy.
  rewrite FloatAxioms.eqb_spec, FloatAxioms.ltb_spec, FloatAxioms.compare_spec.
  change (Prim2SF 0) with (S754_zero false).
  destruct (Prim2SF c) as [s|s| |s m e]; try destruct s; reflexivity.
Qed.

Lemma is_fall_direction (change : option float) :
  is_fall change = match direction_of change with Fall => true | _ => false end.
Proof.
  destruct change as [c|]; [|reflexivity].
  unfold is_fall, direction_of, PyFloat.truthy.
  rewrite FloatAxioms.eqb_spec, FloatAxioms.ltb_spec, FloatAxioms.compare_spec.
  change (Prim2SF 0) with (S754_zero false).
  destruct (Prim2SF c) as [s|s| |s m e]; try destruct s; reflexivity.
Qed.

Lemma direction_tag_inj (d1 d2 : direction) : direction_tag d1 = direction_tag d2 -> d1 = d2.
Proof. destruct d1, d2; intros H; try reflexivity; inversion H. Qed.

Lemma price_cell_Some (digits : nat) (p : float) (change : option float) :
  price_cell digits (Some p) change
  = Ok (direction_tag (direction_of change) +:+ PyFloat.format_f digits p +:+ span_end).
Proof.
  unfold price_cell. rewrite is_rise_direction, is_fall_direction.
  destruct (direction_of change); reflexivity.
Qed.

Lemma price_cell_None (digits : nat) : price_cell digits None None = Ok no_data.
Proof. reflexivity. Qed.

Lemma tagged_not_no_data (d : direction) (s : string) : direction_tag d +:+ s <> no_data.
Proof. destruct d; intros H; inversion H. Qed.

Lemma change_cell_Flat (change : option float) :
  direction_of change = Flat -> change_cell change = Ok no_data.
Proof.
  unfold change_cell. rewrite is_rise_direction, is_fall_direction. intros ->. reflexivity.
Qed.

Lemma change_cell_moved (c : float) :
  direction_of (Some c) <> Flat ->
  change_cell (Some c)
  = Ok (direction_tag (direction_of (Some c)) +:+ PyFloat.format_f 2 c +:+ "%" +:+ span_end).
Proof.
  unfold change_cell. rewrite is_rise_direction, is_fall_direction.
  destruct (direction_of (Some c)); [reflexivity|reflexivity|congruence].
Qed.

Lemma change_cell_Ok (change : option float) : exists s, change_cell change = Ok s.
Proof.
  unfold change_cell. rewrite is_rise_direction, is_fall_direction.
  destruct change as [c|]; [|cbn; eauto].
  destruct (direction_of (Some c)); cbn; eauto.
Qed.

Lemma format_row_wf (digits : nat) (name : string) (q : Quote) :
  quote_wf q -> exists r, format_row digits (name, q) = Ok r.
Proof.
  destruct q as [price change]. intros Hwf. unfold format_row.
  destruct (change_cell_Ok change) as [c Hc].
  destruct price as [p|].
  - rewrite price_cell_Some. cbn. rewrite Hc. cbn. eauto.
  - specialize (Hwf eq_refl). cbn in Hwf. subst change. cbn. eauto.
Qed.

Lemma comprehension_Ok {A B} (f : A -> outcome B) (l : list A) :
  Forall (fun x => exists y, f x = Ok y) l ->
  exists ys, comprehension f l = Ok ys /\ Forall2 (fun x y => f x = Ok y) l ys.
Proof.
  induction 1 as [|x l [y Hy] _ (ys & Hys & Hall)]; cbn.
  - exists []. split; [reflexivity|constructor].
  - exists (y :: ys). rewrite Hy, Hys. cbn. split; [reflexivity|].
    constructor; assumption.
Qed.

Lemma formatted_data_wf (digits : nat) (data : list Quote) (asset_names : list string) :
  Forall quote_wf data ->
  exists rows, formatted_data digits data asset_names = Ok rows
               /\ Forall2 (fun entry row => format_row digits entry = Ok row)
                          (zip asset_names data) rows.
Proof.
  intros Hwf. apply comprehension_Ok.
  apply Forall_forall. intros [name q] Hin.
  apply format_row_wf. rewrite Forall_forall in Hwf. apply Hwf.
  apply elem_of_zip_r in Hin. exact Hin.
Qed.

Lemma create_dataframe_wf (data : list Quote) (asset_names : list string) :
  Forall quote_wf data -> exists t, create_dataframe data asset_names = Ok t.
Proof.
  intros Hwf. destruct (formatted_data_wf 2 data asset_names Hwf) as (rows & E & _).
  unfold create_dataframe. rewrite E. cbn. eauto.
Qed.

Lemma create_crypto_dataframe_wf (data : list Quote) (asset_names : list string) :
  Forall quote_wf data -> exists t, create_crypto_dataframe data asset_names = Ok t.
Proof.
  intros Hwf. destruct (formatted_data_wf 4 data asset_names Hwf) as (rows & E & _).
  unfold create_crypto_dataframe. rewrite E. cbn. eauto.
Qed.

Lemma fetch_all_prices_wf (src : QuoteSource) (assets : list (string * string)) (bs : Z)
    (w w' : World) (results : list Quote) :
  fetch_all_prices src assets bs w = (Ok results, w') -> Forall quote_wf results.
Proof.
  intros Hrun.
  destruct (Z.lt_trichotomy bs 0) as [Hneg|[->|Hpos]].
  - rewrite fetch_all_prices_negative in Hrun by exact Hneg.
    inversion Hrun; subst. constructor.
  - rewrite fetch_all_prices_zero in Hrun. discriminate.
  - destruct (fetch_all_prices_run src assets bs w) as (m & w1 & Hrun' & _); [lia|].
    rewrite Hrun' in Hrun. inversion Hrun; subst.
    apply Forall_fmap, Forall_forall. intros t _. apply fetched_quote_wf.
Qed.

(** ** One refresh cycle *)

Lemma group_table_Ok (src : QuoteSource) (c : gmap string (option float)) (g : group) :
  exists t, group_table src c g = Ok t.
Proof.
  unfold group_table.
  destruct (formatted_data_wf (price_digits g) (fetched_quote src c <$> values (assets_of g))
              (keys (assets_of g))) as (rows & -> & _).
  - apply Forall_fmap, Forall_forall. intros t _. apply fetched_quote_wf.
  - cbn. eauto.
Qed.

Lemma fetched_quotes_ext (src : QuoteSource) (c c' : gmap string (option float))
    (ts : list string) :
  cache_ext src c c' -> fetched_quote src c' <$> ts = fetched_quote src c <$> ts.
Proof. intros H. apply list_fmap_ext. intros i t _. apply fetched_quote_ext. exact H. Qed.

(** What a run of fetches, group after group, leaves behind: the cache
    grown, the calls and messages in the trace, the tickers requested in
    the order [ts], and the seconds of the calls on the clock. *)
Lemma fetched_same (src : QuoteSource) (w : World) : fetched src w w [].
Proof.
  split; [apply cache_ext_refl|]. exists []. rewrite app_nil_r.
  split; [reflexivity|]. split; [constructor|]. split; [reflexivity|cbn; lia].
Qed.

Lemma fetched_trans (src : QuoteSource) (w1 w2 w3 : World) (ts ts' : list string) :
  fetched src w1 w2 ts -> fetched src w2 w3 ts' -> fetched src w1 w3 (ts ++ ts')%list.
Proof.
  intros (Hc & evs & Ht & Hs & Hf & Hk) (Hc' & evs' & Ht' & Hs' & Hf' & Hk').
  split; [eapply cache_ext_trans; eassumption|].
  exists (evs ++ evs')%list. split; [rewrite Ht', Ht, app_assoc; reflexivity|].
  split; [apply Forall_app; split; assumption|].
  split; [rewrite fetches_app, Hf, Hf'; reflexivity|].
  rewrite call_seconds_app. lia.
Qed.

(** A group fetched with the default batch size, from a world whose cache
    extends [c0]. *)
Lemma fetch_all_prices_group (src : QuoteSource) (c0 : gmap string (option float))
    (assets : list (string * string)) (w : World) :
  cache_ext src c0 (prev_close_cache w) ->
  exists w',
    fetch_all_prices src assets default_batch_size w
    = (Ok (fetched_quote src c0 <$> values assets), w')
    /\ fetched src w w' (values assets).
Proof.
  intros Hc.
  destruct (fetch_all_prices_run src assets default_batch_size w)
    as (m & w' & Hrun & _ & Hcat & _ & Hof); [unfold default_batch_size; lia|].
  exists w'. split.
  - rewrite Hrun. f_equal. f_equal. apply fetched_quotes_ext. exact Hc.
  - split; [apply Hof|].
    destruct (only_fetches_events src _ _ _ Hof) as (evs & Htr & Hs & Hf & Hk).
    exists evs. rewrite Hcat in Hf. auto.
Qed.

(** The six group fetches at the head of a cycle, whatever comes next. *)
Lemma cycle_fetch_phase {B} (env : Environment) (w : World)
    (k : list Quote -> list Quote -> list Quote -> list Quote -> list Quote -> list Quote
         -> M B) :
  exists w6,
    (commodity_prices <- fetch_all_prices (quotes env) commodities default_batch_size ;;
     indices_spot_prices <- fetch_all_prices (quotes env) indices_spot default_batch_size ;;
     indices_futures_prices <- fetch_all_prices (quotes env) indices_futures default_batch_size ;;
     forex_rates <- fetch_all_prices (quotes env) forex_pairs default_batch_size ;;
     bond_prices <- fetch_all_prices (quotes env) us_bonds default_batch_size ;;
     crypto_prices <- fetch_all_prices (quotes env) crypto default_batch_size ;;
     k commodity_prices indices_spot_prices indices_futures_prices forex_rates bond_prices
       crypto_prices) w
    = k (fetched_quote (quotes env) (prev_close_cache w) <$> values commodities)
        (fetched_quote (quotes env) (prev_close_cache w) <$> values indices_spot)
        (fetched_quote (quotes env) (prev_close_cache w) <$> values indices_futures)
        (fetched_quote (quotes env) (prev_close_cache w) <$> values forex_pairs)
        (fetched_quote (quotes env) (prev_close_cache w) <$> values us_bonds)
        (fetched_quote (quotes env) (prev_close_cache w) <$> values crypto) w6
    /\ fetched (quotes env) w w6 catalog_tickers.
Proof.
  set (src := quotes env). set (c0 := prev_close_cache w).
  destruct (fetch_all_prices_group src c0 commodities w) as (w1 & H1 & F1);
    [apply cache_ext_refl|].
  destruct (fetch_all_prices_group src c0 indices_spot w1 (proj1 F1)) as (w2 & H2 & F2).
  pose proof (fetched_trans src _ _ _ _ _ F1 F2) as G2.
  destruct (fetch_all_prices_group src c0 indices_futures w2 (proj1 G2)) as (w3 & H3 & F3).
  pose proof (fetched_trans src _ _ _ _ _ G2 F3) as G3.
  destruct (fetch_all_prices_group src c0 forex_pairs w3 (proj1 G3)) as (w4 & H4 & F4).
  pose proof (fetched_trans src _ _ _ _ _ G3 F4) as G4.
  destruct (fetch_all_prices_group src c0 us_bonds w4 (proj1 G4)) as (w5 & H5 & F5).
  pose proof (fetched_trans src _ _ _ _ _ G4 F5) as G5.
  destruct (fetch_all_prices_group src c0 crypto w5 (proj1 G5)) as (w6 & H6 & F6).
  pose proof (fetched_trans src _ _ _ _ _ G5 F6) as G6.
  exists w6. split.
  - rewrite (bind_Ok _ _ _ _ _ H1), (bind_Ok _ _ _ _ _ H2), (bind_Ok _ _ _ _ _ H3),
      (bind_Ok _ _ _ _ _ H4), (bind_Ok _ _ _ _ _ H5), (bind_Ok _ _ _ _ _ H6).
    reflexivity.
  - unfold catalog_tickers. cbn [cycle_groups fmap list_fmap assets_of concat].
    rewrite app_nil_r, !app_assoc. exact G6.
Qed.

(** One pass through the body of the loop. *)
Lemma update_dashboard_cycle_run (env : Environment) (w : World) :
  exists tables evs w',
    update_dashboard_cycle env w = (Ok tt, w')
    /\ trace w' = (trace w ++ evs ++ table_events tables
                   ++ [update_time_event env; EvSleep 10])%list
    /\ Forall source_event evs
    /\ fetches evs = catalog_tickers
    /\ Forall2 (fun t g => group_table (quotes env) (prev_close_cache w) g = Ok t)
               tables cycle_groups
    /\ cache_ext (quotes env) (prev_close_cache w) (prev_close_cache w')
    /\ clock w' = clock w + call_seconds (quotes env) evs + 10.
Proof.
  set (src := quotes env). set (c0 := prev_close_cache w).
  destruct (cycle_fetch_phase env w
              (fun q1 q2 q3 q4 q5 q6 =>
                 t1 <- lift (create_dataframe q1 (keys commodities)) ;;
                 markdown "commodities_table" t1 ;;;
                 t2 <- lift (create_dataframe q2 (keys indices_spot)) ;;
                 markdown "indices_spot_table" t2 ;;;
                 t3 <- lift (create_dataframe q3 (keys indices_futures)) ;;
                 markdown "indices_futures_table" t3 ;;;
                 t4 <- lift (create_dataframe q4 (keys forex_pairs)) ;;
                 markdown "forex_table" t4 ;;;
                 t5 <- lift (create_dataframe q5 (keys us_bonds)) ;;
                 markdown "bonds_table" t5 ;;;
                 t6 <- lift (create_crypto_dataframe q6 (keys crypto)) ;;
                 markdown "crypto_table" t6 ;;;
                 markdown "update_time"
                   (Text ("**데이터 갱신 시각:** " +:+ current_time_kst env)) ;;;
                 sleep 10))
    as (w6 & Hrun & Hc & evs & Htr & Hsrc & Hf & Hk).
  destruct (group_table_Ok src c0 (mkGroup "commodities_table" commodities 2)) as [t1 T1].
  destruct (group_table_Ok src c0 (mkGroup "indices_spot_table" indices_spot 2)) as [t2 T2].
  destruct (group_table_Ok src c0 (mkGroup "indices_futures_table" indices_futures 2))
    as [t3 T3].
  destruct (group_table_Ok src c0 (mkGroup "forex_table" forex_pairs 2)) as [t4 T4].
  destruct (group_table_Ok src c0 (mkGroup "bonds_table" us_bonds 2)) as [t5 T5].
  destruct (group_table_Ok src c0 (mkGroup "crypto_table" crypto 4)) as [t6 T6].
  exists [t1; t2; t3; t4; t5; t6], evs.
  eexists. split.
  { unfold update_dashboard_cycle. rewrite Hrun. fold src c0.
    rewrite (bind_lift_Ok _ _ _ _ T1). unfold bind at 1, markdown at 1.
    rewrite (bind_lift_Ok _ _ _ _ T2). unfold bind at 1, markdown at 1.
    rewrite (bind_lift_Ok _ _ _ _ T3). unfold bind at 1, markdown at 1.
    rewrite (bind_lift_Ok _ _ _ _ T4). unfold bind at 1, markdown at 1.
    rewrite (bind_lift_Ok _ _ _ _ T5). unfold bind at 1, markdown at 1.
    rewrite (bind_lift_Ok _ _ _ _ T6). unfold bind at 1, markdown at 1.
    reflexivity. }
  split.
  { cbn [trace log elapse]. rewrite Htr. unfold table_events, update_time_event.
    cbn [cycle_groups fmap list_fmap placeholder zip_with].
    rewrite <- !app_assoc. reflexivity. }
  split; [exact Hsrc|]. split; [exact Hf|].
  split; [repeat constructor; assumption|].
  split; [exact Hc|].
  cbn [clock log elapse]. rewrite Hk. subst src. lia.
Qed.

(** [n] passes of the loop. *)
Lemma update_dashboard_Ok (feed : nat -> Environment) (n k : nat) (w : World) :
  exists w', update_dashboard feed k n w = (Ok tt, w').
Proof.
  revert k w. induction n as [|n IH]; intros k w; [exists w; reflexivity|].
  destruct (update_dashboard_cycle_run (feed k) w) as (tables & evs & w1 & Hrun & _).
  destruct (IH (S k) w1) as (w' & Hrest).
  exists w'. cbn. rewrite (bind_Ok _ _ _ _ _ Hrun). exact Hrest.
Qed.

(** * The claims *)

Example sample_group_quotes :
  (fetch_all_prices sample_source sample_group 5 initial_world).1
  = Ok [(Some 50%float, Some 25%float); (None, None)].
Proof. vm_compute. reflexivity. Qed.

Example sample_group_events :
  trace (fetch_all_prices sample_source sample_group 5 initial_world).2
  = [EvHistory "AAA"; EvInfo "AAA"; EvHistory "BBB";
     EvPrint "Error fetching data for BBB: No data found, symbol may be delisted"].
Proof. vm_compute. reflexivity. Qed.

(** C1: for every group and every batch size of at least one,
    [fetch_all_prices] returns as many quotes as the group has symbols, and
    the quote at index [i] is the one that fetching the symbol at index [i]
    produces, at the start of the call as well as in every state that the
    fetches of the group can have brought about.  [gather] hands the
    results back in the order of its arguments, and a fetch returns the
    same quote wherever in the call it is made: the order in which the
    fetches of a batch finish has no part in the result. *)
Theorem fetch_all_prices_preserves_order (src : QuoteSource)
    (assets : list (string * string)) (batch_size : Z) (w : World) :
  1 <= batch_size ->
  exists results w',
    fetch_all_prices src assets batch_size w = (Ok results, w')
    /\ length results = length assets
    /\ forall i name ticker,
         assets !! i = Some (name, ticker) ->
         exists q,
           results !! i = Some q
           /\ (fetch_single_price src ticker default_timeout w).1 = Ok q
           /\ forall w'',
                cache_ext src (prev_close_cache w) (prev_close_cache w'') ->
                (fetch_single_price src ticker default_timeout w'').1 = Ok q.
Proof.
  intros Hbs.
  destruct (fetch_all_prices_run src assets batch_size w Hbs)
    as (m & w' & Hrun & _).
  exists (fetched_quote src (prev_close_cache w) <$> values assets), w'.
  split; [exact Hrun|]. split; [unfold values; rewrite !length_fmap; reflexivity|].
  intros i name ticker Hi.
  exists (fetched_quote src (prev_close_cache w) ticker).
  split.
  { unfold values. rewrite !list_lookup_fmap, Hi. reflexivity. }
  assert (forall w'', cache_ext src (prev_close_cache w) (prev_close_cache w'') ->
            (fetch_single_price src ticker default_timeout w'').1
            = Ok (fetched_quote src (prev_close_cache w) ticker)) as Hany.
  { intros w'' Hext.
    destruct (fetch_single_price_run src ticker default_timeout w'')
      as (w3 & calls & -> & _); [unfold default_timeout; lia|].
    cbn. f_equal. apply fetched_quote_ext. exact Hext. }
  split; [apply Hany, cache_ext_refl|exact Hany].
Qed.

Lemma fetch_all_prices_preserves_order_witness :
  1 <= 5 /\
  exists results w',
    fetch_all_prices sample_source sample_group 5 initial_world = (Ok results, w')
    /\ length results = length sample_group
    /\ forall i name ticker,
         sample_group !! i = Some (name, ticker) ->
         exists q,
           results !! i = Some q
           /\ (fetch_single_price sample_source ticker default_timeout initial_world).1 = Ok q
           /\ forall w'',
                cache_ext sample_source (prev_close_cache initial_world) (prev_close_cache w'') ->
                (fetch_single_price sample_source ticker default_timeout w'').1 = Ok q.
Proof.
  split; [lia|].
  apply (fetch_all_prices_preserves_order sample_source sample_group 5 initial_world). lia.
Defined.

Example change_percent_up : change_percent 110%float (Some 100%float) = Some 10%float.
Proof. vm_compute. reflexivity. Qed.

Example change_percent_down : change_percent 95%float (Some 100%float) = Some (-5)%float.
Proof. vm_compute. reflexivity. Qed.

(** 100 against 3 is a rise of 3233.333... percent, which is rounded to
    3233.33, the binary64 quotient of 323333 and 100. *)
Example change_percent_rounded :
  change_percent 100%float (Some 3%float) = Some (PrimFloat.div 323333%float 100%float).
Proof. vm_compute. reflexivity. Qed.

(** A price equal to a negative previous close: the change is the
    negative zero, as the code has it. *)
Example change_percent_negative_zero :
  option_map Prim2SF (change_percent (-5)%float (Some (-5)%float)) = Some (S754_zero true).
Proof. vm_compute. reflexivity. Qed.

(** C2: when the history gives a current price and the previous close held
    in the cache for the symbol is a non-zero number, the change is
    [round(((price - prev_close) / prev_close) * 100, 2)]: the percentage
    is scaled by 100, rounded to the nearest integer [k] (half-way cases
    to the even one), and [k / 100] is returned.  So 110 against 100 gives
    10.00, 95 against 100 gives -5.00, and 100 against 3 gives 3233.33.
    When the previous close is recorded as absent, the change is absent
    although the price is there. *)
Theorem change_percent_from_previous_close (src : QuoteSource) (ticker : string)
    (timeout : Z) (w : World) (closes : list float) (price : float) :
  0 < timeout ->
  history src ticker = Returns closes ->
  last closes = Some price ->
  (forall pc,
     prev_close_cache (fetch_single_price src ticker timeout w).2 !! ticker = Some (Some pc) ->
     PrimFloat.eqb pc 0%float = false ->
     exists k,
       (fetch_single_price src ticker timeout w).1
       = Ok (Some price, Some (PrimFloat.div k 100%float))
       /\ nearest_integer
            (PrimFloat.mul
               (PrimFloat.mul (PrimFloat.div (PrimFloat.sub price pc) pc) 100%float)
               100%float)
            k)
  /\ (prev_close_cache (fetch_single_price src ticker timeout w).2 !! ticker = Some None ->
      (fetch_single_price src ticker timeout w).1 = Ok (Some price, None))
  /\ change_percent 110%float (Some 100%float) = Some 10%float
  /\ change_percent 95%float (Some 100%float) = Some (-5)%float
  /\ change_percent 100%float (Some 3%float) = Some (PrimFloat.div 323333%float 100%float)
  /\ (forall p, change_percent p None = None).
Proof.
  intros Ht Hh Hl.
  assert (forall pc, quote_from closes pc = (Some price, change_percent price pc)) as Hq.
  { intros pc. unfold quote_from. rewrite Hl. reflexivity. }
  assert (forall pc, PrimFloat.eqb pc 0%float = false ->
            exists k,
              change_percent price (Some pc) = Some (PrimFloat.div k 100%float)
              /\ nearest_integer
                   (PrimFloat.mul
                      (PrimFloat.mul (PrimFloat.div (PrimFloat.sub price pc) pc) 100%float)
                      100%float)
                   k) as Hround.
  { intros pc Hnz. eexists. split; [|apply rint_nearest].
    unfold change_percent, PyFloat.truthy. rewrite Hnz. reflexivity. }
  rewrite fetch_single_price_eq by exact Ht.
  unfold fetch_single_price_cases, fetch_data_cases, abandoned. rewrite Hh.
  split; [|split; [|split; [exact change_percent_up|split; [exact change_percent_down|
    split; [exact change_percent_rounded|reflexivity]]]]].
  - intros pc Hc Hnz. destruct (Hround pc Hnz) as (k & Hk & Hnear).
    exists k. split; [|exact Hnear].
    destruct (prev_close_cache w !! ticker) as [pc0|] eqn:E.
    + cbn in Hc. rewrite E in Hc. inversion Hc; subst pc0. cbn. rewrite Hq, Hk. reflexivity.
    + destruct (previousClose src ticker) as [pc0|e]; cbn in Hc.
      * rewrite lookup_insert_eq in Hc. inversion Hc; subst pc0. cbn. rewrite Hq, Hk.
        reflexivity.
      * congruence.
  - intros Hc.
    destruct (prev_close_cache w !! ticker) as [pc0|] eqn:E.
    + cbn in Hc. rewrite E in Hc. inversion Hc; subst pc0. cbn. rewrite Hq. reflexivity.
    + destruct (previousClose src ticker) as [pc0|e]; cbn in Hc.
      * rewrite lookup_insert_eq in Hc. inversion Hc; subst pc0. cbn. rewrite Hq. reflexivity.
      * congruence.
Qed.

Lemma change_percent_from_previous_close_witness :
  (0 < 10 /\ history thirds_source "AAA" = Returns [100%float]
   /\ last [100%float] = Some 100%float) /\
  (forall pc,
     prev_close_cache (fetch_single_price thirds_source "AAA" 10 initial_world).2 !! "AAA"
     = Some (Some pc) ->
     PrimFloat.eqb pc 0%float = false ->
     exists k,
       (fetch_single_price thirds_source "AAA" 10 initial_world).1
       = Ok (Some 100%float, Some (PrimFloat.div k 100%float))
       /\ nearest_integer
            (PrimFloat.mul
               (PrimFloat.mul (PrimFloat.div (PrimFloat.sub 100%float pc) pc) 100%float)
               100%float)
            k)
  /\ (prev_close_cache (fetch_single_price thirds_source "AAA" 10 initial_world).2 !! "AAA"
      = Some None ->
      (fetch_single_price thirds_source "AAA" 10 initial_world).1 = Ok (Some 100%float, None))
  /\ change_percent 110%float (Some 100%float) = Some 10%float
  /\ change_percent 95%float (Some 100%float) = Some (-5)%float
  /\ change_percent 100%float (Some 3%float) = Some (PrimFloat.div 323333%float 100%float)
  /\ (forall p, change_percent p None = None).
Proof.
  split; [split; [lia|split; reflexivity]|].
  apply (change_percent_from_previous_close thirds_source "AAA" 10 initial_world
           [100%float] 100%float); [lia|reflexivity|reflexivity].
Defined.

Example sample_gold_quote :
  (fetch_single_price sample_source "GC=F" 10 initial_world).1
  = Ok (Some 110%float, Some 10%float).
Proof. vm_compute. reflexivity. Qed.

Example thirds_quote :
  (fetch_single_price thirds_source "AAA" 10 initial_world).1
  = Ok (Some 100%float, Some (PrimFloat.div 323333%float 100%float)).
Proof. vm_compute. reflexivity. Qed.

(** C3: the previous-close cache only grows.  An entry that is recorded
    (the explicit "absent" included) survives every fetch, every group
    fetch and every sequence of refresh cycles, whatever the quote source
    answers; filling the cache for a symbol that has an entry changes
    nothing, so that after a first value and then a second one were offered
    for a symbol, reading the cache still gives the first. *)
Theorem prev_close_cache_monotonic (w : World) (s : string) (v : option float) :
  prev_close_cache w !! s = Some v ->
  (forall src t timeout,
     prev_close_cache (fetch_single_price src t timeout w).2 !! s = Some v)
  /\ (forall src assets batch_size,
        prev_close_cache (fetch_all_prices src assets batch_size w).2 !! s = Some v)
  /\ (forall feed n, prev_close_cache (main feed n w).2 !! s = Some v)
  /\ (forall src, fill_prev_close src s w = (Ok tt, w))
  /\ (forall src1 src2 t v1 v2 w0,
        prev_close_cache w0 !! t = None ->
        previousClose src1 t = Returns v1 ->
        previousClose src2 t = Returns v2 ->
        let w1 := (fill_prev_close src1 t w0).2 in
        let w2 := (fill_prev_close src2 t w1).2 in
        prev_close_cache w1 !! t = Some v1
        /\ prev_close_cache w2 = prev_close_cache w1
        /\ (cache_read t w2).1 = Ok v1).
Proof.
  intros Hs.
  split; [intros src t timeout; apply keeps_fetch_single_price; exact Hs|].
  split; [intros src assets bs; apply keeps_fetch_all_prices; exact Hs|].
  split; [intros feed n; apply keeps_update_dashboard; exact Hs|].
  split.
  { intros src. unfold fill_prev_close, bind, cache_contains.
    rewrite bool_decide_eq_true_2 by (rewrite Hs; eauto). reflexivity. }
  intros src1 src2 t v1 v2 w0 Hnone H1 H2.
  set (w0' := elapse (Z.of_N (info_seconds src1 t)) (log (EvInfo t) w0)).
  assert ((fill_prev_close src1 t w0).2
          = set_cache (<[t := v1]> (prev_close_cache w0)) w0') as E1.
  { unfold fill_prev_close, bind, cache_contains, call_info, respond.
    rewrite bool_decide_eq_false_2 by (rewrite Hnone; intros [? ?]; discriminate).
    cbn. rewrite H1. reflexivity. }
  cbn zeta. rewrite E1.
  assert (fill_prev_close src2 t (set_cache (<[t := v1]> (prev_close_cache w0)) w0')
          = (Ok tt, set_cache (<[t := v1]> (prev_close_cache w0)) w0')) as E2.
  { unfold fill_prev_close, bind, cache_contains.
    rewrite bool_decide_eq_true_2 by (cbn; rewrite lookup_insert_eq; eauto). reflexivity. }
  rewrite E2. cbn. split; [apply lookup_insert_eq|]. split; [reflexivity|].
  unfold cache_read. cbn. rewrite lookup_insert_eq. reflexivity.
Qed.

Lemma prev_close_cache_monotonic_witness :
  prev_close_cache world_after_gas !! "NG=F" = Some None /\
  ((forall src t timeout,
      prev_close_cache (fetch_single_price src t timeout world_after_gas).2 !! "NG=F"
      = Some None)
   /\ (forall src assets batch_size,
         prev_close_cache (fetch_all_prices src assets batch_size world_after_gas).2 !! "NG=F"
         = Some None)
   /\ (forall feed n, prev_close_cache (main feed n world_after_gas).2 !! "NG=F" = Some None)
   /\ (forall src, fill_prev_close src "NG=F" world_after_gas = (Ok tt, world_after_gas))
   /\ (forall src1 src2 t v1 v2 w0,
         prev_close_cache w0 !! t = None ->
         previousClose src1 t = Returns v1 ->
         previousClose src2 t = Returns v2 ->
         let w1 := (fill_prev_close src1 t w0).2 in
         let w2 := (fill_prev_close src2 t w1).2 in
         prev_close_cache w1 !! t = Some v1
         /\ prev_close_cache w2 = prev_close_cache w1
         /\ (cache_read t w2).1 = Ok v1)).
Proof.
  assert (prev_close_cache world_after_gas !! "NG=F" = Some None) as H
    by (vm_compute; reflexivity).
  split; [exact H|].
  exact (prev_close_cache_monotonic world_after_gas "NG=F" None H).
Defined.

(** ** Errors and the timeout *)

Example sample_unknown_symbol :
  fetch_single_price sample_source "BBB" 10 initial_world
  = (Ok (None, None),
     mkWorld ∅ [EvHistory "BBB";
                EvPrint "Error fetching data for BBB: No data found, symbol may be delisted"] 1).
Proof. vm_compute. reflexivity. Qed.

(** The history of crude oil arrives after a minute, six times the
    timeout, and is taken as it is. *)
Example sample_late_answer :
  fetch_single_price sample_source "CL=F" 10 initial_world
  = (Ok (Some 70%float, None),
     mkWorld {["CL=F" := None]} [EvHistory "CL=F"; EvInfo "CL=F"] 61).
Proof. vm_compute. reflexivity. Qed.

Example sample_no_time_at_all :
  fetch_single_price sample_source "GC=F" 0 initial_world
  = (Ok (None, None), mkWorld ∅ [EvPrint "Timeout fetching data for GC=F"] 0).
Proof. vm_compute. reflexivity. Qed.

(** C4: what holds of the claim, and where the code misses it.  No
    exception leaves [fetch_single_price]: it always ends with a quote, and
    with [(None, None)] when the quote source raised.  But the timeout does
    not bound the calls.  With a positive timeout a call that returns is
    never cut off, however long it took: the quote is made of its answer,
    and the clock has gone on by the seconds of the calls, which nothing
    keeps below the timeout.  In the sample, the history of crude oil takes
    60 seconds under a timeout of 10, and the fetch returns the price 61
    seconds after it began.  Only a timeout of zero or less yields the
    timeout message, and then without any call made. *)
Theorem fetch_single_price_misses_timeout (src : QuoteSource) (ticker : string)
    (timeout : Z) (w : World) :
  (exists q w', fetch_single_price src ticker timeout w = (Ok q, w'))
  /\ (0 < timeout ->
      forall e,
        history src ticker = Fails e
        \/ (prev_close_cache w !! ticker = None
            /\ (exists closes, history src ticker = Returns closes)
            /\ previousClose src ticker = Fails e) ->
        exists w',
          fetch_single_price src ticker timeout w = (Ok (None, None), w')
          /\ last (trace w') = Some (EvPrint (failure_message ticker e)))
  /\ (0 < timeout ->
      forall closes pc,
        history src ticker = Returns closes ->
        resolve_prev_close src (prev_close_cache w) ticker = Returns pc ->
        (fetch_single_price src ticker timeout w).1 = Ok (quote_from closes pc)
        /\ clock (fetch_single_price src ticker timeout w).2
           = clock w + fetch_seconds src (prev_close_cache w) ticker)
  /\ (timeout <= 0 ->
      fetch_single_price src ticker timeout w
      = (Ok (None, None), log (EvPrint ("Timeout fetching data for " +:+ ticker)) w))
  /\ (history sample_source "CL=F" = Returns [70%float]
      /\ history_seconds sample_source "CL=F" = 60%N
      /\ fetch_single_price sample_source "CL=F" 10 initial_world
         = (Ok (Some 70%float, None),
            mkWorld {["CL=F" := None]} [EvHistory "CL=F"; EvInfo "CL=F"] 61)).
Proof.
  split; [apply fetch_single_price_Ok|].
  split.
  { intros Ht e Hfail. rewrite fetch_single_price_eq by exact Ht.
    unfold fetch_single_price_cases, fetch_data_cases, abandoned.
    destruct Hfail as [Hh|(Hc & [closes Hh] & Hp)].
    - rewrite Hh. eexists. split; [reflexivity|]. cbn. apply last_snoc.
    - rewrite Hh, Hc, Hp. eexists. split; [reflexivity|]. cbn. apply last_snoc. }
  split.
  { intros Ht closes pc Hh Hp. rewrite fetch_single_price_eq by exact Ht.
    unfold fetch_single_price_cases, fetch_data_cases, fetch_seconds.
    unfold resolve_prev_close in Hp. rewrite Hh.
    destruct (prev_close_cache w !! ticker) as [pc0|] eqn:Hc.
    - inversion Hp; subst pc0. cbn. split; [reflexivity|lia].
    - rewrite Hp. cbn. split; [reflexivity|lia]. }
  split.
  { intros Ht. apply fetch_single_price_cancelled. exact Ht. }
  split; [reflexivity|]. split; [reflexivity|]. exact sample_late_answer.
Qed.

(** ** Order of fetching and rendering in a cycle *)

(** C5, as stated, fails: in a cycle of the sample environment the table
    of the commodities is handed over (event 78) only after the history of
    the first spot index was requested (event 18). *)
Lemma cycle_not_forwarded_group_by_group :
  ~ forwarded_before_next_group (trace (update_dashboard_cycle sample_env initial_world).2).
Proof.
  intros H.
  assert (trace (update_dashboard_cycle sample_env initial_world).2 !! 18%nat
          = Some (EvHistory "^IXIC")) as E1 by (vm_compute; reflexivity).
  assert (exists c, trace (update_dashboard_cycle sample_env initial_world).2 !! 78%nat
                    = Some (EvMarkdown "commodities_table" c)) as [c E2]
    by (vm_compute; eexists; reflexivity).
  assert ("^IXIC" ∈ values indices_spot) as Hin by (cbn; left).
  pose proof (H 0%nat (mkGroup "commodities_table" commodities 2)
                (mkGroup "indices_spot_table" indices_spot 2)
                18%nat 78%nat "^IXIC" c eq_refl eq_refl Hin E1 E2) as Hlt.
  lia.
Qed.

Lemma table_events_no_history (tables : list content) (env : Environment) :
  Forall (fun e => forall t, e <> EvHistory t)
         (table_events tables ++ [update_time_event env; EvSleep 10]).
Proof.
  apply Forall_app. split; [|repeat constructor; discriminate].
  unfold table_events. generalize (placeholder <$> cycle_groups). intros phs.
  revert tables.
  induction phs as [|ph phs IH]; intros [|t tables]; cbn; constructor;
    try discriminate; auto.
Qed.

(** C5, amended: a refresh cycle first fetches the six groups one after
    the other, each group's tickers in some order of its own, and only
    when the last group has been fetched hands the six tables to their
    placeholders, in the order of the groups; then it shows the time and
    sleeps.  So every table of the cycle is handed over after every
    history request of the cycle.  The table of a group is made of the
    quotes of its tickers. *)
Theorem update_dashboard_cycle_fetches_then_renders (env : Environment) (w : World) :
  exists orders tables evs w',
    update_dashboard_cycle env w = (Ok tt, w')
    /\ trace w' = (trace w ++ evs ++ table_events tables
                   ++ [update_time_event env; EvSleep 10])%list
    /\ Forall source_event evs
    /\ fetches evs = concat orders
    /\ Forall2 (fun order g => order ≡ₚ values (assets_of g)) orders cycle_groups
    /\ Forall2 (fun t g => group_table (quotes env) (prev_close_cache w) g = Ok t)
               tables cycle_groups
    /\ (forall (i j : nat) (t ph : string) (c : content),
          (evs ++ table_events tables ++ [update_time_event env; EvSleep 10])%list !! i
          = Some (EvHistory t) ->
          (evs ++ table_events tables ++ [update_time_event env; EvSleep 10])%list !! j
          = Some (EvMarkdown ph c) ->
          (i < j)%nat).
Proof.
  destruct (update_dashboard_cycle_run env w)
    as (tables & evs & w' & Hrun & Htr & Hsrc & Hf & Htab & _).
  exists ((fun g => values (assets_of g)) <$> cycle_groups), tables, evs, w'.
  split; [exact Hrun|]. split; [exact Htr|]. split; [exact Hsrc|]. split; [exact Hf|].
  split.
  { unfold cycle_groups. cbn [fmap list_fmap].
    repeat (constructor; [reflexivity|]). constructor. }
  split; [exact Htab|].
  intros i j t ph c Hi Hj.
  assert (i < length evs)%nat as Hlt.
  { destruct (decide (i < length evs)%nat) as [|Hge]; [assumption|exfalso].
    rewrite lookup_app_r in Hi by lia.
    pose proof (Forall_lookup_1 _ _ _ _ (table_events_no_history tables env) Hi) as Hno.
    exact (Hno t eq_refl). }
  assert (length evs <= j)%nat as Hge.
  { destruct (decide (length evs <= j)%nat) as [|Hlt']; [assumption|exfalso].
    rewrite lookup_app_l in Hj by lia.
    exact (Forall_lookup_1 _ _ _ _ Hsrc Hj). }
  lia.
Qed.

(** ** Sleeping between cycles *)

Lemma source_event_not_sleep (e : event) : source_event e -> ~ is_sleep e.
Proof. destruct e; cbn; tauto. Qed.

Lemma table_events_not_sleep (tables : list content) :
  Forall (fun e => ~ is_sleep e) (table_events tables).
Proof.
  unfold table_events. generalize (placeholder <$> cycle_groups). intros phs.
  revert tables. induction phs as [|ph phs IH]; intros [|t tables]; cbn; constructor; auto.
Qed.

Lemma slept_app (evs1 evs2 : list event) : slept (evs1 ++ evs2)%list = slept evs1 + slept evs2.
Proof.
  induction evs1 as [|e evs1 IH]; cbn; [reflexivity|].
  destruct e; rewrite IH; lia.
Qed.

Lemma slept_no_sleep (evs : list event) : Forall (fun e => ~ is_sleep e) evs -> slept evs = 0.
Proof.
  induction 1 as [|e evs He _ IH]; cbn; [reflexivity|].
  destruct e; cbn in He; tauto.
Qed.

Lemma slept_pass (feed : nat -> Environment) (k : nat) (p : pass) :
  full_cycle p -> slept (pass_events feed k p) = 10.
Proof.
  intros (Hsrc & _). unfold pass_events. rewrite !slept_app.
  rewrite (slept_no_sleep p.1), (slept_no_sleep (table_events p.2)).
  - reflexivity.
  - apply table_events_not_sleep.
  - eapply Forall_impl; [exact Hsrc|]. apply source_event_not_sleep.
Qed.

Lemma slept_passes (feed : nat -> Environment) (k : nat) (passes : list pass) :
  Forall full_cycle passes ->
  slept (passes_events feed k passes) = 10 * Z.of_nat (length passes).
Proof.
  intros H. revert k. induction H as [|p passes Hp _ IH]; intros k; [reflexivity|].
  cbn [passes_events length]. rewrite slept_app, (slept_pass feed k p Hp), IH. lia.
Qed.

(** [n] passes of the loop, from pass [k] on: every pass is a whole
    refresh cycle that ends in the sleep. *)
Lemma update_dashboard_run (feed : nat -> Environment) (n k : nat) (w : World) :
  exists passes w',
    update_dashboard feed k n w = (Ok tt, w')
    /\ length passes = n
    /\ trace w' = (trace w ++ passes_events feed k passes)%list
    /\ Forall full_cycle passes
    /\ clock w' = clock w + passes_call_seconds feed k passes + 10 * Z.of_nat n.
Proof.
  revert k w. induction n as [|n IH]; intros k w.
  - exists [], w. cbn. rewrite app_nil_r. repeat split; [constructor|lia].
  - destruct (update_dashboard_cycle_run (feed k) w)
      as (tables & evs & w1 & Hrun & Htr & Hsrc & Hf & Htab & _ & Hclk).
    destruct (IH (S k) w1) as (passes & w' & Hrest & Hlen & Htr' & Hfull & Hclk').
    exists ((evs, tables) :: passes), w'.
    split; [cbn; rewrite (bind_Ok _ _ _ _ _ Hrun); exact Hrest|].
    split; [cbn; congruence|].
    split.
    { rewrite Htr', Htr. cbn [passes_events]. unfold pass_events. cbn [fst snd].
      rewrite <- !app_assoc. reflexivity. }
    split.
    { constructor; [|exact Hfull]. split; [exact Hsrc|]. split; [exact Hf|].
      cbn [snd]. apply Forall2_length in Htab. exact Htab. }
    cbn [passes_call_seconds fst]. lia.
Qed.

(** C9: every pass of the loop is one whole refresh cycle (all the
    tickers of the catalog fetched, the six tables and the time of the
    update handed over) followed at once by one [sleep] of ten seconds,
    after which the next pass begins with its fetches.  The constant is
    the same in every cycle and for every environment, and no pass sleeps
    otherwise: beyond the seconds that the calls to the quote source take,
    the clock goes on by exactly ten seconds per cycle. *)
Theorem sleep_ten_seconds_between_cycles (feed : nat -> Environment) (n : nat) (w : World) :
  exists passes w',
    main feed n w = (Ok tt, w')
    /\ length passes = n
    /\ trace w' = (trace w ++ passes_events feed 0 passes)%list
    /\ Forall full_cycle passes
    /\ clock w' = clock w + passes_call_seconds feed 0 passes + 10 * Z.of_nat n
    /\ slept (trace w') = slept (trace w) + 10 * Z.of_nat n.
Proof.
  destruct (update_dashboard_run feed n 0 w)
    as (passes & w' & Hrun & Hlen & Htr & Hfull & Hclk).
  exists passes, w'. repeat (split; [assumption|]).
  rewrite Htr, slept_app, (slept_passes feed 0 passes Hfull), Hlen. reflexivity.
Qed.

Example two_cycles_sleep_twenty :
  slept (trace (main (fun _ => sample_env) 2 initial_world).2) = 20.
Proof. vm_compute. reflexivity. Qed.

(** A source that answers every call within a second: two cycles take the
    39 history calls and the 39 previous-close lookups of the first cycle,
    the 39 history calls of the second, and twenty seconds of sleep. *)
Example two_quick_cycles :
  clock (main (fun _ => mkEnv flat_source "2024-01-02 09:00:00") 2 initial_world).2
  = 78 + 39 + 20.
Proof. vm_compute. reflexivity. Qed.

(** ** Degenerate batch sizes *)

(** C6, as stated, fails: nothing checks the configuration.  With the
    commodities and a batch size of -1, [fetch_all_prices] neither raises
    nor fetches; it returns the empty list. *)
Lemma degenerate_batch_size_not_refused :
  degenerate commodities (-1)
  /\ fetch_all_prices sample_source commodities (-1) initial_world = (Ok [], initial_world).
Proof. split; [right; lia|reflexivity]. Qed.

(** C6, amended: the engine does not validate its configuration.  The
    configuration it ships with is not degenerate (six non-empty groups,
    batch size 5, timeout 10, a sleep of 10 at the end of every cycle), and
    with it every number of refresh cycles runs without an exception.  Of the degenerate inputs of
    [fetch_all_prices] only the batch size 0 ends in an error (the
    [ValueError] of [range], in the first call); an empty group or a
    negative batch size is accepted and gives the empty list. *)
Theorem configuration_is_not_validated :
  (default_batch_size = 5 /\ default_timeout = 10
   /\ Forall (fun g => assets_of g <> []) cycle_groups
   /\ forall env w, last (trace (update_dashboard_cycle env w).2) = Some (EvSleep 10))
  /\ (forall feed n w, exists w', main feed n w = (Ok tt, w'))
  /\ (forall src assets w,
        fetch_all_prices src assets 0 w
        = (Raise (ValueError "range() arg 3 must not be zero"), w))
  /\ (forall src assets bs w, bs < 0 -> fetch_all_prices src assets bs w = (Ok [], w))
  /\ (forall src bs w, bs <> 0 -> fetch_all_prices src [] bs w = (Ok [], w)).
Proof.
  split.
  { split; [reflexivity|]. split; [reflexivity|].
    split; [repeat constructor; discriminate|].
    intros env w.
    destruct (update_dashboard_cycle_run env w) as (tables & evs & w' & Hrun & Htr & _).
    rewrite Hrun. cbn [snd]. rewrite Htr, !app_assoc.
    change [update_time_event env; EvSleep 10]
      with ([update_time_event env] ++ [EvSleep 10])%list.
    rewrite app_assoc. apply last_snoc. }
  split.
  { intros feed n w. apply update_dashboard_Ok. }
  split; [exact fetch_all_prices_zero|].
  split; [exact fetch_all_prices_negative|exact fetch_all_prices_empty].
Qed.

(** C10: for a non-empty group, a negative batch size makes
    [fetch_all_prices] return the empty list, with no fetch attempted (the
    world is left as it was) and no error raised; so below a batch size of
    one the result never has the length of the group. *)
Theorem negative_batch_size_returns_empty (src : QuoteSource)
    (assets : list (string * string)) (batch_size : Z) (w : World) :
  assets <> [] ->
  batch_size < 0 ->
  fetch_all_prices src assets batch_size w = (Ok [], w)
  /\ length ([] : list Quote) <> length assets
  /\ (forall bs results w',
        bs < 1 ->
        fetch_all_prices src assets bs w = (Ok results, w') ->
        length results <> length assets).
Proof.
  intros Hne Hbs.
  assert (length ([] : list Quote) <> length assets) as Hlen.
  { destruct assets; [congruence|cbn; lia]. }
  split; [apply fetch_all_prices_negative; exact Hbs|]. split; [exact Hlen|].
  intros bs results w' Hlt Hrun.
  destruct (decide (bs = 0)) as [->|Hnz].
  - rewrite fetch_all_prices_zero in Hrun. discriminate.
  - rewrite fetch_all_prices_negative in Hrun by lia. inversion Hrun; subst. exact Hlen.
Qed.

Lemma negative_batch_size_returns_empty_witness :
  (sample_group <> [] /\ -2 < 0) /\
  fetch_all_prices sample_source sample_group (-2) initial_world = (Ok [], initial_world)
  /\ length ([] : list Quote) <> length sample_group
  /\ (forall bs results w',
        bs < 1 ->
        fetch_all_prices sample_source sample_group bs initial_world = (Ok results, w') ->
        length results <> length sample_group).
Proof.
  split; [split; [discriminate|lia]|].
  apply (negative_batch_size_returns_empty sample_source sample_group (-2) initial_world);
    [discriminate|lia].
Defined.

(** ** Batches *)

Example commodities_batches :
  (fun i => py_slice (values commodities) i (i + 5)) <$> [0; 5]
  = [["GC=F"; "CL=F"; "NG=F"; "SI=F"; "HG=F"]; ["PL=F"; "ZC=F"; "ZS=F"; "ZW=F"]].
Proof. reflexivity. Qed.

(** The first batch of the commodities: the calls ticker after ticker,
    then the messages of the two fetches that failed. *)
Example commodities_first_batch :
  trace (fetch_all_prices sample_source (take 5 commodities) 5 initial_world).2
  = [EvHistory "GC=F"; EvInfo "GC=F"; EvHistory "CL=F"; EvInfo "CL=F";
     EvHistory "NG=F"; EvInfo "NG=F"; EvHistory "SI=F"; EvHistory "HG=F";
     EvPrint "Error fetching data for SI=F: No data found, symbol may be delisted";
     EvPrint "Error fetching data for HG=F: No data found, symbol may be delisted"].
Proof. vm_compute. reflexivity. Qed.



Example commodities_in_two_batches :
  exists blocks,
    trace (fetch_all_prices sample_source commodities 5 initial_world).2 = concat blocks
    /\ Forall2 batch_events
         [["GC=F"; "CL=F"; "NG=F"; "SI=F"; "HG=F"]; ["PL=F"; "ZC=F"; "ZS=F"; "ZW=F"]] blocks.
Proof.
  destruct (fetch_all_prices_run sample_source commodities 5 initial_world ltac:(lia))
    as (m & w' & Hrun & Hrange & _ & _ & _ & blocks & Htr & Hb & _).
  assert (m = 2%nat) as ->.
  { cbv in Hrange. destruct m as [|[|[|m]]]; cbn in Hrange; first
      [reflexivity | discriminate Hrange | exfalso; inversion Hrange]. }
  rewrite Hrun. exists blocks. split; [exact Htr|exact Hb].
Qed.

(** ** The cues of a table *)

Example sample_table :
  create_dataframe [(Some 50%float, Some 25%float); (None, None)] ["A"; "B"]
  = Ok (Table "styled-table"
          [mkRow "A"
             "<span style='color:red; text-align:right; padding-right:10px;'>50.00</span>"
             "<span style='color:red; text-align:right; padding-right:10px;'>25.00%</span>";
           mkRow "B" no_data no_data]).
Proof. vm_compute. reflexivity. Qed.

Example sample_unchanged_row :
  create_dataframe [(Some 50%float, Some 0%float)] ["A"]
  = Ok (Table "styled-table"
          [mkRow "A" "<span style='text-align:right; padding-right:10px;'>50.00</span>"
             no_data]).
Proof. vm_compute. reflexivity. Qed.

Example sample_row_without_change :
  create_dataframe [(Some 50%float, None)] ["A"]
  = Ok (Table "styled-table"
          [mkRow "A" "<span style='text-align:right; padding-right:10px;'>50.00</span>"
             no_data]).
Proof. vm_compute. reflexivity. Qed.

(** C8, as stated, fails: the marker is not shown exactly when the price
    is absent.  A quote with the price 50 and no change (the previous
    close is not known) is rendered with its price and with "no data" in
    the change column; and so is a quote with the price 50 and the change
    0. *)
Lemma price_shown_beside_no_data :
  exists r,
    create_dataframe [(Some 50%float, None)] ["A"] = Ok (Table "styled-table" [r])
    /\ create_dataframe [(Some 50%float, Some 0%float)] ["A"] = Ok (Table "styled-table" [r])
    /\ ~ marker_iff_no_price (Some 50%float, None) r
    /\ ~ marker_iff_no_price (Some 50%float, Some 0%float) r.
Proof.
  eexists. split; [exact sample_row_without_change|].
  split; [exact sample_unchanged_row|].
  split; intros [H _]; specialize (H (or_intror eq_refl)); discriminate.
Qed.

(** C8, amended: every row of a rendered table shows its own asset only.
    When the price is there, the price cell shows the price to the digits
    of the table, inside a tag whose colour tells a rise of the change
    (red), a fall (#4682B4) and neither (no colour) apart; the price cell
    is the "no data" marker exactly when the price is absent.  The change
    cell shows the change to two decimals in the colour of its direction,
    and it is the "no data" marker exactly when the change is neither a
    rise nor a fall: absent, zero or not a number, also with the price
    there.  The rows come from the quotes one by one, so a quote without
    data leaves the other rows as they are.  The quotes in question are
    those without a change when the price is missing, which is all that
    [fetch_all_prices] ever returns. *)
Theorem create_dataframe_cues (digits : nat) (data : list Quote) (asset_names : list string) :
  Forall quote_wf data ->
  exists rows,
    formatted_data digits data asset_names = Ok rows
    /\ (digits = 2%nat -> create_dataframe data asset_names = Ok (Table "styled-table" rows))
    /\ (digits = 4%nat ->
        create_crypto_dataframe data asset_names = Ok (Table "styled-table" rows))
    /\ length rows = (length asset_names `min` length data)%nat
    /\ (forall i name price change,
          asset_names !! i = Some name ->
          data !! i = Some (price, change) ->
          exists r,
            rows !! i = Some r
            /\ format_row digits (name, (price, change)) = Ok r
            /\ row_asset r = name
            /\ (row_price r = no_data <-> price = None)
            /\ (forall p, price = Some p ->
                  exists t,
                    shows digits p t
                    /\ row_price r = direction_tag (direction_of change) +:+ t +:+ "</span>")
            /\ (row_change r = no_data <-> direction_of change = Flat)
            /\ (forall c, change = Some c -> direction_of change <> Flat ->
                  exists t,
                    shows 2 c t
                    /\ row_change r
                       = direction_tag (direction_of change) +:+ t +:+ "%" +:+ "</span>"))
    /\ (forall d1 d2, direction_tag d1 = direction_tag d2 -> d1 = d2)
    /\ (direction_of (Some 25%float) = Rise
        /\ direction_of (Some (-5)%float) = Fall
        /\ direction_of (Some 0%float) = Flat
        /\ direction_of None = Flat)
    /\ (forall src assets bs w results w',
          fetch_all_prices src assets bs w = (Ok results, w') -> Forall quote_wf results).
Proof.
  intros Hwf.
  destruct (formatted_data_wf digits data asset_names Hwf) as (rows & Hrows & Hall).
  exists rows. split; [exact Hrows|].
  split; [intros ->; unfold create_dataframe; rewrite Hrows; reflexivity|].
  split; [intros ->; unfold create_crypto_dataframe; rewrite Hrows; reflexivity|].
  split.
  { apply Forall2_length in Hall. rewrite <- Hall. apply length_zip_with. }
  split.
  { intros i name price change Hname Hdata.
    assert (zip asset_names data !! i = Some (name, (price, change))) as Hzip.
    { apply lookup_zip_with_Some. eauto. }
    destruct (Forall2_lookup_l _ _ _ _ _ Hall Hzip) as (r & Hr & Hfmt).
    exists r. split; [exact Hr|]. split; [exact Hfmt|].
    assert (quote_wf (price, change)) as Hq.
    { rewrite Forall_forall in Hwf. apply Hwf. eapply list_elem_of_lookup_2. exact Hdata. }
    assert (row_change r = no_data <-> direction_of change = Flat) as Hmark.
    { unfold format_row in Hfmt.
      destruct (price_cell digits price change) as [pc|e]; [|discriminate]. cbn in Hfmt.
      destruct (direction_of change) eqn:Hd.
      - destruct change as [c|]; [|discriminate].
        rewrite change_cell_moved in Hfmt by congruence. cbn in Hfmt.
        inversion Hfmt; subst r. cbn.
        split; [intros E; apply tagged_not_no_data in E; contradiction|discriminate].
      - destruct change as [c|]; [|discriminate].
        rewrite change_cell_moved in Hfmt by congruence. cbn in Hfmt.
        inversion Hfmt; subst r. cbn.
        split; [intros E; apply tagged_not_no_data in E; contradiction|discriminate].
      - rewrite (change_cell_Flat change Hd) in Hfmt. cbn in Hfmt.
        inversion Hfmt; subst r. cbn. tauto. }
    unfold format_row in Hfmt.
    destruct (change_cell_Ok change) as [c Hc]. rewrite Hc in Hfmt.
    destruct price as [p|].
    - rewrite price_cell_Some in Hfmt. cbn in Hfmt. inversion Hfmt; subst r. cbn.
      split; [reflexivity|]. split.
      { split; [intros E; apply tagged_not_no_data in E; contradiction|discriminate]. }
      split.
      { intros p' Hp. inversion Hp; subst p'. exists (PyFloat.format_f digits p).
        split; [apply format_f_shows|reflexivity]. }
      split; [exact Hmark|].
      intros c' -> Hmoved. rewrite (change_cell_moved c' Hmoved) in Hc.
      exists (PyFloat.format_f 2 c'). split; [apply format_f_shows|].
      inversion Hc. reflexivity.
    - specialize (Hq eq_refl). cbn in Hq. subst change.
      cbn in Hc. inversion Hc; subst c.
      cbn in Hfmt. inversion Hfmt; subst r. cbn.
      split; [reflexivity|]. split; [tauto|]. split; [discriminate|].
      split; [tauto|discriminate]. }
  split; [exact direction_tag_inj|].
  split; [repeat split; vm_compute; reflexivity|].
  intros src assets bs w results w'. apply fetch_all_prices_wf.
Qed.

Lemma create_dataframe_cues_witness :
  Forall quote_wf [(Some 50%float, Some 25%float); (None, None)] /\
  exists rows,
    formatted_data 2 [(Some 50%float, Some 25%float); (None, None)] ["A"; "B"] = Ok rows
    /\ (2%nat = 2%nat ->
        create_dataframe [(Some 50%float, Some 25%float); (None, None)] ["A"; "B"]
        = Ok (Table "styled-table" rows))
    /\ (2%nat = 4%nat ->
        create_crypto_dataframe [(Some 50%float, Some 25%float); (None, None)] ["A"; "B"]
        = Ok (Table "styled-table" rows))
    /\ length rows = (length ["A"; "B"] `min` length [(Some 50%float, Some 25%float); (None, None)])%nat
    /\ (forall i name price change,
          ["A"; "B"] !! i = Some name ->
          [(Some 50%float, Some 25%float); (None, None)] !! i = Some (price, change) ->
          exists r,
            rows !! i = Some r
            /\ format_row 2 (name, (price, change)) = Ok r
            /\ row_asset r = name
            /\ (row_price r = no_data <-> price = None)
            /\ (forall p, price = Some p ->
                  exists t,
                    shows 2 p t
                    /\ row_price r = direction_tag (direction_of change) +:+ t +:+ "</span>")
            /\ (row_change r = no_data <-> direction_of change = Flat)
            /\ (forall c, change = Some c -> direction_of change <> Flat ->
                  exists t,
                    shows 2 c t
                    /\ row_change r
                       = direction_tag (direction_of change) +:+ t +:+ "%" +:+ "</span>"))
    /\ (forall d1 d2, direction_tag d1 = direction_tag d2 -> d1 = d2)
    /\ (direction_of (Some 25%float) = Rise
        /\ direction_of (Some (-5)%float) = Fall
        /\ direction_of (Some 0%float) = Flat
        /\ direction_of None = Flat)
    /\ (forall src assets bs w results w',
          fetch_all_prices src assets bs w = (Ok results, w') -> Forall quote_wf results).
Proof.
  assert (Forall quote_wf [(Some 50%float, Some 25%float); (None, None)]) as H.
  { repeat constructor; cbn; discriminate. }
  split; [exact H|].
  exact (create_dataframe_cues 2 [(Some 50%float, Some 25%float); (None, None)] ["A"; "B"] H).
Defined.

(** The price 1234.5625 is shown as the numeral that spells 123456
    hundredths. *)
Example shows_price :
  PyFloat.format_f 2 1234.5625%float = "1234.56"
  /\ read_fixed "1234.56" = Some (123456, 2%nat).
Proof. split; vm_compute; reflexivity. Qed.


(** * Further properties of the code *)

(** ** A single fetch *)

(** X1: a symbol without history for the day yields [(None, None)], and
    yet its previous close is looked up and recorded on the way (the
    lookup of lines 88-89 comes before the test for an empty history).
    This is for a positive timeout, as the program passes it; with any
    other no call is made at all. *)
Theorem empty_history_still_records (src : QuoteSource) (ticker : string) (timeout : Z)
    (w : World) (v : option float) :
  0 < timeout ->
  history src ticker = Returns [] ->
  prev_close_cache w !! ticker = None ->
  previousClose src ticker = Returns v ->
  (fetch_single_price src ticker timeout w).1 = Ok (None, None)
  /\ prev_close_cache (fetch_single_price src ticker timeout w).2
     = <[ticker := v]> (prev_close_cache w)
  /\ trace (fetch_single_price src ticker timeout w).2
     = (trace w ++ [EvHistory ticker; EvInfo ticker])%list.
Proof.
  intros Ht Hh Hc Hp. rewrite fetch_single_price_eq by exact Ht.
  unfold fetch_single_price_cases, fetch_data_cases.
  rewrite Hh, Hc, Hp. cbn. rewrite <- app_assoc. auto.
Qed.

Lemma empty_history_still_records_witness :
  (0 < 10
   /\ history sample_source "NG=F" = Returns []
   /\ prev_close_cache initial_world !! "NG=F" = None
   /\ previousClose sample_source "NG=F" = Returns None) /\
  (fetch_single_price sample_source "NG=F" 10 initial_world).1 = Ok (None, None)
  /\ prev_close_cache (fetch_single_price sample_source "NG=F" 10 initial_world).2
     = <["NG=F" := None]> (prev_close_cache initial_world)
  /\ trace (fetch_single_price sample_source "NG=F" 10 initial_world).2
     = (trace initial_world ++ [EvHistory "NG=F"; EvInfo "NG=F"])%list.
Proof.
  split; [split; [lia|repeat split; reflexivity]|].
  apply (empty_history_still_records sample_source "NG=F" 10 initial_world None);
    [lia|reflexivity..].
Defined.

(** X2: a previous close of zero (of either sign) is treated like a
    missing one: the price is returned and the change is [None], so the
    division by the previous close is never carried out with a zero.
    This is for a positive timeout, as the program passes it. *)
Theorem zero_previous_close_gives_no_change (src : QuoteSource) (ticker : string)
    (timeout : Z) (w : World) (closes : list float) (price pc : float) :
  0 < timeout ->
  history src ticker = Returns closes ->
  last closes = Some price ->
  resolve_prev_close src (prev_close_cache w) ticker = Returns (Some pc) ->
  PrimFloat.eqb pc 0%float = true ->
  (fetch_single_price src ticker timeout w).1 = Ok (Some price, None).
Proof.
  intros Ht Hh Hl Hr Hz.
  destruct (fetch_single_price_run src ticker timeout w Ht) as (w' & calls & -> & _).
  cbn. unfold fetched_quote. rewrite Hh, Hr. unfold quote_from. rewrite Hl.
  unfold change_percent, PyFloat.truthy. rewrite Hz. reflexivity.
Qed.

Lemma zero_previous_close_gives_no_change_witness :
  (0 < 10
   /\ history flat_source "AAA" = Returns [5%float]
   /\ last [5%float] = Some 5%float
   /\ resolve_prev_close flat_source (prev_close_cache initial_world) "AAA"
      = Returns (Some 0%float)
   /\ PrimFloat.eqb 0%float 0%float = true) /\
  (fetch_single_price flat_source "AAA" 10 initial_world).1 = Ok (Some 5%float, None).
Proof.
  split; [split; [lia|repeat split; reflexivity]|].
  apply (zero_previous_close_gives_no_change flat_source "AAA" 10 initial_world
           [5%float] 5%float 0%float); [lia|reflexivity..].
Defined.

(** X3: a fetch in which the quote source raises (the history call, or,
    for a symbol that is not in the cache, the previous-close lookup)
    returns [(None, None)] and leaves the cache exactly as it was, so
    nothing is remembered of the failure; it prints the message of the
    exception, after the calls it made.  When the history call is what
    raised, the previous close is not looked up. *)
Theorem abandoned_fetch_records_nothing (src : QuoteSource) (ticker : string) (timeout : Z)
    (w : World) (e : exn) :
  0 < timeout ->
  history src ticker = Fails e
  \/ ((exists closes, history src ticker = Returns closes)
      /\ prev_close_cache w !! ticker = None
      /\ previousClose src ticker = Fails e) ->
  (fetch_single_price src ticker timeout w).1 = Ok (None, None)
  /\ prev_close_cache (fetch_single_price src ticker timeout w).2 = prev_close_cache w
  /\ exists calls,
       trace (fetch_single_price src ticker timeout w).2
       = (trace w ++ calls ++ [EvPrint (failure_message ticker e)])%list
       /\ (calls = [EvHistory ticker] \/ calls = [EvHistory ticker; EvInfo ticker])
       /\ (history src ticker = Fails e -> calls = [EvHistory ticker]).
Proof.
  intros Ht Hbad. rewrite fetch_single_price_eq by exact Ht.
  unfold fetch_single_price_cases, fetch_data_cases, abandoned.
  destruct Hbad as [Hh|([closes Hh] & Hc & Hp)].
  - rewrite Hh. cbn. split; [reflexivity|]. split; [reflexivity|].
    exists [EvHistory ticker]. rewrite <- !app_assoc. auto.
  - rewrite Hh, Hc, Hp. cbn. split; [reflexivity|]. split; [reflexivity|].
    exists [EvHistory ticker; EvInfo ticker]. rewrite <- !app_assoc.
    split; [reflexivity|]. split; [auto|]. intros Hno. congruence.
Qed.

Lemma abandoned_fetch_records_nothing_witness :
  (0 < 10
   /\ (history sample_source "BBB" = Fails (OtherError "No data found, symbol may be delisted")
       \/ ((exists closes, history sample_source "BBB" = Returns closes)
           /\ prev_close_cache initial_world !! "BBB" = None
           /\ previousClose sample_source "BBB"
              = Fails (OtherError "No data found, symbol may be delisted")))) /\
  (fetch_single_price sample_source "BBB" 10 initial_world).1 = Ok (None, None)
  /\ prev_close_cache (fetch_single_price sample_source "BBB" 10 initial_world).2
     = prev_close_cache initial_world
  /\ exists calls,
       trace (fetch_single_price sample_source "BBB" 10 initial_world).2
       = (trace initial_world ++ calls
          ++ [EvPrint (failure_message "BBB"
                         (OtherError "No data found, symbol may be delisted"))])%list
       /\ (calls = [EvHistory "BBB"] \/ calls = [EvHistory "BBB"; EvInfo "BBB"])
       /\ (history sample_source "BBB" = Fails (OtherError "No data found, symbol may be delisted")
           -> calls = [EvHistory "BBB"]).
Proof.
  split; [split; [lia|left; reflexivity]|].
  apply (abandoned_fetch_records_nothing sample_source "BBB" 10 initial_world
           (OtherError "No data found, symbol may be delisted")); [lia|left; reflexivity].
Defined.

(** ** Lifting what every fetch does to groups, cycles and the loop *)

Section Lifting.

Variable R : World -> World -> Prop.

Hypothesis R_trans : forall w1 w2 w3, R w1 w2 -> R w2 w3 -> R w1 w3.

Hypothesis R_quiet :
  forall w w' evs,
    prev_close_cache w' = prev_close_cache w ->
    trace w' = (trace w ++ evs)%list ->
    Forall quiet_event evs ->
    R w w'.

Lemma R_same (w w' : World) :
  prev_close_cache w' = prev_close_cache w -> trace w' = trace w -> R w w'.
Proof.
  intros Hc Ht. apply (R_quiet w w' []); [exact Hc|rewrite Ht, app_nil_r; reflexivity|constructor].
Qed.

Lemma within_ret {A} (a : A) : within R (ret a).
Proof. intros w. apply R_same; reflexivity. Qed.

Lemma within_lift {A} (r : outcome A) : within R (lift r).
Proof. intros w. apply R_same; reflexivity. Qed.

Lemma within_bind {A B} (c : M A) (k : A -> M B) :
  within R c -> (forall a, within R (k a)) -> within R (bind c k).
Proof.
  intros Hc Hk w. unfold bind. specialize (Hc w).
  destruct (c w) as [[a|e] w1]; cbn in *; [|assumption].
  eapply R_trans; [exact Hc|apply Hk].
Qed.

Lemma within_markdown (key : string) (c : content) : within R (markdown key c).
Proof. intros w. apply (R_quiet _ _ [EvMarkdown key c]); [reflexivity..|repeat constructor]. Qed.

Lemma within_sleep (secs : Z) : within R (sleep secs).
Proof. intros w. apply (R_quiet _ _ [EvSleep secs]); [reflexivity..|repeat constructor]. Qed.

Lemma within_settle {A} (c : M A) : within R c -> within R (settle c).
Proof. intros Hc w. specialize (Hc w). unfold settle. destruct (c w) as [r w1]. exact Hc. Qed.

Lemma within_run_all {A} (cs : list (M A)) : Forall (within R) cs -> within R (run_all cs).
Proof.
  induction 1 as [|c cs Hc _ IH]; cbn.
  - apply within_ret.
  - apply within_bind; [apply within_settle, Hc|]. intros r.
    apply within_bind; [exact IH|]. intros rs. apply within_ret.
Qed.

Lemma within_gather {A} (cos : list (coroutine A)) :
  Forall (fun co => within R (task co) /\ forall r, within R (resume co r)) cos ->
  within R (gather cos).
Proof.
  intros H. unfold gather.
  apply within_bind.
  { apply within_run_all, Forall_fmap. eapply Forall_impl; [exact H|]. intros co [Ht _]. exact Ht. }
  intros settled. apply within_bind; [|intros finished; apply within_lift].
  apply within_run_all. clear -H. revert settled.
  induction H as [|co cos [_ Hr] _ IH]; intros [|r rs]; cbn; constructor; auto.
Qed.

Lemma within_wait_for {A} (c : M A) (timeout : Z) : within R c -> within R (wait_for c timeout).
Proof.
  intros Hc. unfold wait_for. destruct (timeout <=? 0); [|exact Hc].
  intros w. apply R_same; reflexivity.
Qed.

Lemma within_fetch_single_price_resume (t : string) (r : outcome Quote) :
  within R (fetch_single_price_resume t r).
Proof.
  intros w. rewrite fetch_single_price_resume_eq.
  apply (R_quiet _ _ (failure_prints t r)); [reflexivity..|].
  destruct r as [q|e]; repeat constructor.
Qed.

Lemma within_fetch_single_price (src : QuoteSource) (t : string) (timeout : Z) :
  within R (fetch_data src t) -> within R (fetch_single_price src t timeout).
Proof.
  intros Hf w. unfold fetch_single_price, await, fetch_single_price_coroutine, task, resume.
  pose proof (within_wait_for _ timeout Hf w) as H1.
  destruct (wait_for (fetch_data src t) timeout w) as [r w1]. cbn in H1.
  eapply R_trans; [exact H1|]. apply within_fetch_single_price_resume.
Qed.

Lemma within_for_each {A S} (l : list A) (body : S -> A -> M S) (s : S) :
  (forall s x, within R (body s x)) -> within R (for_each l body s).
Proof.
  intros H. revert s. induction l as [|x l IH]; intros s; cbn.
  - apply within_ret.
  - apply within_bind; [apply H|]. intros s'. apply IH.
Qed.

Lemma within_fetch_all_prices (src : QuoteSource) (assets : list (string * string)) (bs : Z) :
  (forall t, within R (fetch_data src t)) ->
  within R (fetch_all_prices src assets bs).
Proof.
  intros Hf. unfold fetch_all_prices. apply within_bind; [apply within_lift|]. intros starts.
  apply within_for_each. intros results i. unfold fetch_batch.
  apply within_bind; [|intros fetched; apply within_ret].
  apply within_gather. apply Forall_fmap, Forall_forall. intros t _. split.
  - apply (within_wait_for (fetch_data src t) default_timeout), Hf.
  - apply within_fetch_single_price_resume.
Qed.

Lemma within_update_dashboard_cycle (env : Environment) :
  (forall t, within R (fetch_data (quotes env) t)) ->
  within R (update_dashboard_cycle env).
Proof.
  intros Hf. unfold update_dashboard_cycle.
  repeat first
    [ apply within_sleep
    | apply within_markdown
    | apply within_lift
    | apply within_fetch_all_prices; exact Hf
    | apply within_bind; [|intros ?] ].
Qed.

Lemma within_update_dashboard (feed : nat -> Environment) (k n : nat) :
  (forall j t, within R (fetch_data (quotes (feed j)) t)) ->
  within R (update_dashboard feed k n).
Proof.
  intros Hf. revert k. induction n as [|n IH]; intros k; cbn.
  - apply within_ret.
  - apply within_bind; [apply within_update_dashboard_cycle, Hf|]. intros _. apply IH.
Qed.

End Lifting.

(** ** Looking up the previous close once *)

Lemma lookups_of_app (t : string) (evs1 evs2 : list event) :
  lookups_of t (evs1 ++ evs2) = (lookups_of t evs1 + lookups_of t evs2)%nat.
Proof.
  induction evs1 as [|e evs1 IH]; cbn; [reflexivity|].
  destruct e; rewrite IH; lia.
Qed.

Lemma lookups_of_quiet (t : string) (evs : list event) :
  Forall quiet_event evs -> lookups_of t evs = 0%nat.
Proof.
  induction 1 as [|e evs He _ IH]; cbn; [reflexivity|].
  destruct e; cbn in He; tauto.
Qed.

Lemma cache_grows_trans (w1 w2 w3 : World) :
  cache_grows w1 w2 -> cache_grows w2 w3 -> cache_grows w1 w3.
Proof. intros H12 H23 s v H. apply H23, H12, H. Qed.

Lemma cache_grows_is_Some (w w' : World) (t : string) :
  cache_grows w w' -> is_Some (prev_close_cache w !! t) -> is_Some (prev_close_cache w' !! t).
Proof. intros H [v Hv]. exists v. apply H, Hv. Qed.

Lemma lookup_policy_trans (answered : Prop) (t : string) (w1 w2 w3 : World) :
  lookup_policy answered t w1 w2 -> lookup_policy answered t w2 w3 ->
  lookup_policy answered t w1 w3.
Proof.
  intros (G12 & evs & Ht & Hz & Ha) (G23 & evs' & Ht' & Hz' & Ha').
  split; [eapply cache_grows_trans; eassumption|].
  exists (evs ++ evs')%list. split; [rewrite Ht', Ht, app_assoc; reflexivity|].
  rewrite lookups_of_app. split.
  - intros Hsome. rewrite (Hz Hsome), (Hz' (cache_grows_is_Some _ _ _ G12 Hsome)). reflexivity.
  - intros Hans. destruct (Ha Hans) as [Hle Hone], (Ha' Hans) as [Hle' Hone'].
    destruct (lookups_of t evs) as [|[|n]] eqn:E; [| |lia].
    + split; [lia|]. intros E1. apply Hone'. lia.
    + rewrite (Hz' (Hone eq_refl)). split; [lia|]. intros _.
      eapply cache_grows_is_Some; [exact G23|]. apply Hone. reflexivity.
Qed.

Lemma lookup_policy_quiet (answered : Prop) (t : string) (w w' : World) (evs : list event) :
  prev_close_cache w' = prev_close_cache w ->
  trace w' = (trace w ++ evs)%list ->
  Forall quiet_event evs ->
  lookup_policy answered t w w'.
Proof.
  intros Hc Ht Hq. split; [intros s v H; rewrite Hc; exact H|].
  exists evs. rewrite (lookups_of_quiet t evs Hq).
  split; [exact Ht|]. split; [reflexivity|]. intros _. split; [lia|discriminate].
Qed.

Lemma lookup_policy_fetch (answered : Prop) (t : string) (src : QuoteSource) (t' : string) :
  (answered -> exists v, previousClose src t = Returns v) ->
  within (lookup_policy answered t) (fetch_data src t').
Proof.
  intros Hans w. split.
  { intros s v H. apply keeps_fetch_data. exact H. }
  rewrite fetch_data_eq. unfold fetch_data_cases, after_info, after_history.
  destruct (history src t') as [closes|e].
  - destruct (prev_close_cache w !! t') as [pc|] eqn:Hc.
    + exists [EvHistory t']. cbn. split; [reflexivity|]. split; [reflexivity|].
      intros _. split; [lia|discriminate].
    + destruct (previousClose src t') as [pc|e] eqn:Hp.
      * exists [EvHistory t'; EvInfo t']. cbn. rewrite <- app_assoc.
        split; [reflexivity|].
        destruct (decide (t' = t)) as [->|Hne]; cbn.
        -- split; [intros [v Hv]; congruence|]. intros _. split; [lia|].
           intros _. rewrite lookup_insert_eq. eauto.
        -- split; [reflexivity|]. intros _. split; [lia|discriminate].
      * exists [EvHistory t'; EvInfo t']. cbn. rewrite <- !app_assoc.
        split; [reflexivity|].
        destruct (decide (t' = t)) as [->|Hne]; cbn.
        -- split; [intros [v Hv]; congruence|].
           intros Hyes. destruct (Hans Hyes) as [v Hv]. congruence.
        -- split; [reflexivity|]. intros _. split; [lia|discriminate].
  - exists [EvHistory t']. cbn.
    split; [reflexivity|]. split; [reflexivity|]. intros _. split; [lia|discriminate].
Qed.

(** X4: a symbol that is in the cache (be it with the value [None]) is
    never looked up again: in any number of refresh cycles, whatever the
    quote source does in each of them, no previous-close lookup is made
    for it. *)
Theorem cached_symbol_is_not_looked_up (feed : nat -> Environment) (n : nat) (w : World)
    (t : string) :
  is_Some (prev_close_cache w !! t) ->
  exists evs,
    trace (main feed n w).2 = (trace w ++ evs)%list /\ lookups_of t evs = 0%nat.
Proof.
  intros Hsome.
  destruct (within_update_dashboard (lookup_policy False t)
              (lookup_policy_trans False t) (lookup_policy_quiet False t) feed 0 n) with (w := w)
    as (_ & evs & Ht & Hz & _).
  { intros j t'. apply lookup_policy_fetch. intros []. }
  exists evs. split; [exact Ht|apply Hz, Hsome].
Qed.

Lemma cached_symbol_is_not_looked_up_witness :
  is_Some (prev_close_cache world_after_gas !! "NG=F") /\
  exists evs,
    trace (main (fun _ => sample_env) 2 world_after_gas).2
    = (trace world_after_gas ++ evs)%list
    /\ lookups_of "NG=F" evs = 0%nat.
Proof.
  assert (is_Some (prev_close_cache world_after_gas !! "NG=F")) as H
    by (exists None; vm_compute; reflexivity).
  split; [exact H|].
  exact (cached_symbol_is_not_looked_up (fun _ => sample_env) 2 world_after_gas "NG=F" H).
Defined.

(** X5: the previous close of a symbol is fetched once.  If the quote
    source answers the previous-close lookup for the symbol in every
    cycle, then over any number of refresh cycles at most one such lookup
    is made, and once it is made the symbol is in the cache. *)
Theorem previous_close_is_looked_up_once (feed : nat -> Environment) (n : nat) (w : World)
    (t : string) :
  (forall k, exists v, previousClose (quotes (feed k)) t = Returns v) ->
  exists evs,
    trace (main feed n w).2 = (trace w ++ evs)%list
    /\ (lookups_of t evs <= 1)%nat
    /\ (lookups_of t evs = 1%nat -> is_Some (prev_close_cache (main feed n w).2 !! t)).
Proof.
  intros Hans.
  destruct (within_update_dashboard (lookup_policy True t)
              (lookup_policy_trans True t) (lookup_policy_quiet True t) feed 0 n) with (w := w)
    as (_ & evs & Ht & _ & Ha).
  { intros j t'. apply lookup_policy_fetch. intros _. apply Hans. }
  exists evs. split; [exact Ht|]. apply Ha. exact I.
Qed.

Lemma previous_close_is_looked_up_once_witness :
  (forall k : nat, exists v, previousClose (quotes ((fun _ => sample_env) k)) "GC=F" = Returns v) /\
  exists evs,
    trace (main (fun _ => sample_env) 3 initial_world).2 = (trace initial_world ++ evs)%list
    /\ (lookups_of "GC=F" evs <= 1)%nat
    /\ (lookups_of "GC=F" evs = 1%nat ->
        is_Some (prev_close_cache (main (fun _ => sample_env) 3 initial_world).2 !! "GC=F")).
Proof.
  assert (forall k : nat,
            exists v, previousClose (quotes ((fun _ => sample_env) k)) "GC=F" = Returns v) as H
    by (intros k; eexists; reflexivity).
  split; [exact H|].
  exact (previous_close_is_looked_up_once (fun _ => sample_env) 3 initial_world "GC=F" H).
Defined.

Example gold_looked_up_once_in_three_cycles :
  lookups_of "GC=F" (trace (main (fun _ => sample_env) 3 initial_world).2) = 1%nat.
Proof. vm_compute. reflexivity. Qed.

(** ** What a group fetch leaves in the cache *)

Lemma requests_of_app (t : string) (evs1 evs2 : list event) :
  requests_of t (evs1 ++ evs2) = (requests_of t evs1 + requests_of t evs2)%nat.
Proof.
  induction evs1 as [|e evs1 IH]; cbn; [reflexivity|].
  destruct e; rewrite IH; lia.
Qed.

Lemma requests_of_quiet (t : string) (evs : list event) :
  Forall quiet_event evs -> requests_of t evs = 0%nat.
Proof.
  induction 1 as [|e evs He _ IH]; cbn; [reflexivity|].
  destruct e; cbn in He; tauto.
Qed.

Lemma requests_of_fetches (t : string) (evs : list event) :
  t ∈ fetches evs -> (0 < requests_of t evs)%nat.
Proof.
  induction evs as [|e evs IH]; cbn; [intros H; inversion H|].
  destruct e; cbn; try exact IH.
  intros H. apply elem_of_cons in H.
  destruct (decide (ticker = t)) as [->|Hne]; [lia|].
  destruct H as [->|H]; [congruence|]. cbn. apply IH, H.
Qed.

Lemma fetches_requests (t : string) (evs : list event) :
  (0 < requests_of t evs)%nat -> t ∈ fetches evs.
Proof.
  induction evs as [|e evs IH]; cbn; [lia|].
  destruct e; cbn; try exact IH.
  destruct (decide (ticker = t)) as [->|Hne]; [intros _; left|].
  cbn. intros H. right. apply IH, H.
Qed.

Lemma records_trans (t : string) (w1 w2 w3 : World) :
  records t w1 w2 -> records t w2 w3 -> records t w1 w3.
Proof.
  intros (G12 & evs & Ht & Hr) (G23 & evs' & Ht' & Hr').
  split; [eapply cache_grows_trans; eassumption|].
  exists (evs ++ evs')%list. split; [rewrite Ht', Ht, app_assoc; reflexivity|].
  rewrite requests_of_app. intros Hpos.
  destruct (requests_of t evs') as [|k] eqn:E.
  - eapply cache_grows_is_Some; [exact G23|]. apply Hr. lia.
  - apply Hr'. lia.
Qed.

Lemma records_quiet (t : string) (w w' : World) (evs : list event) :
  prev_close_cache w' = prev_close_cache w ->
  trace w' = (trace w ++ evs)%list ->
  Forall quiet_event evs ->
  records t w w'.
Proof.
  intros Hc Ht Hq. split; [intros s v H; rewrite Hc; exact H|].
  exists evs. rewrite (requests_of_quiet t evs Hq). split; [exact Ht|lia].
Qed.

Lemma records_fetch (t : string) (src : QuoteSource) (t' : string)
    (closes : list float) (v : option float) :
  history src t = Returns closes ->
  previousClose src t = Returns v ->
  within (records t) (fetch_data src t').
Proof.
  intros Hh Hp w. split.
  { intros s x H. apply keeps_fetch_data. exact H. }
  destruct (decide (t' = t)) as [->|Hne].
  - rewrite fetch_data_eq. unfold fetch_data_cases, after_info, after_history. rewrite Hh.
    destruct (prev_close_cache w !! t) as [pc|] eqn:Hc.
    + exists [EvHistory t]. cbn. split; [reflexivity|]. intros _. rewrite Hc. eauto.
    + rewrite Hp. exists [EvHistory t; EvInfo t]. cbn. rewrite <- app_assoc.
      split; [reflexivity|]. intros _. rewrite lookup_insert_eq. eauto.
  - destruct (fetch_data_run src t' w) as (w' & calls & -> & _ & Ht & Hcb & _).
    exists calls. cbn. split; [exact Ht|]. intros Hpos. exfalso.
    destruct Hcb as [->| ->]; cbn in Hpos; destruct (decide (t' = t)); try congruence;
      cbn in Hpos; lia.
Qed.

Lemma enters_trans (src : QuoteSource) (t : string) (w1 w2 w3 : World) :
  enters src t w1 w2 -> enters src t w2 w3 -> enters src t w1 w3.
Proof.
  intros (G12 & evs & Ht & He) (G23 & evs' & Ht' & He').
  split; [eapply cache_grows_trans; eassumption|].
  exists (evs ++ evs')%list. split; [rewrite Ht', Ht, app_assoc; reflexivity|].
  rewrite requests_of_app. intros Hnone Hsome.
  destruct (prev_close_cache w2 !! t) as [x|] eqn:E2.
  - destruct (He Hnone) as [Hpos Hh]; [eauto|]. split; [lia|exact Hh].
  - destruct (He' eq_refl Hsome) as [Hpos Hh]. split; [lia|exact Hh].
Qed.

Lemma enters_quiet (src : QuoteSource) (t : string) (w w' : World) (evs : list event) :
  prev_close_cache w' = prev_close_cache w ->
  trace w' = (trace w ++ evs)%list ->
  Forall quiet_event evs ->
  enters src t w w'.
Proof.
  intros Hc Ht Hq. split; [intros s v H; rewrite Hc; exact H|].
  exists evs. split; [exact Ht|]. rewrite Hc. intros Hnone [x Hx]. congruence.
Qed.

Lemma enters_fetch (src : QuoteSource) (t t' : string) :
  within (enters src t) (fetch_data src t').
Proof.
  intros w. split.
  { intros s x H. apply keeps_fetch_data. exact H. }
  rewrite fetch_data_eq. unfold fetch_data_cases, after_info, after_history.
  destruct (history src t') as [closes|e] eqn:Hh.
  - destruct (prev_close_cache w !! t') as [pc|] eqn:Hc.
    + eexists. cbn. split; [reflexivity|]. intros Hnone [x Hx]. congruence.
    + destruct (previousClose src t') as [pc|e].
      * exists [EvHistory t'; EvInfo t']. cbn. rewrite <- app_assoc.
        split; [reflexivity|]. intros Hnone [x Hx].
        destruct (decide (t' = t)) as [->|Hne]; [split; [lia|eauto]|].
        rewrite lookup_insert_ne in Hx by exact Hne. congruence.
      * eexists. cbn. rewrite <- !app_assoc.
        split; [reflexivity|]. intros Hnone [x Hx]. congruence.
  - eexists. cbn.
    split; [reflexivity|]. intros Hnone [x Hx]. congruence.
Qed.

(** The cache after a group fetch, entry by entry. *)
Lemma group_cache_lookup (src : QuoteSource) (assets : list (string * string)) (bs : Z)
    (w : World) (t : string) :
  1 <= bs ->
  prev_close_cache (fetch_all_prices src assets bs w).2 !! t
  = entry_after src (prev_close_cache w) (values assets) t.
Proof.
  intros Hbs. unfold entry_after.
  pose proof (keeps_fetch_all_prices src assets bs w t) as Hkeep.
  pose proof (within_fetch_all_prices (enters src t) (enters_trans src t) (enters_quiet src t)
                src assets bs (fun t' => enters_fetch src t t') w) as Hent.
  destruct (fetch_all_prices_run src assets bs w Hbs)
    as (m & w' & Hrun & _ & Hcat & _ & Hof).
  rewrite Hrun in *. cbn [snd] in *.
  destruct (prev_close_cache w !! t) as [x|] eqn:E; [apply Hkeep; reflexivity|].
  pose proof (proj1 Hof) as Hext.
  destruct (only_fetches_events src _ _ _ Hof) as (evs0 & Ht & _ & Hf & _).
  rewrite Hcat in Hf.
  destruct Hent as (_ & evs & Ht' & Hin).
  assert (evs = evs0) as -> by (apply (app_inv_head (trace w)); congruence).
  destruct (prev_close_cache w' !! t) as [x|] eqn:E'.
  - destruct (Hin E) as [Hpos [closes Hh]]; [eauto|].
    apply fetches_requests in Hpos. rewrite Hf in Hpos.
    rewrite decide_True by exact Hpos. rewrite Hh.
    destruct (Hext t) as [E2|(_ & v & Hv & E2)]; [congruence|].
    rewrite Hv. congruence.
  - destruct (decide (t ∈ values assets)) as [Hmem|]; [|reflexivity].
    destruct (history src t) as [closes|e] eqn:Hh; [|reflexivity].
    destruct (previousClose src t) as [v|e] eqn:Hp; [|reflexivity].
    exfalso.
    pose proof (within_fetch_all_prices (records t) (records_trans t) (records_quiet t)
                  src assets bs
                  (fun t' => records_fetch t src t' closes v Hh Hp) w) as Hrec.
    rewrite Hrun in Hrec. cbn [snd] in Hrec.
    destruct Hrec as (_ & evs & Ht2 & Hcached).
    assert (evs = evs0) as -> by (apply (app_inv_head (trace w)); congruence).
    destruct Hcached as [x Hx]; [|congruence].
    apply requests_of_fetches. rewrite Hf. exact Hmem.
Qed.

(** X7: a group fetch fills the cache.  After [fetch_all_prices] with a
    batch size of at least one, every symbol of the group for which the
    source has a history and a previous close is in the cache: with the
    value it had before if it had one, else with the previous close of the
    source. *)
Theorem group_fetch_fills_cache (src : QuoteSource) (assets : list (string * string))
    (batch_size : Z) (w : World) (t : string) (closes : list float) (v : option float) :
  1 <= batch_size ->
  t ∈ values assets ->
  history src t = Returns closes ->
  previousClose src t = Returns v ->
  prev_close_cache (fetch_all_prices src assets batch_size w).2 !! t
  = Some (default v (prev_close_cache w !! t)).
Proof.
  intros Hbs Hin Hh Hp. rewrite group_cache_lookup by exact Hbs.
  unfold entry_after. destruct (prev_close_cache w !! t); [reflexivity|].
  rewrite decide_True by exact Hin. rewrite Hh, Hp. reflexivity.
Qed.

Lemma group_fetch_fills_cache_witness :
  (1 <= 5 /\ "AAA" ∈ values sample_group
   /\ history sample_source "AAA" = Returns [49%float; 50%float]
   /\ previousClose sample_source "AAA" = Returns (Some 40%float)) /\
  prev_close_cache (fetch_all_prices sample_source sample_group 5 initial_world).2 !! "AAA"
  = Some (default (Some 40%float) (prev_close_cache initial_world !! "AAA")).
Proof.
  assert ("AAA" ∈ values sample_group) as Hin by (cbn; left).
  split; [split; [lia|]; split; [exact Hin|]; split; reflexivity|].
  apply (group_fetch_fills_cache sample_source sample_group 5 initial_world "AAA"
           [49%float; 50%float] (Some 40%float)); [lia|exact Hin|reflexivity|reflexivity].
Defined.

(** X8: what a group fetch returns and what it leaves in the cache depend
    on the cache, the source and the group only: for batch sizes of at
    least one, neither the batch size (and with it the order of the calls
    and the messages) nor the events so far nor the clock change the
    quotes or the cache. *)
Theorem group_fetch_independent_of_batching (src : QuoteSource)
    (assets : list (string * string)) (bs1 bs2 : Z) (w1 w2 : World) :
  1 <= bs1 ->
  1 <= bs2 ->
  prev_close_cache w1 = prev_close_cache w2 ->
  (fetch_all_prices src assets bs1 w1).1 = (fetch_all_prices src assets bs2 w2).1
  /\ prev_close_cache (fetch_all_prices src assets bs1 w1).2
     = prev_close_cache (fetch_all_prices src assets bs2 w2).2.
Proof.
  intros H1 H2 Hc. split.
  - destruct (fetch_all_prices_run src assets bs1 w1 H1) as (m1 & w1' & -> & _).
    destruct (fetch_all_prices_run src assets bs2 w2 H2) as (m2 & w2' & -> & _).
    cbn. rewrite Hc. reflexivity.
  - apply map_eq. intros t. rewrite !group_cache_lookup by assumption.
    rewrite Hc. reflexivity.
Qed.

Lemma group_fetch_independent_of_batching_witness :
  (1 <= 5 /\ 1 <= 2 /\ prev_close_cache initial_world = prev_close_cache later_world) /\
  (fetch_all_prices sample_source commodities 5 initial_world).1
  = (fetch_all_prices sample_source commodities 2 later_world).1
  /\ prev_close_cache (fetch_all_prices sample_source commodities 5 initial_world).2
     = prev_close_cache (fetch_all_prices sample_source commodities 2 later_world).2.
Proof.
  split; [split; [lia|]; split; [lia|reflexivity]|].
  apply (group_fetch_independent_of_batching sample_source commodities 5 2
           initial_world later_world); [lia|lia|reflexivity].
Defined.


(** ** The sizes of the batches *)

(** X6: for a batch size [b >= 1] the loop of [fetch_all_prices] runs
    over ceil(n / b) batches for [n] tickers; batch [k] starts at index
    [k * b] and holds [min b (n - k * b)] tickers, which is [b] for every
    batch but the last and at least one for the last. *)
Theorem batch_count_and_sizes (tickers : list string) (batch_size : Z) (starts : list Z) :
  1 <= batch_size ->
  py_range 0 (Z.of_nat (length tickers)) batch_size = Ok starts ->
  Z.of_nat (length starts) = (Z.of_nat (length tickers) + batch_size - 1) / batch_size
  /\ forall (k : nat) (i : Z),
       starts !! k = Some i ->
       i = Z.of_nat k * batch_size
       /\ Z.of_nat (length (py_slice tickers i (i + batch_size)))
          = Z.min batch_size (Z.of_nat (length tickers) - Z.of_nat k * batch_size)
       /\ 1 <= Z.of_nat (length (py_slice tickers i (i + batch_size)))
       /\ ((S k < length starts)%nat ->
           Z.of_nat (length (py_slice tickers i (i + batch_size))) = batch_size).
Proof.
  intros Hbs Hrange.
  destruct (py_range_batches (length tickers) batch_size) as (m & Hr & Hcover & Hne); [lia|].
  rewrite Hr in Hrange. inversion Hrange; subst starts. clear Hrange.
  rewrite length_fmap, length_seq.
  split.
  - destruct m as [|m'].
    + assert (length tickers = 0%nat) as -> by lia.
      symmetry. apply Z.div_small. lia.
    + pose proof (Hne m' ltac:(lia)) as Hlast.
      apply (Z.div_unique_pos _ _ _
               (Z.of_nat (length tickers) + batch_size - 1 - batch_size * Z.of_nat (S m'))).
      * nia.
      * lia.
  - intros k i Hk. rewrite list_lookup_fmap in Hk.
    destruct (seq 0 m !! k) as [k'|] eqn:Hseq; [|discriminate].
    apply lookup_seq in Hseq. destruct Hseq as [-> Hlt]. cbn in Hk. inversion Hk; subst i.
    split; [reflexivity|]. rewrite py_slice_batch by lia. unfold batch_at.
    rewrite length_take, length_drop.
    pose proof (Hne k Hlt) as Hstart.
    split; [nia|]. split; [nia|]. intros Hnext.
    pose proof (Hne (S k) Hnext) as Hfull. nia.
Qed.

Lemma batch_count_and_sizes_witness :
  (1 <= 5 /\ py_range 0 (Z.of_nat (length (values commodities))) 5 = Ok [0; 5]) /\
  Z.of_nat (length [0; 5]) = (Z.of_nat (length (values commodities)) + 5 - 1) / 5
  /\ forall (k : nat) (i : Z),
       [0; 5] !! k = Some i ->
       i = Z.of_nat k * 5
       /\ Z.of_nat (length (py_slice (values commodities) i (i + 5)))
          = Z.min 5 (Z.of_nat (length (values commodities)) - Z.of_nat k * 5)
       /\ 1 <= Z.of_nat (length (py_slice (values commodities) i (i + 5)))
       /\ ((S k < length [0; 5])%nat ->
           Z.of_nat (length (py_slice (values commodities) i (i + 5))) = 5).
Proof.
  split; [split; [lia|reflexivity]|].
  apply (batch_count_and_sizes (values commodities) 5 [0; 5]); [lia|reflexivity].
Defined.

(** ** Tables: failure, the two renderers, and tables without data *)

Lemma format_row_outcomes (digits : nat) (entry : string * Quote) :
  (exists r, format_row digits entry = Ok r) \/ format_row digits entry = Raise format_none_error.
Proof.
  destruct entry as [name [price change]]. unfold format_row.
  destruct (change_cell_Ok change) as [c Hc]. rewrite Hc.
  destruct price as [p|].
  - rewrite price_cell_Some. cbn. eauto.
  - unfold price_cell. destruct (is_rise change); [right; reflexivity|].
    destruct (is_fall change); [right; reflexivity|]. cbn. eauto.
Qed.

Lemma format_row_moving_without_price (digits : nat) (name : string) (change : option float) :
  direction_of change <> Flat ->
  format_row digits (name, (None, change)) = Raise format_none_error.
Proof.
  intros H. unfold format_row, price_cell. rewrite is_rise_direction, is_fall_direction.
  destruct (direction_of change); [reflexivity|reflexivity|congruence].
Qed.

Lemma comprehension_Raise {A B} (f : A -> outcome B) (e : exn) (l : list A) (i : nat) (x : A) :
  (forall y, (exists b, f y = Ok b) \/ f y = Raise e) ->
  l !! i = Some x ->
  f x = Raise e ->
  comprehension f l = Raise e.
Proof.
  intros Hall. revert i. induction l as [|y l IH]; intros i Hi Hx; [discriminate|].
  cbn. destruct (Hall y) as [[b Hb]|Hy]; [|rewrite Hy; reflexivity].
  rewrite Hb. cbn. destruct i as [|i]; cbn in Hi.
  - inversion Hi; subst. congruence.
  - rewrite (IH i Hi Hx). reflexivity.
Qed.

(** X9: one row can fail a whole table.  If, among the rows that are
    rendered, a quote has no price but a change that counts as a rise or a
    fall, both renderers raise the [TypeError] of formatting [None], and no
    table is produced at all. *)
Theorem moving_change_without_price_fails_table (data : list Quote)
    (asset_names : list string) (i : nat) (name : string) (change : option float) :
  asset_names !! i = Some name ->
  data !! i = Some (None, change) ->
  direction_of change <> Flat ->
  create_dataframe data asset_names = Raise format_none_error
  /\ create_crypto_dataframe data asset_names = Raise format_none_error.
Proof.
  intros Hname Hdata Hmove.
  assert (zip asset_names data !! i = Some (name, (None, change))) as Hzip.
  { apply lookup_zip_with_Some. eauto. }
  unfold create_dataframe, create_crypto_dataframe, formatted_data.
  rewrite !(comprehension_Raise _ format_none_error _ i _ (format_row_outcomes _) Hzip
              (format_row_moving_without_price _ name change Hmove)).
  split; reflexivity.
Qed.

Lemma moving_change_without_price_fails_table_witness :
  (["A"; "B"] !! 1%nat = Some "B"
   /\ [(Some 50%float, Some 25%float); (None, Some (-5)%float)] !! 1%nat
      = Some (None, Some (-5)%float)
   /\ direction_of (Some (-5)%float) <> Flat) /\
  create_dataframe [(Some 50%float, Some 25%float); (None, Some (-5)%float)] ["A"; "B"]
  = Raise format_none_error
  /\ create_crypto_dataframe [(Some 50%float, Some 25%float); (None, Some (-5)%float)]
       ["A"; "B"]
     = Raise format_none_error.
Proof.
  assert (direction_of (Some (-5)%float) <> Flat) as H by (vm_compute; discriminate).
  split; [split; [reflexivity|]; split; [reflexivity|exact H]|].
  apply (moving_change_without_price_fails_table _ _ 1%nat "B" (Some (-5)%float));
    [reflexivity|reflexivity|exact H].
Defined.

Lemma price_cell_shape (d1 d2 : nat) (price change : option float) :
  outcome_map (fun _ => tt) (price_cell d1 price change)
  = outcome_map (fun _ => tt) (price_cell d2 price change).
Proof.
  unfold price_cell.
  destruct (is_rise change); [destruct price; reflexivity|].
  destruct (is_fall change); destruct price; reflexivity.
Qed.

Lemma format_row_columns (d1 d2 : nat) (entry : string * Quote) :
  outcome_map asset_and_change (format_row d1 entry)
  = outcome_map asset_and_change (format_row d2 entry).
Proof.
  destruct entry as [name [price change]]. unfold format_row.
  pose proof (price_cell_shape d1 d2 price change) as H.
  destruct (price_cell d1 price change), (price_cell d2 price change);
    cbn in H; try discriminate; try reflexivity.
  - cbn. destruct (change_cell change); reflexivity.
  - cbn. congruence.
Qed.

Lemma comprehension_columns {A B C} (f1 f2 : A -> outcome B) (g : B -> C) (l : list A) :
  (forall x, outcome_map g (f1 x) = outcome_map g (f2 x)) ->
  outcome_map (fmap g) (comprehension f1 l) = outcome_map (fmap g) (comprehension f2 l).
Proof.
  intros H. induction l as [|x l IH]; cbn; [reflexivity|].
  specialize (H x).
  destruct (f1 x), (f2 x); cbn in H; try discriminate; try reflexivity; [|cbn; congruence].
  cbn. destruct (comprehension f1 l), (comprehension f2 l);
    cbn in IH; try discriminate; try reflexivity; cbn; congruence.
Qed.

(** X10: the two renderers differ in the price column only.  On the same
    quotes and names, [create_dataframe] and [create_crypto_dataframe]
    succeed or fail together (with the same exception), and when they
    succeed their tables have the same rows as far as the asset and the
    change cell go. *)
Theorem renderers_agree_outside_price_column (data : list Quote) (asset_names : list string) :
  outcome_map (fun c => asset_and_change <$> table_rows c)
    (create_dataframe data asset_names)
  = outcome_map (fun c => asset_and_change <$> table_rows c)
      (create_crypto_dataframe data asset_names).
Proof.
  unfold create_dataframe, create_crypto_dataframe, formatted_data.
  pose proof (comprehension_columns (format_row 2) (format_row 4) asset_and_change
                (zip asset_names data) (format_row_columns 2 4)) as H.
  destruct (comprehension (format_row 2) (zip asset_names data)),
           (comprehension (format_row 4) (zip asset_names data));
    cbn in *; congruence.
Qed.

(** X11: a table of quotes that are all [(None, None)], as the initial
    tables are, never fails and shows "no data" in both cells of every
    row, one row per name in the order of the names (as many as there are
    quotes). *)
Theorem table_without_data (digits n : nat) (asset_names : list string) :
  formatted_data digits (replicate n (None, None)) asset_names
  = Ok (no_data_row <$> take n asset_names)
  /\ create_dataframe (replicate n (None, None)) asset_names
     = Ok (Table "styled-table" (no_data_row <$> take n asset_names))
  /\ create_crypto_dataframe (replicate n (None, None)) asset_names
     = Ok (Table "styled-table" (no_data_row <$> take n asset_names)).
Proof.
  assert (forall d, formatted_data d (replicate n (None, None)) asset_names
                    = Ok (no_data_row <$> take n asset_names)) as H.
  { intros d. unfold formatted_data. revert n.
    induction asset_names as [|name names IH]; intros [|n]; cbn; try reflexivity.
    rewrite IH. reflexivity. }
  split; [apply H|].
  unfold create_dataframe, create_crypto_dataframe. rewrite !H. split; reflexivity.
Qed.

(** ** The page: initial tables, placeholders and the script *)

Lemma placeholder_markdown_present (p : Page) (key : string) (el : element)
    (c : outcome content) (t : content) (w : World) :
  placeholders p !! key = Some el ->
  c = Ok t ->
  placeholder_markdown p key c w = (Ok tt, log (EvMarkdown key t) w).
Proof. intros Hk ->. unfold placeholder_markdown. rewrite Hk. reflexivity. Qed.

Lemma placeholder_markdown_missing (p : Page) (key : string) (c : outcome content) (w : World) :
  placeholders p !! key = None ->
  placeholder_markdown p key c w = (Raise (KeyError key), w).
Proof. intros Hk. unfold placeholder_markdown. rewrite Hk. reflexivity. Qed.

Lemma new_empty_lookup (key : string) (p : Page) :
  placeholders (new_empty key p) !! key = Some (EmptyElement (created p)).
Proof. apply lookup_insert_eq. Qed.

Lemma new_container_lookup (key : string) (p : Page) :
  placeholders (new_container key p) !! key = Some (ContainerElement (created p)).
Proof. apply lookup_insert_eq. Qed.

(** One stanza of the initial rendering. *)
Lemma render_initial_table_run (title_key title table_key : string)
    (render : list Quote -> list string -> outcome content)
    (assets : list (string * string)) (p : Page) (w : World) (t : content) :
  render (replicate (length assets) (None, None)) (keys assets) = Ok t ->
  render_initial_table title_key title table_key render assets p w
  = (Ok (new_empty table_key (new_container title_key p)),
     log (EvMarkdown table_key t) (log (EvMarkdown title_key (Text title)) w)).
Proof.
  intros Ht. unfold render_initial_table.
  rewrite (bind_Ok _ _ _ _ _
             (placeholder_markdown_present _ _ _ _ _ w (new_container_lookup title_key p) eq_refl)).
  rewrite (bind_Ok _ _ _ _ _
             (placeholder_markdown_present _ _ _ _ _ _
                (new_empty_lookup table_key (new_container title_key p)) Ht)).
  reflexivity.
Qed.

Lemma no_data_rows_initial (cls : string) (names : list string) :
  initial_content (Table cls (no_data_row <$> names)).
Proof. cbn. apply Forall_fmap, Forall_forall. intros name _. split; reflexivity. Qed.

Lemma initial_table (assets : list (string * string)) :
  create_dataframe (replicate (length assets) (None, None)) (keys assets)
  = Ok (Table "styled-table" (no_data_row <$> keys assets))
  /\ create_crypto_dataframe (replicate (length assets) (None, None)) (keys assets)
     = Ok (Table "styled-table" (no_data_row <$> keys assets)).
Proof.
  assert (forall d, formatted_data d (replicate (length assets) (None, None)) (keys assets)
                    = Ok (no_data_row <$> keys assets)) as H.
  { intros d. unfold formatted_data, keys.
    induction assets as [|[name t] assets IH]; cbn; [reflexivity|]. rewrite IH. reflexivity. }
  unfold create_dataframe, create_crypto_dataframe. rewrite !H. split; reflexivity.
Qed.

Lemma render_initial_tables_run (p : Page) (w : World) :
  render_initial_tables p w
  = (Ok (initial_page p),
     mkWorld (prev_close_cache w) (trace w ++ initial_events) (clock w)).
Proof.
  unfold render_initial_tables.
  rewrite (bind_Ok _ _ _ _ _ (render_initial_table_run _ _ _ _ _ _ _ _
                                 (proj1 (initial_table commodities)))).
  rewrite (bind_Ok _ _ _ _ _ (render_initial_table_run _ _ _ _ _ _ _ _
                                 (proj1 (initial_table indices_spot)))).
  rewrite (bind_Ok _ _ _ _ _ (render_initial_table_run _ _ _ _ _ _ _ _
                                 (proj1 (initial_table indices_futures)))).
  rewrite (bind_Ok _ _ _ _ _ (render_initial_table_run _ _ _ _ _ _ _ _
                                 (proj1 (initial_table forex_pairs)))).
  rewrite (bind_Ok _ _ _ _ _ (render_initial_table_run _ _ _ _ _ _ _ _
                                 (proj1 (initial_table us_bonds)))).
  rewrite (bind_Ok _ _ _ _ _ (render_initial_table_run _ _ _ _ _ _ _ _
                                 (proj2 (initial_table crypto)))).
  cbv zeta.
  rewrite (bind_Ok _ _ _ _ _
             (placeholder_markdown_present _ _ _ _ _ _ (new_empty_lookup "update_time" _)
                eq_refl)).
  unfold ret. f_equal. apply world_eq.
  - reflexivity.
  - cbn [trace log]. unfold initial_events, initial_table_events.
    rewrite <- !app_assoc. reflexivity.
  - reflexivity.
Qed.

Lemma initial_events_initial : Forall initial_event initial_events.
Proof.
  unfold initial_events, initial_table_events.
  repeat (apply Forall_app; split);
    repeat (apply List.Forall_cons; [first [exact I | apply no_data_rows_initial]|]);
    apply List.Forall_nil.
Qed.

Lemma new_empty_lookup_ne (key key' : string) (p : Page) :
  key <> key' -> placeholders (new_empty key p) !! key' = placeholders p !! key'.
Proof. intros H. apply lookup_insert_ne. exact H. Qed.

Lemma new_container_lookup_ne (key key' : string) (p : Page) :
  key <> key' -> placeholders (new_container key p) !! key' = placeholders p !! key'.
Proof. intros H. apply lookup_insert_ne. exact H. Qed.

Lemma created_new_empty (key : string) (p : Page) :
  created (new_empty key p) = S (created p).
Proof. reflexivity. Qed.

Lemma created_new_container (key : string) (p : Page) :
  created (new_container key p) = S (created p).
Proof. reflexivity. Qed.

Lemma initial_page_keys (p : Page) :
  Forall (fun key => is_Some (placeholders (initial_page p) !! key)) cycle_keys.
Proof.
  unfold cycle_keys, initial_page. cbn [cycle_groups fmap list_fmap placeholder app].
  repeat (apply List.Forall_cons;
          [repeat first [ rewrite new_empty_lookup_ne by discriminate
                        | rewrite new_container_lookup_ne by discriminate ];
           rewrite new_empty_lookup; eauto|]).
  apply List.Forall_nil.
Qed.

(** X12: [render_initial_tables] never fails, whatever the dict held
    before.  It makes no call to the quote source and leaves the cache
    alone; it creates thirteen elements; all it writes are titles, the
    loading notice, and tables whose cells all show "no data"; and the
    dict it leaves has every key that a refresh cycle writes to. *)
Theorem render_initial_tables_prepares_page (p : Page) (w : World) :
  exists p' evs,
    render_initial_tables p w
    = (Ok p', mkWorld (prev_close_cache w) (trace w ++ evs) (clock w))
    /\ Forall initial_event evs
    /\ length evs = 13%nat
    /\ created p' = (created p + 13)%nat
    /\ Forall (fun key => is_Some (placeholders p' !! key)) cycle_keys.
Proof.
  exists (initial_page p), initial_events.
  split; [apply render_initial_tables_run|].
  split; [apply initial_events_initial|].
  split; [reflexivity|].
  split; [|apply initial_page_keys].
  unfold initial_page.
  repeat first [rewrite created_new_empty | rewrite created_new_container]. lia.
Qed.

Lemma bind_ext {A B} (c c' : M A) (k k' : A -> M B) (w : World) :
  (forall w0, c w0 = c' w0) ->
  (forall a w0, k a w0 = k' a w0) ->
  bind c k w = bind c' k' w.
Proof.
  intros Hc Hk. unfold bind. rewrite Hc.
  destruct (c' w) as [[a|e] w1]; [apply Hk|reflexivity].
Qed.

Lemma placeholder_markdown_found {B} (p : Page) (key : string) (el : element)
    (c : outcome content) (k : unit -> M B) (w : World) :
  placeholders p !! key = Some el ->
  bind (placeholder_markdown p key c) k w
  = bind (lift c) (fun t => bind (markdown key t) k) w.
Proof.
  intros Hk. unfold bind at 1. unfold placeholder_markdown. rewrite Hk.
  destruct c as [t|e]; reflexivity.
Qed.

(** With every key at hand, a cycle with the dict lookups is the cycle. *)
Lemma update_dashboard_cycle_on_eq (p : Page) (env : Environment) (w : World) :
  Forall (fun key => is_Some (placeholders p !! key)) cycle_keys ->
  update_dashboard_cycle_on p env w = update_dashboard_cycle env w.
Proof.
  unfold cycle_keys. cbn [cycle_groups fmap list_fmap placeholder app]. intros H.
  repeat (apply Forall_cons in H; destruct H as [[? ?] H]).
  unfold update_dashboard_cycle_on, update_dashboard_cycle.
  do 6 (apply bind_ext; [reflexivity|intros ? ?]).
  do 6 (erewrite placeholder_markdown_found by eassumption;
        apply bind_ext; [reflexivity|intros ? ?];
        apply bind_ext; [reflexivity|intros ? ?]).
  erewrite placeholder_markdown_found by eassumption.
  reflexivity.
Qed.

Lemma update_dashboard_on_eq (p : Page) (feed : nat -> Environment) (n k : nat) (w : World) :
  Forall (fun key => is_Some (placeholders p !! key)) cycle_keys ->
  update_dashboard_on p feed k n w = update_dashboard feed k n w.
Proof.
  intros H. revert k w. induction n as [|n IH]; intros k w; [reflexivity|].
  cbn. unfold bind. rewrite update_dashboard_cycle_on_eq by exact H.
  destruct (update_dashboard_cycle (feed k) w) as [[[]|e] w1]; [apply IH|reflexivity].
Qed.

(** X13: the script as a whole.  It renders the initial tables (which
    cannot fail and leave the cache empty of new entries) and then runs
    the refresh loop, in which every dict lookup of the cycle finds its
    key: the script behaves as the loop [main] started after the initial
    rendering, and no number of passes ends in an exception. *)
Theorem script_runs_the_loop (feed : nat -> Environment) (n : nat) (w : World) :
  exists p w1 w',
    (add_custom_css ;;; render_initial_tables module_placeholders) w = (Ok p, w1)
    /\ prev_close_cache w1 = prev_close_cache w
    /\ Forall (fun key => is_Some (placeholders p !! key)) cycle_keys
    /\ main feed n w1 = (Ok tt, w')
    /\ script feed n w = (Ok tt, w').
Proof.
  pose proof (render_initial_tables_run module_placeholders
                (log (EvMarkdown "" (Text custom_css)) w)) as Hrun.
  pose proof (initial_page_keys module_placeholders) as Hkeys.
  destruct (update_dashboard_Ok feed n 0
              (mkWorld (prev_close_cache w)
                 (trace (log (EvMarkdown "" (Text custom_css)) w) ++ initial_events)
                 (clock w)))
    as (w' & Hmain).
  exists (initial_page module_placeholders),
    (mkWorld (prev_close_cache w)
       (trace (log (EvMarkdown "" (Text custom_css)) w) ++ initial_events) (clock w)),
    w'.
  split; [|split; [|split; [exact Hkeys|split; [exact Hmain|]]]].
  - unfold bind, add_custom_css, markdown. exact Hrun.
  - reflexivity.
  - unfold script, bind, add_custom_css, markdown. rewrite Hrun.
    rewrite update_dashboard_on_eq by exact Hkeys. exact Hmain.
Qed.

(** The writes of a cycle, one after the other: either every key is
    there and all is written, or the writes stop with the [KeyError] of
    the first key that is missing. *)
Lemma write_then_run (p : Page) (steps : list (string * content)) (rest : M unit) (w : World) :
  (Forall (fun s => is_Some (placeholders p !! s.1)) steps
   /\ write_then p steps rest w
      = rest (mkWorld (prev_close_cache w) (trace w ++ written steps) (clock w)))
  \/ exists done key c more,
       steps = (done ++ (key, c) :: more)%list
       /\ Forall (fun s => is_Some (placeholders p !! s.1)) done
       /\ placeholders p !! key = None
       /\ write_then p steps rest w
          = (Raise (KeyError key),
             mkWorld (prev_close_cache w) (trace w ++ written done) (clock w)).
Proof.
  revert w. induction steps as [|[key c] steps IH]; intros w.
  - left. split; [constructor|]. cbn. rewrite app_nil_r. destruct w; reflexivity.
  - cbn [write_then]. destruct (placeholders p !! key) as [el|] eqn:K.
    + rewrite (bind_Ok _ _ _ _ _ (placeholder_markdown_present p key el (Ok c) c w K eq_refl)).
      destruct (IH (log (EvMarkdown key c) w))
        as [[Hall Hrun]|(done & key' & c' & more & -> & Hall & Hnone & Hrun)].
      * left. split; [constructor; [cbn; rewrite K; eauto|exact Hall]|].
        rewrite Hrun. f_equal. apply world_eq; cbn [prev_close_cache trace clock log].
        -- reflexivity.
        -- cbn. rewrite <- app_assoc. reflexivity.
        -- reflexivity.
      * right. exists ((key, c) :: done), key', c', more.
        split; [reflexivity|]. split; [constructor; [cbn; rewrite K; eauto|exact Hall]|].
        split; [exact Hnone|]. rewrite Hrun. f_equal. apply world_eq.
        -- reflexivity.
        -- cbn. rewrite <- app_assoc. reflexivity.
        -- reflexivity.
    + right. exists [], key, c, steps. split; [reflexivity|]. split; [constructor|].
      split; [exact K|]. unfold bind. rewrite (placeholder_markdown_missing _ _ _ _ K).
      cbn. rewrite app_nil_r. destruct w; reflexivity.
Qed.

(** A cycle on the dict [p]: the six group fetches, and then the writes. *)
Lemma update_dashboard_cycle_on_run (p : Page) (env : Environment) (w : World) :
  exists tables w6,
    update_dashboard_cycle_on p env w = write_then p (cycle_steps env tables) (sleep 10) w6
    /\ Forall2 (fun t g => group_table (quotes env) (prev_close_cache w) g = Ok t)
               tables cycle_groups
    /\ fetched (quotes env) w w6 catalog_tickers.
Proof.
  set (src := quotes env). set (c0 := prev_close_cache w).
  destruct (cycle_fetch_phase env w
              (fun q1 q2 q3 q4 q5 q6 =>
                 placeholder_markdown p "commodities_table"
                   (create_dataframe q1 (keys commodities)) ;;;
                 placeholder_markdown p "indices_spot_table"
                   (create_dataframe q2 (keys indices_spot)) ;;;
                 placeholder_markdown p "indices_futures_table"
                   (create_dataframe q3 (keys indices_futures)) ;;;
                 placeholder_markdown p "forex_table"
                   (create_dataframe q4 (keys forex_pairs)) ;;;
                 placeholder_markdown p "bonds_table"
                   (create_dataframe q5 (keys us_bonds)) ;;;
                 placeholder_markdown p "crypto_table"
                   (create_crypto_dataframe q6 (keys crypto)) ;;;
                 placeholder_markdown p "update_time"
                   (Ok (Text ("**데이터 갱신 시각:** " +:+ current_time_kst env))) ;;;
                 sleep 10))
    as (w6 & Hrun & Hf).
  destruct (group_table_Ok src c0 (mkGroup "commodities_table" commodities 2)) as [t1 T1].
  destruct (group_table_Ok src c0 (mkGroup "indices_spot_table" indices_spot 2)) as [t2 T2].
  destruct (group_table_Ok src c0 (mkGroup "indices_futures_table" indices_futures 2))
    as [t3 T3].
  destruct (group_table_Ok src c0 (mkGroup "forex_table" forex_pairs 2)) as [t4 T4].
  destruct (group_table_Ok src c0 (mkGroup "bonds_table" us_bonds 2)) as [t5 T5].
  destruct (group_table_Ok src c0 (mkGroup "crypto_table" crypto 4)) as [t6 T6].
  exists [t1; t2; t3; t4; t5; t6], w6.
  split; [|split; [repeat constructor; assumption|exact Hf]].
  unfold update_dashboard_cycle_on. rewrite Hrun. fold src c0.
  change (create_dataframe (fetched_quote src c0 <$> values commodities) (keys commodities)
          = Ok t1) in T1.
  change (create_dataframe (fetched_quote src c0 <$> values indices_spot) (keys indices_spot)
          = Ok t2) in T2.
  change (create_dataframe (fetched_quote src c0 <$> values indices_futures)
            (keys indices_futures) = Ok t3) in T3.
  change (create_dataframe (fetched_quote src c0 <$> values forex_pairs) (keys forex_pairs)
          = Ok t4) in T4.
  change (create_dataframe (fetched_quote src c0 <$> values us_bonds) (keys us_bonds)
          = Ok t5) in T5.
  change (create_crypto_dataframe (fetched_quote src c0 <$> values crypto) (keys crypto)
          = Ok t6) in T6.
  rewrite T1, T2, T3, T4, T5, T6. reflexivity.
Qed.

Lemma slept_written (steps : list (string * content)) : slept (written steps) = 0.
Proof. induction steps as [|[key c] steps IH]; [reflexivity|exact IH]. Qed.

Lemma cycle_steps_keys (env : Environment) (tables : list content) :
  length tables = length cycle_groups ->
  (fst <$> cycle_steps env tables) = cycle_keys.
Proof.
  intros H. do 7 (destruct tables as [|? tables]; try discriminate H). reflexivity.
Qed.

(** X14: the refresh loop depends on the initial rendering.  If the dict
    lacks one of the keys that a cycle writes to, the first pass requests
    the history of every ticker of the catalog (in the order of the
    catalog, with nothing but calls and messages on the way), then writes
    the tables whose keys come before the first missing one, and ends in
    the [KeyError] of that key, before it reaches the sleep: the clock
    has gone on by the seconds of the calls only, and the loop is over
    with its first pass. *)
Theorem refresh_needs_its_placeholders (p : Page) (feed : nat -> Environment) (k n : nat)
    (w : World) :
  (exists key, key ∈ cycle_keys /\ placeholders p !! key = None) ->
  exists key w' evs tables done c more,
    key ∈ cycle_keys
    /\ placeholders p !! key = None
    /\ update_dashboard_on p feed k (S n) w = (Raise (KeyError key), w')
    /\ cache_grows w w'
    /\ slept (trace w') = slept (trace w)
    /\ trace w' = (trace w ++ evs ++ written done)%list
    /\ Forall source_event evs
    /\ fetches evs = catalog_tickers
    /\ Forall2 (fun t g => group_table (quotes (feed k)) (prev_close_cache w) g = Ok t)
               tables cycle_groups
    /\ cycle_steps (feed k) tables = (done ++ (key, c) :: more)%list
    /\ Forall (fun s => is_Some (placeholders p !! s.1)) done
    /\ clock w' = clock w + call_seconds (quotes (feed k)) evs.
Proof.
  intros (key0 & Hin0 & Hnone0).
  destruct (update_dashboard_cycle_on_run p (feed k) w)
    as (tables & w6 & Hcycle & Htab & Hext & evs & Htr & Hsrc & Hf & Hclk).
  pose proof (cycle_steps_keys (feed k) tables (Forall2_length _ _ _ Htab)) as Hkeys.
  destruct (write_then_run p (cycle_steps (feed k) tables) (sleep 10) w6)
    as [[Hall _]|(done & key & c & more & Hsteps & Hdone & Hnone & Hrun)].
  { exfalso. rewrite <- Hkeys in Hin0. apply list_elem_of_fmap in Hin0.
    destruct Hin0 as (s & -> & Hs).
    rewrite Forall_forall in Hall. destruct (Hall s Hs) as [el Hel]. congruence. }
  exists key, (mkWorld (prev_close_cache w6) (trace w6 ++ written done) (clock w6)),
         evs, tables, done, c, more.
  split.
  { rewrite <- Hkeys, Hsteps, fmap_app. apply elem_of_app. right. left. }
  split; [exact Hnone|]. split.
  { cbn [update_dashboard_on]. unfold bind. rewrite Hcycle, Hrun. reflexivity. }
  split; [intros s v Hv; cbn; eapply cache_ext_keeps; [exact Hext|exact Hv]|].
  cbn [trace clock]. split.
  { rewrite Htr, !slept_app, slept_written, (slept_no_sleep evs); [lia|].
    eapply Forall_impl; [exact Hsrc|]. apply source_event_not_sleep. }
  split; [rewrite Htr, <- app_assoc; reflexivity|].
  repeat (split; [assumption|]). exact Hclk.
Qed.

Lemma refresh_needs_its_placeholders_witness :
  (exists key, key ∈ cycle_keys /\ placeholders module_placeholders !! key = None) /\
  exists key w' evs tables done c more,
    key ∈ cycle_keys
    /\ placeholders module_placeholders !! key = None
    /\ update_dashboard_on module_placeholders (fun _ => sample_env) 0 1 initial_world
       = (Raise (KeyError key), w')
    /\ cache_grows initial_world w'
    /\ slept (trace w') = slept (trace initial_world)
    /\ trace w' = (trace initial_world ++ evs ++ written done)%list
    /\ Forall source_event evs
    /\ fetches evs = catalog_tickers
    /\ Forall2 (fun t g => group_table (quotes ((fun _ => sample_env) 0%nat))
                             (prev_close_cache initial_world) g = Ok t)
               tables cycle_groups
    /\ cycle_steps ((fun _ => sample_env) 0%nat) tables = (done ++ (key, c) :: more)%list
    /\ Forall (fun s => is_Some (placeholders module_placeholders !! s.1)) done
    /\ clock w' = clock initial_world
                  + call_seconds (quotes ((fun _ => sample_env) 0%nat)) evs.
Proof.
  assert (exists key, key ∈ cycle_keys /\ placeholders module_placeholders !! key = None) as H.
  { exists "commodities_table". split; [left|vm_compute; reflexivity]. }
  split; [exact H|].
  exact (refresh_needs_its_placeholders module_placeholders (fun _ => sample_env) 0 0
           initial_world H).
Defined.

Example loop_without_initial_rendering :
  (update_dashboard_on module_placeholders (fun _ => sample_env) 0 1 initial_world).1
  = Raise (KeyError "commodities_table")
  /\ fetches (trace (update_dashboard_on module_placeholders (fun _ => sample_env) 0 1
                       initial_world).2)
     = catalog_tickers.
Proof. vm_compute. split; reflexivity. Qed.

(** ** Prices are fetched afresh in every cycle *)

Lemma requests_of_occurrences (t : string) (evs : list event) :
  requests_of t evs = occurrences t (fetches evs).
Proof.
  unfold occurrences, fetches. induction evs as [|e evs IH]; [reflexivity|].
  destruct e as [t'| | | |]; cbn [requests_of omap list_omap]; try exact IH.
  rewrite filter_cons. destruct (decide (t' = t)); cbn [length]; rewrite IH; reflexivity.
Qed.

Lemma cycle_requests (env : Environment) (w : World) (t : string) :
  exists w' evs,
    update_dashboard_cycle env w = (Ok tt, w')
    /\ trace w' = (trace w ++ evs)%list
    /\ requests_of t evs = occurrences t catalog_tickers.
Proof.
  destruct (update_dashboard_cycle_run env w)
    as (tables & evs & w' & Hrun & Htr & Hsrc & Hf & _).
  exists w', (evs ++ table_events tables ++ [update_time_event env; EvSleep 10])%list.
  split; [exact Hrun|]. split; [exact Htr|].
  rewrite !requests_of_app.
  assert (requests_of t (table_events tables) = 0%nat) as ->.
  { apply requests_of_quiet. unfold table_events.
    generalize (placeholder <$> cycle_groups). intros phs. clear.
    revert tables. induction phs as [|ph phs IH]; intros [|c tables]; cbn; constructor;
      [exact I|apply IH]. }
  change (requests_of t [update_time_event env; EvSleep 10]) with 0%nat.
  rewrite !Nat.add_0_r, requests_of_occurrences, Hf. reflexivity.
Qed.

(** X15: nothing but the previous close is remembered.  In [n] refresh
    cycles the history of a symbol is requested [n] times for every time
    the catalog lists it, whatever the quote source answers and whatever
    the cache holds; and the catalog lists no symbol twice. *)
Theorem history_is_requested_in_every_cycle (feed : nat -> Environment) (n : nat) (w : World)
    (t : string) :
  (exists evs,
     trace (main feed n w).2 = (trace w ++ evs)%list
     /\ requests_of t evs = (n * occurrences t catalog_tickers)%nat)
  /\ Forall (fun t' => occurrences t' catalog_tickers = 1%nat) catalog_tickers.
Proof.
  split.
  - unfold main. generalize 0%nat. revert w.
    induction n as [|n IH]; intros w k.
    + exists []. cbn. rewrite app_nil_r. split; reflexivity.
    + destruct (cycle_requests (feed k) w t) as (w1 & evs & Hrun & Htr & Hreq).
      destruct (IH w1 (S k)) as (evs' & Htr' & Hreq').
      exists (evs ++ evs')%list. cbn [update_dashboard].
      rewrite (bind_Ok _ _ _ _ _ Hrun). split.
      * rewrite Htr', Htr, app_assoc. reflexivity.
      * rewrite requests_of_app, Hreq, Hreq'. lia.
  - repeat (apply List.Forall_cons; [vm_compute; reflexivity|]). apply List.Forall_nil.
Qed.

Example gold_requested_three_times :
  requests_of "GC=F" (trace (main (fun _ => sample_env) 3 initial_world).2) = 3%nat.
Proof. vm_compute. reflexivity. Qed.

(** ** The time a group fetch takes *)

Lemma call_seconds_histories (src : QuoteSource) (evs : list event) :
  history_seconds_of src (fetches evs) <= call_seconds src evs.
Proof.
  unfold history_seconds_of, fetches.
  induction evs as [|e evs IH]; [cbn; lia|].
  destruct e; cbn [omap list_omap foldr call_seconds] in *; lia.
Qed.

(** X16: the calls of a group fetch are made one after the other.  With
    a batch size of at least one, the time that [fetch_all_prices] takes
    is the sum of what its calls to the quote source take, whatever the
    batch size: at least the sum of the times of the history requests for
    all the tickers of the group, not the longest time of a batch. *)
Theorem group_fetch_takes_the_sum_of_its_calls (src : QuoteSource)
    (assets : list (string * string)) (batch_size : Z) (w : World) :
  1 <= batch_size ->
  exists evs,
    trace (fetch_all_prices src assets batch_size w).2 = (trace w ++ evs)%list
    /\ Forall source_event evs
    /\ fetches evs = values assets
    /\ clock (fetch_all_prices src assets batch_size w).2 = clock w + call_seconds src evs
    /\ clock w + history_seconds_of src (values assets)
       <= clock (fetch_all_prices src assets batch_size w).2.
Proof.
  intros Hbs.
  destruct (fetch_all_prices_run src assets batch_size w Hbs)
    as (m & w' & Hrun & _ & Hcat & _ & Hof).
  destruct (only_fetches_events src _ _ _ Hof) as (evs & Htr & Hsrc & Hf & Hclk).
  rewrite Hcat in Hf. rewrite Hrun. cbn [snd].
  exists evs. repeat (split; [assumption|]).
  pose proof (call_seconds_histories src evs) as H. rewrite Hf in H. lia.
Qed.

Lemma group_fetch_takes_the_sum_of_its_calls_witness :
  1 <= 5 /\
  exists evs,
    trace (fetch_all_prices sample_source commodities 5 initial_world).2
    = (trace initial_world ++ evs)%list
    /\ Forall source_event evs
    /\ fetches evs = values commodities
    /\ clock (fetch_all_prices sample_source commodities 5 initial_world).2
       = clock initial_world + call_seconds sample_source evs
    /\ clock initial_world + history_seconds_of sample_source (values commodities)
       <= clock (fetch_all_prices sample_source commodities 5 initial_world).2.
Proof.
  split; [lia|].
  apply (group_fetch_takes_the_sum_of_its_calls sample_source commodities 5 initial_world).
  lia.
Defined.

Example commodities_take_the_sum :
  clock (fetch_all_prices sample_source commodities 5 initial_world).2 = 71
  /\ history_seconds_of sample_source (values commodities) = 68.
Proof. vm_compute. split; reflexivity. Qed.
